(** * A shallow embedding of the Python-interpreter wrapper

    The development follows the TypeScript sources file by file:
    [types.ts] (one module per interface), [linter.ts] (modules [Regex] and
    [Linter]), [interpreter.ts] (module [Interpreter]) and [utils.ts] (module
    [Utils]).

    Conventions of the embedding.
    - A JavaScript string is a Rocq [string]; every character stands for the
      code unit with the same number, so the model covers snippets whose code
      units are below 256.
    - A JavaScript number that the code uses as a count, an exit code, a
      line number or a delay is a [Z]; the two agree on the integers up to
      2^53, beyond which JavaScript rounds.
    - An optional property of an object literal is a [slot]: the key may be
      absent, present with the value [undefined], or present with a value.
    - Configuration objects and environment maps are objects of a heap and
      are handled through their addresses, so that two holders of one address
      see each other's writes.
    - Everything the code obtains from the outside (file system, child
      processes, clock, random numbers, listeners) is an explicit input. *)

From Stdlib Require Import ZArith String Ascii List Bool Lia Sorted.
From stdpp Require Import gmap strings list fin_maps.

Local Open Scope Z_scope.

(* ===================================================================== *)
(** * JavaScript values *)
(* ===================================================================== *)

Module JS.

(** An own property of an object whose declared type is [A | undefined]. *)
Inductive slot (A : Type) : Type :=
| Absent : slot A
| Undefined : slot A
| Present : A -> slot A.
Arguments Absent {A}.
Arguments Undefined {A}.
Arguments Present {A} _.

(** Reading [o.key]: [None] is the value [undefined]. *)
Definition get {A} (s : slot A) : option A :=
  match s with
  | Present a => Some a
  | _ => None
  end.

(** One key of [{ ...a, ...b }] and of [Object.assign(a, b)]: an own
    property of [b] wins, also when its value is [undefined]. *)
Definition spread {A} (a b : slot A) : slot A :=
  match b with
  | Absent => a
  | _ => b
  end.

(** The own property written by [key: v] for a value that may be
    [undefined]. *)
Definition of_value {A} (v : option A) : slot A :=
  match v with
  | Some a => Present a
  | None => Undefined
  end.

(** [x || y] on numbers: [0] and [undefined] are falsy. *)
Definition or_number (x y : option Z) : option Z :=
  match x with
  | Some n => if n =? 0 then y else x
  | None => y
  end.

(** [x || y] on strings: the empty string and [undefined] are falsy. *)
Definition or_string (x y : option string) : option string :=
  match x with
  | Some EmptyString => y
  | Some _ => x
  | None => y
  end.

(** Truthiness of a value of type [boolean | undefined]. *)
Definition truthy (x : option bool) : bool :=
  match x with
  | Some b => b
  | None => false
  end.

(** [x !== false]. *)
Definition not_false (x : option bool) : bool :=
  match x with
  | Some false => false
  | _ => true
  end.

(** [code === 0] for [code : number | null]. *)
Definition strict_eq_zero (code : option Z) : bool :=
  match code with
  | Some n => n =? 0
  | None => false
  end.

(** [code || 0] for [code : number | null]. *)
Definition or_zero (code : option Z) : Z :=
  match code with
  | Some n => n
  | None => 0
  end.

Definition LF : ascii := "010"%char.
Definition nl : string := String LF EmptyString.

(** [s.split('\n')]: always at least one piece. *)
Fixpoint split_lines (s : string) : list string :=
  match s with
  | EmptyString => [EmptyString]
  | String c rest =>
      if Ascii.eqb c LF then EmptyString :: split_lines rest
      else match split_lines rest with
           | [] => [String c EmptyString]
           | piece :: pieces => String c piece :: pieces
           end
  end.

(** [xs.join('\n')]. *)
Definition join_lines (xs : list string) : string := String.concat nl xs.

(** The white space of [\s] and of [trim()] among code units below 256. *)
Definition is_space (c : ascii) : bool :=
  let n := N_of_ascii c in
  ((9 <=? n) && (n <=? 13) || (n =? 32) || (n =? 160))%N.

Definition is_digit (c : ascii) : bool :=
  let n := N_of_ascii c in ((48 <=? n) && (n <=? 57))%N.

Fixpoint trim_start (s : string) : string :=
  match s with
  | String c rest => if is_space c then trim_start rest else s
  | EmptyString => EmptyString
  end.

(** Drops trailing white space; works from the right. *)
Fixpoint trim_end (s : string) : string :=
  match s with
  | EmptyString => EmptyString
  | String c rest =>
      match trim_end rest with
      | EmptyString => if is_space c then EmptyString else String c EmptyString
      | kept => String c kept
      end
  end.

Definition trim (s : string) : string := trim_end (trim_start s).

(** [Number.MAX_SAFE_INTEGER]. *)
Definition MAX_SAFE_INTEGER : Z := 2 ^ 53 - 1.

End JS.

(* ===================================================================== *)
(** * types.ts *)
(* ===================================================================== *)

(** Addresses of heap objects. *)
Definition loc := positive.

Module PythonExecutionResult.
Record t := mk {
  success : bool;
  stdout : string;
  stderr : string;
  exitCode : Z;
  executionTime : Z
}.
End PythonExecutionResult.

Module LintError.
Inductive severity_t := error | warning.
Record t := mk {
  line : Z;
  column : Z;
  message : string;
  severity : severity_t;
  rule : option string
}.
End LintError.

Module LintWarning.
Record t := mk {
  line : Z;
  column : Z;
  message : string;
  rule : option string
}.
End LintWarning.

Module PythonLintResult.
Record t := mk {
  isValid : bool;
  errors : list LintError.t;
  warnings : list LintWarning.t
}.
End PythonLintResult.

Module InterpreterConfig.
Record t := mk {
  pythonPath : JS.slot string;
  timeout : JS.slot Z;
  maxOutputLines : JS.slot Z;
  enableLinting : JS.slot bool;
  allowUnsafeOperations : JS.slot bool;
  workingDirectory : JS.slot string;
  environment : JS.slot loc
}.

(** [{}]. *)
Definition empty : t :=
  mk JS.Absent JS.Absent JS.Absent JS.Absent JS.Absent JS.Absent JS.Absent.

(** [{ ...a, ...b }]; [Object.assign(a, b)] leaves the same properties
    in [a]. *)
Definition spread (a b : t) : t :=
  {| pythonPath := JS.spread (pythonPath a) (pythonPath b);
     timeout := JS.spread (timeout a) (timeout b);
     maxOutputLines := JS.spread (maxOutputLines a) (maxOutputLines b);
     enableLinting := JS.spread (enableLinting a) (enableLinting b);
     allowUnsafeOperations :=
       JS.spread (allowUnsafeOperations a) (allowUnsafeOperations b);
     workingDirectory := JS.spread (workingDirectory a) (workingDirectory b);
     environment := JS.spread (environment a) (environment b) |}.

Definition set_enableLinting (v : JS.slot bool) (c : t) : t :=
  {| pythonPath := pythonPath c; timeout := timeout c;
     maxOutputLines := maxOutputLines c; enableLinting := v;
     allowUnsafeOperations := allowUnsafeOperations c;
     workingDirectory := workingDirectory c; environment := environment c |}.

Definition set_allowUnsafeOperations (v : JS.slot bool) (c : t) : t :=
  {| pythonPath := pythonPath c; timeout := timeout c;
     maxOutputLines := maxOutputLines c; enableLinting := enableLinting c;
     allowUnsafeOperations := v;
     workingDirectory := workingDirectory c; environment := environment c |}.

Definition set_timeout (v : JS.slot Z) (c : t) : t :=
  {| pythonPath := pythonPath c; timeout := v;
     maxOutputLines := maxOutputLines c; enableLinting := enableLinting c;
     allowUnsafeOperations := allowUnsafeOperations c;
     workingDirectory := workingDirectory c; environment := environment c |}.
End InterpreterConfig.

Module StreamOutput.
Inductive type_t := stdout | stderr | error | complete.
Record t := mk {
  type : type_t;
  data : string;
  timestamp : Z
}.
End StreamOutput.

Module ExecutionOptions.
Record t := mk {
  timeout : JS.slot Z;
  cwd : JS.slot string;
  env : JS.slot (gmap string string);
  stream : JS.slot bool;
  sanitize : JS.slot bool
}.

Definition empty : t := mk JS.Absent JS.Absent JS.Absent JS.Absent JS.Absent.
End ExecutionOptions.

Module UnsafeExecutionContext.
Record t := mk {
  allowShellAccess : JS.slot bool;
  allowFileSystemAccess : JS.slot bool;
  allowNetworkAccess : JS.slot bool;
  allowImportAll : JS.slot bool;
  bypassSandbox : JS.slot bool
}.

Definition empty : t := mk JS.Absent JS.Absent JS.Absent JS.Absent JS.Absent.
End UnsafeExecutionContext.

(* ===================================================================== *)
(** * The host: child processes and observable effects *)
(* ===================================================================== *)

Module ChildProcess.

(** What a spawned child reports to its listeners. *)
Inductive event :=
| stdout_data (chunk : string)
| stderr_data (chunk : string)
| close (code : option Z)
| error (message : string).

(** The events of one child in delivery order, each with the value of
    [Date.now()] at its delivery. *)
Definition script := list (Z * event).

(** [spawn(...)] either throws at once or returns a child. *)
Inductive spawn_result :=
| throws (message : string)
| child (events : script).

End ChildProcess.

Module Host.

(** Events the interpreter emits on itself. *)
Inductive emitted :=
| data (o : StreamOutput.t)
| complete (r : PythonExecutionResult.t)
| error (message : string)
| timeout.

(** Calls into the platform, in program order. *)
Inductive effect :=
| writeFile (path content : string)
| unlink (path : string)
| spawn (command : option string) (args : list string)
        (options : option (option string * gmap string string))
| setTimeout (delay : option Z)
| clearTimeout
| kill
| emit (e : emitted)
| uncaught (message : string)
| console_warn (message : string).

(** A promise once the event loop has run dry. *)
Inductive promise (A : Type) :=
| pending
| resolved (a : A)
| rejected (message : string).
Arguments pending {A}.
Arguments resolved {A} _.
Arguments rejected {A} _.

End Host.

(* ===================================================================== *)
(** * Regular expressions of linter.ts *)
(* ===================================================================== *)

Module Regex.

Inductive t :=
| Void
| Eps
| Chr (c : ascii)
| Space                      (* \s *)
| Digit                      (* \d *)
| Cat (r1 r2 : t)
| Alt (r1 r2 : t)
| Star (r : t).

(** [r+]. *)
Definition Plus (r : t) : t := Cat r (Star r).

(** A literal word. *)
Fixpoint Str (s : string) : t :=
  match s with
  | EmptyString => Eps
  | String c rest => Cat (Chr c) (Str rest)
  end.

(** The language of an expression. *)
Inductive Matches : t -> list ascii -> Prop :=
| MEps : Matches Eps []
| MChr c : Matches (Chr c) [c]
| MSpace c : JS.is_space c = true -> Matches Space [c]
| MDigit c : JS.is_digit c = true -> Matches Digit [c]
| MCat r1 r2 s1 s2 :
    Matches r1 s1 -> Matches r2 s2 -> Matches (Cat r1 r2) (s1 ++ s2)
| MAltL r1 r2 s : Matches r1 s -> Matches (Alt r1 r2) s
| MAltR r1 r2 s : Matches r2 s -> Matches (Alt r1 r2) s
| MStarNil r : Matches (Star r) []
| MStarApp r s1 s2 :
    Matches r s1 -> Matches (Star r) s2 -> Matches (Star r) (s1 ++ s2).

Fixpoint nullable (r : t) : bool :=
  match r with
  | Void | Chr _ | Space | Digit => false
  | Eps | Star _ => true
  | Cat r1 r2 => nullable r1 && nullable r2
  | Alt r1 r2 => nullable r1 || nullable r2
  end.

(** What remains to be matched after reading [c]. *)
Fixpoint deriv (c : ascii) (r : t) : t :=
  match r with
  | Void | Eps => Void
  | Chr d => if Ascii.eqb c d then Eps else Void
  | Space => if JS.is_space c then Eps else Void
  | Digit => if JS.is_digit c then Eps else Void
  | Cat r1 r2 =>
      if nullable r1 then Alt (Cat (deriv c r1) r2) (deriv c r2)
      else Cat (deriv c r1) r2
  | Alt r1 r2 => Alt (deriv c r1) (deriv c r2)
  | Star r1 => Cat (deriv c r1) (Star r1)
  end.

(** Does [r] match some prefix of [s]? *)
Fixpoint match_here (r : t) (s : list ascii) : bool :=
  nullable r ||
  match s with
  | [] => false
  | c :: rest => match_here (deriv c r) rest
  end.

(** Does [r] match somewhere in [s]? *)
Fixpoint search (r : t) (s : list ascii) : bool :=
  match_here r s ||
  match s with
  | [] => false
  | _ :: rest => search r rest
  end.

(** [pattern.test(s)] for a pattern without flags. *)
Definition test (r : t) (s : string) : bool :=
  search r (list_ascii_of_string s).

(** [r] occurs in [s]: the text of a match, with what is around it. *)
Definition occurs (r : t) (s : string) : Prop :=
  exists before m after,
    list_ascii_of_string s = before ++ m ++ after /\ Matches r m.

End Regex.

(* ===================================================================== *)
(** * linter.ts *)
(* ===================================================================== *)

Module Linter.

Record PythonLinter := mkLinter {
  pythonPath : string;
  tempDir : string
}.

(** [new PythonLinter(pythonPath)]: the default parameter value replaces
    [undefined]. *)
Definition new (path : option string) (tmpdir : string) : PythonLinter :=
  {| pythonPath := match path with Some p => p | None => "python3" end;
     tempDir := tmpdir |}.

(** What the outside does during one [lintCode] call. *)
Record world := mkWorld {
  tempFilePath : string;               (* join(tempDir, fileName) *)
  writeFile_fails : option string;     (* message of the rejection *)
  py_compile : ChildProcess.spawn_result;
  random_gt_08 : bool;                 (* Math.random() > 0.8 *)
  unlink_fails : bool
}.

(** [hay.includes(needle)]. *)
Fixpoint includes (needle hay : string) : bool :=
  String.prefix needle hay ||
  match hay with
  | EmptyString => false
  | String _ rest => includes needle rest
  end.

Fixpoint take_digits (s : string) : string :=
  match s with
  | String c rest => if JS.is_digit c then String c (take_digits rest)
                     else EmptyString
  | EmptyString => EmptyString
  end.

Fixpoint drop (n : nat) (s : string) : string :=
  match n, s with
  | S k, String _ rest => drop k rest
  | _, _ => s
  end.

(** [line.match(/line (\d+)/)]: the text of group 1 of the leftmost match,
    the group taking as many digits as there are. *)
Fixpoint match_line_digits (s : string) : option string :=
  let here :=
    if String.prefix "line " s then
      match take_digits (drop 5 s) with
      | EmptyString => None
      | ds => Some ds
      end
    else None in
  match here with
  | Some ds => Some ds
  | None => match s with
            | EmptyString => None
            | String _ rest => match_line_digits rest
            end
  end.

(** [parseInt(ds, 10)] on a non-empty run of digits: the number the digits
    denote, which is what JavaScript returns up to 2^53. *)
Fixpoint parseInt_from (acc : Z) (ds : string) : Z :=
  match ds with
  | EmptyString => acc
  | String c rest =>
      parseInt_from (10 * acc + (Z.of_N (N_of_ascii c) - 48)) rest
  end.

Definition parseInt (ds : string) : Z := parseInt_from 0 ds.

(** The body of the loop over the lines of the compiler's stderr. *)
Definition syntax_error_of_line (line : string) : list LintError.t :=
  if includes "SyntaxError" line || includes "IndentationError" line then
    let lineNumber :=
      match match_line_digits line with
      | Some ds => parseInt ds
      | None => 1
      end in
    [ LintError.mk lineNumber 1 (JS.trim line) LintError.error
        (Some "syntax-error") ]
  else [].

(** The ['close'] listener of [checkSyntax]. *)
Definition checkSyntax_on_close (code : option Z) (stderr : string)
  : list LintError.t :=
  if negb (JS.strict_eq_zero code) && negb (String.eqb stderr "") then
    flat_map syntax_error_of_line (JS.split_lines stderr)
  else [].

(** The ['error'] listener of [checkSyntax]. *)
Definition checkSyntax_on_error (message : string) : list LintError.t :=
  [ LintError.mk 1 1 ("Python execution error: " +:+ message)
      LintError.error None ].

(** The listeners of [checkSyntax] run over the child's events up to the
    first one that resolves the promise; [None] when none does. *)
Fixpoint checkSyntax_listen (events : ChildProcess.script) (stderr : string)
  : option (list LintError.t) :=
  match events with
  | [] => None
  | (_, ev) :: rest =>
      match ev with
      | ChildProcess.stdout_data _ => checkSyntax_listen rest stderr
      | ChildProcess.stderr_data chunk =>
          checkSyntax_listen rest (stderr +:+ chunk)
      | ChildProcess.close code => Some (checkSyntax_on_close code stderr)
      | ChildProcess.error message => Some (checkSyntax_on_error message)
      end
  end.

Definition checkSyntax (w : world) : Host.promise (list LintError.t) :=
  match py_compile w with
  | ChildProcess.throws message => Host.rejected message
  | ChildProcess.child events =>
      match checkSyntax_listen events "" with
      | Some errors => Host.resolved errors
      | None => Host.pending
      end
  end.

Definition dangerousPatterns : list (Regex.t * string) :=
  [ (Regex.Cat (Regex.Str "import") (Regex.Cat (Regex.Plus Regex.Space) (Regex.Str "os")),
     "Potentially dangerous: os module import");
    (Regex.Cat (Regex.Str "import") (Regex.Cat (Regex.Plus Regex.Space) (Regex.Str "subprocess")),
     "Potentially dangerous: subprocess module import");
    (Regex.Cat (Regex.Str "import") (Regex.Cat (Regex.Plus Regex.Space) (Regex.Str "sys")),
     "Potentially dangerous: sys module import");
    (Regex.Cat (Regex.Str "exec") (Regex.Cat (Regex.Star Regex.Space) (Regex.Chr "(")),
     "Potentially dangerous: exec() function call");
    (Regex.Cat (Regex.Str "eval") (Regex.Cat (Regex.Star Regex.Space) (Regex.Chr "(")),
     "Potentially dangerous: eval() function call");
    (Regex.Cat (Regex.Str "__import__") (Regex.Cat (Regex.Star Regex.Space) (Regex.Chr "(")),
     "Potentially dangerous: __import__() function call") ].

(** The body of [lines.forEach((line, index) => ...)]. *)
Definition check_line (index : nat) (line : string) : list LintWarning.t :=
  flat_map
    (fun entry : Regex.t * string =>
       if Regex.test (fst entry) line then
         [ LintWarning.mk (Z.of_nat index + 1) 1 (snd entry)
             (Some "security-warning") ]
       else [])
    dangerousPatterns.

Fixpoint forEach_line (index : nat) (lines : list string)
  : list LintWarning.t :=
  match lines with
  | [] => []
  | line :: rest => check_line index line ++ forEach_line (S index) rest
  end.

Definition performBasicSecurityCheck (code : string) : list LintWarning.t :=
  forEach_line 0 (JS.split_lines code).

Definition cleanupTempFile (w : world) (filePath : string)
  : list Host.effect :=
  Host.unlink filePath ::
  (if unlink_fails w
   then [Host.console_warn ("Failed to cleanup temp file: " +:+ filePath)]
   else []).

(** The [catch] block of [lintCode]. *)
Definition lintCode_catch (errors : list LintError.t)
    (warnings : list LintWarning.t) (message : string) : PythonLintResult.t :=
  PythonLintResult.mk false
    (errors ++ [ LintError.mk 1 1 ("Linting failed: " +:+ message)
                   LintError.error None ])
    warnings.

(** [lintCode(code, { strict })]: the promise it returns and what it did. *)
Definition lintCode (self : PythonLinter) (w : world) (code : string)
    (strict : JS.slot bool)
  : Host.promise PythonLintResult.t * list Host.effect :=
  let write := Host.writeFile (tempFilePath w) code in
  match writeFile_fails w with
  | Some message => (Host.resolved (lintCode_catch [] [] message), [write])
  | None =>
      let spawn :=
        Host.spawn (Some (pythonPath self))
          ["-m"; "py_compile"; tempFilePath w]%string None in
      match checkSyntax w with
      | Host.rejected message =>
          (Host.resolved (lintCode_catch [] [] message), [write; spawn])
      | Host.pending => (Host.pending, [write; spawn])
      | Host.resolved syntaxErrors =>
          let errors := [] ++ syntaxErrors in
          let warnings :=
            if JS.not_false (JS.get strict)
            then [] ++ performBasicSecurityCheck code
            else [] in
          let cleanup :=
            if random_gt_08 w then cleanupTempFile w (tempFilePath w)
            else [] in
          (Host.resolved
             (PythonLintResult.mk (Nat.eqb (length errors) 0) errors warnings),
           [write; spawn] ++ cleanup)
      end
  end.

End Linter.

(* ===================================================================== *)
(** * linter.ts: unsafeFileOperation *)
(* ===================================================================== *)

Module FileOperation.

(** The calls [unsafeFileOperation] makes into [fs]; an argument the caller
    left out is [undefined]. *)
Inductive call :=
| readFile (path : option string)
| writeFile (path data : option string)
| unlink (path : option string).

(** What a call into [fs] does: it returns a value ([undefined] for
    [writeFile] and [unlink]) or throws an [Error]. *)
Inductive outcome :=
| returns (value : option string)
| throws (message : string).

(** One [case] of the [switch] with the [catch] around it. *)
Definition attempt (fs : call -> outcome) (c : call)
  : Host.promise (option string) * list call :=
  match fs c with
  | returns value => (Host.resolved value, [c])
  | throws message =>
      (Host.rejected ("File operation failed: " +:+ message), [c])
  end.

(** [unsafeFileOperation(operation, ...args)]: its promise and the calls it
    made. *)
Definition unsafeFileOperation (fs : call -> outcome) (operation : string)
    (args : list string) : Host.promise (option string) * list call :=
  if String.eqb operation "read" then attempt fs (readFile (nth_error args 0))
  else if String.eqb operation "write"
       then attempt fs (writeFile (nth_error args 0) (nth_error args 1))
  else if String.eqb operation "delete"
       then attempt fs (unlink (nth_error args 0))
  else (Host.rejected
          ("File operation failed: "
           +:+ ("Unknown operation: " +:+ operation)), []).

End FileOperation.

(* ===================================================================== *)
(** * The heap of shared objects *)
(* ===================================================================== *)

Module Heap.

Inductive object :=
| Config (c : InterpreterConfig.t)
| Env (m : gmap string string).

(** The configuration object at an address. *)
Definition config_at (hp : gmap loc object) (l : loc) : InterpreterConfig.t :=
  match hp !! l with
  | Some (Config c) => c
  | _ => InterpreterConfig.empty
  end.

(** The entries that [...e] spreads; [...undefined] spreads none. *)
Definition env_at (hp : gmap loc object) (e : option loc)
  : gmap string string :=
  match e with
  | Some l => match hp !! l with
              | Some (Env m) => m
              | _ => ∅
              end
  | None => ∅
  end.

(** A new object gets an address no object has. *)
Definition alloc (hp : gmap loc object) (o : object)
  : loc * gmap loc object :=
  let l := fresh (dom hp) in (l, <[l := o]> hp).

End Heap.

(* ===================================================================== *)
(** * interpreter.ts *)
(* ===================================================================== *)

Module Interpreter.

(** The process the library runs in. *)
Record host := mkHost {
  process_cwd : string;                         (* process.cwd() *)
  process_env : loc;                            (* process.env *)
  os_tmpdir : string;                           (* tmpdir() *)
  (* JSON.stringify of a configuration with the given properties and
     environment entries *)
  JSON_stringify : InterpreterConfig.t -> gmap string string -> string
}.

Record PythonInterpreter := mkInterpreter {
  config : loc;
  linter : Linter.PythonLinter;
  tempDir : string
}.

(** The defaults of the constructor. *)
Definition defaults (h : host) : InterpreterConfig.t :=
  {| InterpreterConfig.pythonPath := JS.Present "python3"%string;
     InterpreterConfig.timeout := JS.Present 30000;
     InterpreterConfig.maxOutputLines := JS.Present 1000;
     InterpreterConfig.enableLinting := JS.Present true;
     InterpreterConfig.allowUnsafeOperations := JS.Present false;
     InterpreterConfig.workingDirectory := JS.Present (process_cwd h);
     InterpreterConfig.environment := JS.Present (process_env h) |}.

(** [new PythonInterpreter(config)]. *)
Definition new (h : host) (hp : gmap loc Heap.object)
    (config : InterpreterConfig.t)
  : PythonInterpreter * gmap loc Heap.object :=
  let merged := InterpreterConfig.spread (defaults h) config in
  let (l, hp') := Heap.alloc hp (Heap.Config merged) in
  ({| config := l;
      linter := Linter.new (JS.get (InterpreterConfig.pythonPath merged))
                  (os_tmpdir h);
      tempDir := os_tmpdir h |}, hp').

(** [getConfig()]: the address of a new object with the same properties. *)
Definition getConfig (hp : gmap loc Heap.object) (this : PythonInterpreter)
  : loc * gmap loc Heap.object :=
  Heap.alloc hp
    (Heap.Config
       (InterpreterConfig.spread InterpreterConfig.empty
          (Heap.config_at hp (config this)))).

(** [Object.assign(target, source)] on a configuration object. *)
Definition Object_assign (hp : gmap loc Heap.object) (target : loc)
    (source : InterpreterConfig.t) : gmap loc Heap.object :=
  <[target := Heap.Config
                (InterpreterConfig.spread (Heap.config_at hp target) source)]>
    hp.

(** [updateConfig(newConfig)]. *)
Definition updateConfig (hp : gmap loc Heap.object)
    (this : PythonInterpreter) (newConfig : InterpreterConfig.t)
  : gmap loc Heap.object :=
  Object_assign hp (config this) newConfig.

(** What the outside does during one [executeCode] call. *)
Record world := mkWorld {
  now_start : Z;                       (* Date.now() on entry *)
  lint : Linter.world;
  now_lint_failed : Z;                 (* Date.now() in the lint branch *)
  tempFilePath : string;               (* join(tempDir, fileName) *)
  writeFile_fails : option string;
  now_catch : Z;                       (* Date.now() in the catch block *)
  python : ChildProcess.spawn_result;
  now_spawn : Z;                       (* the clock when the timer is set *)
  random_gt_03 : bool;                 (* Math.random() > 0.3 *)
  has_error_listener : bool            (* someone listens to 'error' *)
}.

(** One run of [executeWithStreaming] or [executeDirectly]: its local
    variables, its timer, its membership in [activeProcesses], the promise
    it returned and the calls it made (oldest first). *)
Record execution := mkExecution {
  stdout : string;
  stderr : string;
  outputLineCount : Z;
  timer_armed : bool;
  tracked : bool;
  promise : Host.promise PythonExecutionResult.t;
  log : list Host.effect
}.

Definition capture (out err : string) (count : Z) (x : execution)
  : execution :=
  {| stdout := out; stderr := err; outputLineCount := count;
     timer_armed := timer_armed x; tracked := tracked x;
     promise := promise x; log := log x |}.

Definition calling (fx : list Host.effect) (x : execution) : execution :=
  {| stdout := stdout x; stderr := stderr x;
     outputLineCount := outputLineCount x;
     timer_armed := timer_armed x; tracked := tracked x;
     promise := promise x; log := log x ++ fx |}.

(** [resolve(..)] and [reject(..)]: only the first one counts. *)
Definition settle (p : Host.promise PythonExecutionResult.t) (x : execution)
  : execution :=
  {| stdout := stdout x; stderr := stderr x;
     outputLineCount := outputLineCount x;
     timer_armed := timer_armed x; tracked := tracked x;
     promise := match promise x with
                | Host.pending => p
                | settled => settled
                end;
     log := log x |}.

(** [clearTimeout(timeout); this.activeProcesses.delete(python)]. *)
Definition release (x : execution) : execution :=
  {| stdout := stdout x; stderr := stderr x;
     outputLineCount := outputLineCount x;
     timer_armed := false; tracked := false;
     promise := promise x; log := log x ++ [Host.clearTimeout] |}.

(** The timer has fired: it is no longer armed. *)
Definition fired (x : execution) : execution :=
  {| stdout := stdout x; stderr := stderr x;
     outputLineCount := outputLineCount x;
     timer_armed := false; tracked := tracked x;
     promise := promise x; log := log x |}.

(** [count < limit] where [limit] may be [undefined]. *)
Definition less_than (count : Z) (limit : option Z) : bool :=
  match limit with
  | Some m => count <? m
  | None => false
  end.

(** The delay [setTimeout] uses for its second argument. *)
Definition timer_delay (delay : option Z) : Z :=
  match delay with
  | Some d => if (1 <=? d) && (d <=? 2147483647) then d else 1
  | None => 1
  end.

(** [options.timeout || this.config.timeout]. *)
Definition setTimeout_argument (cfg : InterpreterConfig.t)
    (options : ExecutionOptions.t) : option Z :=
  JS.or_number (JS.get (ExecutionOptions.timeout options))
               (JS.get (InterpreterConfig.timeout cfg)).

(** [cleanupTempFile(filePath)]: a failure of [unlink] is swallowed. *)
Definition cleanupTempFile (filePath : string) : list Host.effect :=
  [Host.unlink filePath].

(** The listeners of one child. *)
Record listeners := mkListeners {
  on_stdout : Z -> string -> execution -> execution;
  on_stderr : Z -> string -> execution -> execution;
  on_close : Z -> option Z -> execution -> execution;
  on_error : Z -> string -> execution -> execution;
  on_timer : execution -> execution
}.

Definition dispatch (l : listeners) (now : Z) (ev : ChildProcess.event)
    (x : execution) : execution :=
  match ev with
  | ChildProcess.stdout_data chunk => on_stdout l now chunk x
  | ChildProcess.stderr_data chunk => on_stderr l now chunk x
  | ChildProcess.close code => on_close l now code x
  | ChildProcess.error message => on_error l now message x
  end.

(** The timer callback runs, the child dies of SIGKILL and closes without
    an exit code. The model lets the ['close'] of the killed child arrive
    in the same turn, at the time the timer fires; on a real host it
    arrives some time later, after whatever was still in the pipes. *)
Definition expire (l : listeners) (fireAt : Z) (x : execution) : execution :=
  on_close l fireAt None (on_timer l (fired x)).

(** The event loop for one child whose timer, while armed, fires at
    [fireAt]: events that arrive earlier are delivered first; an armed
    timer fires before any later event, and what the child would have done
    after being killed never happens. A child that is still running when
    its script ends runs until the timer fires. *)
Fixpoint event_loop (l : listeners) (fireAt : Z)
    (events : ChildProcess.script) (x : execution) : execution :=
  match events with
  | [] => if timer_armed x then expire l fireAt x else x
  | (now, ev) :: rest =>
      if timer_armed x && (fireAt <=? now) then expire l fireAt x
      else event_loop l fireAt rest (dispatch l now ev x)
  end.

Section Execute.

Variable h : host.
Variable hp : gmap loc Heap.object.
Variable this : PythonInterpreter.
Variable w : world.

(** [this.config], read where the code reads it. *)
Definition this_config : InterpreterConfig.t :=
  Heap.config_at hp (config this).

(** [{ ...this.config.environment, ...options.env }]. *)
Definition merged_env (options : ExecutionOptions.t) : gmap string string :=
  match JS.get (ExecutionOptions.env options) with
  | Some e => e
  | None => ∅
  end ∪ Heap.env_at hp (JS.get (InterpreterConfig.environment this_config)).

(** [options.cwd || this.config.workingDirectory]. *)
Definition spawn_cwd (options : ExecutionOptions.t) : option string :=
  JS.or_string (JS.get (ExecutionOptions.cwd options))
    (JS.get (InterpreterConfig.workingDirectory this_config)).

(** ** executeWithStreaming *)

Definition streaming_on_stdout (now : Z) (output : string) (x : execution)
  : execution :=
  let count :=
    outputLineCount x + (Z.of_nat (length (JS.split_lines output)) - 1) in
  let x' := capture (stdout x +:+ output) (stderr x) count x in
  if JS.truthy (JS.get (InterpreterConfig.allowUnsafeOperations this_config))
     || less_than count
          (JS.get (InterpreterConfig.maxOutputLines this_config))
  then calling
         [Host.emit (Host.data
            (StreamOutput.mk StreamOutput.stdout output now))] x'
  else x'.

Definition streaming_on_stderr (now : Z) (output : string) (x : execution)
  : execution :=
  calling
    [Host.emit (Host.data (StreamOutput.mk StreamOutput.stderr output now))]
    (capture (stdout x) (stderr x +:+ output) (outputLineCount x) x).

Definition streaming_on_close (filePath : string) (startTime : Z)
    (now : Z) (code : option Z) (x : execution) : execution :=
  let x' := release x in
  let result :=
    PythonExecutionResult.mk (JS.strict_eq_zero code) (stdout x')
      (stderr x') (JS.or_zero code) (now - startTime) in
  calling (if random_gt_03 w then cleanupTempFile filePath else [])
    (settle (Host.resolved result)
       (calling [Host.emit (Host.complete result)] x')).

(** [this.emit('error', error)] throws when nobody listens to ['error'];
    the listener then ends before it reaches [reject(error)]. *)
Definition streaming_on_error (now : Z) (message : string) (x : execution)
  : execution :=
  let x' := release x in
  if has_error_listener w then
    settle (Host.rejected message)
      (calling [Host.emit (Host.error message)] x')
  else calling [Host.uncaught message] x'.

Definition streaming_on_timer (x : execution) : execution :=
  calling [Host.kill; Host.emit Host.timeout] x.

Definition streaming_listeners (filePath : string) (startTime : Z)
  : listeners :=
  {| on_stdout := streaming_on_stdout;
     on_stderr := streaming_on_stderr;
     on_close := streaming_on_close filePath startTime;
     on_error := streaming_on_error;
     on_timer := streaming_on_timer |}.

Definition executeWithStreaming (filePath : string)
    (options : ExecutionOptions.t) (startTime : Z) : execution :=
  let spawn :=
    Host.spawn (JS.get (InterpreterConfig.pythonPath this_config))
      [filePath] (Some (spawn_cwd options, merged_env options)) in
  match python w with
  | ChildProcess.throws message =>
      mkExecution "" "" 0 false false (Host.rejected message) [spawn]
  | ChildProcess.child events =>
      let delay := setTimeout_argument this_config options in
      event_loop (streaming_listeners filePath startTime)
        (now_spawn w + timer_delay delay) events
        (mkExecution "" "" 0 true true Host.pending
           [spawn; Host.setTimeout delay])
  end.

(** ** executeDirectly *)

Definition direct_env (options : ExecutionOptions.t)
  : gmap string string :=
  <["PYTHON_INTERPRETER_CONFIG"%string :=
      JSON_stringify h this_config
        (Heap.env_at hp
           (JS.get (InterpreterConfig.environment this_config)))]>
    (<["PYTHON_INTERPRETER_TEMP_DIR"%string := tempDir this]>
       (merged_env options)).

Definition direct_on_stdout (now : Z) (chunk : string) (x : execution)
  : execution :=
  capture (stdout x +:+ chunk) (stderr x) (outputLineCount x) x.

Definition direct_on_stderr (now : Z) (chunk : string) (x : execution)
  : execution :=
  capture (stdout x) (stderr x +:+ chunk) (outputLineCount x) x.

Definition direct_on_close (filePath : string) (startTime : Z)
    (now : Z) (code : option Z) (x : execution) : execution :=
  let x' := release x in
  calling (cleanupTempFile filePath)
    (settle
       (Host.resolved
          (PythonExecutionResult.mk (JS.strict_eq_zero code) (stdout x')
             (stderr x') (JS.or_zero code) (now - startTime)))
       x').

Definition direct_on_error (startTime : Z) (now : Z) (message : string)
    (x : execution) : execution :=
  let x' := release x in
  settle
    (Host.resolved
       (PythonExecutionResult.mk false (stdout x')
          (stderr x' +:+ message) 1 (now - startTime)))
    x'.

Definition direct_on_timer (x : execution) : execution :=
  calling [Host.kill] x.

Definition direct_listeners (filePath : string) (startTime : Z)
  : listeners :=
  {| on_stdout := direct_on_stdout;
     on_stderr := direct_on_stderr;
     on_close := direct_on_close filePath startTime;
     on_error := direct_on_error startTime;
     on_timer := direct_on_timer |}.

Definition executeDirectly (filePath : string)
    (options : ExecutionOptions.t) (startTime : Z) : execution :=
  let spawn :=
    Host.spawn (JS.get (InterpreterConfig.pythonPath this_config))
      [filePath] (Some (spawn_cwd options, direct_env options)) in
  match python w with
  | ChildProcess.throws message =>
      mkExecution "" "" 0 false false (Host.rejected message) [spawn]
  | ChildProcess.child events =>
      let delay := setTimeout_argument this_config options in
      event_loop (direct_listeners filePath startTime)
        (now_spawn w + timer_delay delay) events
        (mkExecution "" "" 0 true true Host.pending
           [spawn; Host.setTimeout delay])
  end.

(** ** executeCode *)

(** [sanitizeCode(code)]. *)
Definition sanitizeCode (code : string) : string := code.

(** The result built when the lint result is not valid. *)
Definition lint_failure (lintResult : PythonLintResult.t)
  : PythonExecutionResult.t :=
  PythonExecutionResult.mk false ""
    (JS.join_lines (map LintError.message (PythonLintResult.errors lintResult)))
    1 (now_lint_failed w - now_start w).

(** The [try] block and its [catch]. The promises of
    [executeWithStreaming] and [executeDirectly] are returned without
    being awaited, so their rejection is the rejection of [executeCode]
    and never reaches the [catch]. *)
Definition execute_spawning (code : string) (options : ExecutionOptions.t)
  : Host.promise PythonExecutionResult.t * list Host.effect :=
  let sanitizedCode :=
    if JS.truthy (JS.get (InterpreterConfig.allowUnsafeOperations this_config))
    then code else sanitizeCode code in
  let write := Host.writeFile (tempFilePath w) sanitizedCode in
  match writeFile_fails w with
  | Some message =>
      (Host.resolved
         (PythonExecutionResult.mk false ""
            ("Execution failed: " +:+ message) 1
            (now_catch w - now_start w)),
       [write])
  | None =>
      let x :=
        if JS.truthy (JS.get (ExecutionOptions.stream options))
        then executeWithStreaming (tempFilePath w) options (now_start w)
        else executeDirectly (tempFilePath w) options (now_start w) in
      (promise x, write :: log x)
  end.

(** Does [executeCode] run the linter first? *)
Definition lints_first (options : ExecutionOptions.t) : bool :=
  JS.truthy (JS.get (InterpreterConfig.enableLinting this_config))
  && JS.not_false (JS.get (ExecutionOptions.sanitize options)).

Definition executeCode (code : string) (options : ExecutionOptions.t)
  : Host.promise PythonExecutionResult.t * list Host.effect :=
  if lints_first options then
    let strict :=
      JS.Present
        (negb (JS.truthy
                 (JS.get (InterpreterConfig.allowUnsafeOperations this_config)))) in
    match Linter.lintCode (linter this) (lint w) code strict with
    | (Host.pending, fx) => (Host.pending, fx)
    | (Host.rejected message, fx) => (Host.rejected message, fx)
    | (Host.resolved lintResult, fx) =>
        if negb (PythonLintResult.isValid lintResult)
        then (Host.resolved (lint_failure lintResult), fx)
        else let (p, fx') := execute_spawning code options in
             (p, fx ++ fx')
    end
  else execute_spawning code options.

End Execute.

(** ** executeUnsafe *)

(** [flag ? 'true' : 'false']. *)
Definition true_or_false (flag : option bool) : string :=
  if JS.truthy flag then "true" else "false".

Definition unsafeOptions (hp : gmap loc Heap.object)
    (this : PythonInterpreter) (context : UnsafeExecutionContext.t)
  : ExecutionOptions.t :=
  let cfg := this_config hp this in
  {| ExecutionOptions.sanitize := JS.Present false;
     ExecutionOptions.timeout :=
       if JS.truthy (JS.get (UnsafeExecutionContext.bypassSandbox context))
       then JS.Present 0
       else JS.of_value (JS.get (InterpreterConfig.timeout cfg));
     ExecutionOptions.env :=
       JS.Present
         (<["ALLOW_NETWORK_ACCESS"%string :=
              true_or_false
                (JS.get (UnsafeExecutionContext.allowNetworkAccess context))]>
          (<["ALLOW_FS_ACCESS"%string :=
               true_or_false
                 (JS.get (UnsafeExecutionContext.allowFileSystemAccess context))]>
           (<["ALLOW_SHELL_ACCESS"%string :=
                true_or_false
                  (JS.get (UnsafeExecutionContext.allowShellAccess context))]>
            (<["UNSAFE_MODE"%string := "true"%string]>
             (Heap.env_at hp
                (JS.get (InterpreterConfig.environment cfg)))))));
     ExecutionOptions.cwd := JS.Absent;
     ExecutionOptions.stream := JS.Absent |}.

(** [this.config.enableLinting = a; this.config.allowUnsafeOperations = b]. *)
Definition assign_flags (hp : gmap loc Heap.object)
    (this : PythonInterpreter) (a b : option bool) : gmap loc Heap.object :=
  <[config this :=
      Heap.Config
        (InterpreterConfig.set_allowUnsafeOperations (JS.of_value b)
           (InterpreterConfig.set_enableLinting (JS.of_value a)
              (this_config hp this)))]> hp.

(** [try { return await body } finally { cleanup }]: the [finally] block
    runs once the awaited promise settles, whichever way. *)
Definition try_finally {A : Type} (body : Host.promise A)
    (cleanup : gmap loc Heap.object -> gmap loc Heap.object)
    (hp : gmap loc Heap.object) : gmap loc Heap.object :=
  match body with
  | Host.pending => hp
  | Host.resolved _ | Host.rejected _ => cleanup hp
  end.

Definition executeUnsafe (h : host) (hp : gmap loc Heap.object)
    (this : PythonInterpreter) (w : world) (code : string)
    (context : UnsafeExecutionContext.t)
  : (Host.promise PythonExecutionResult.t * list Host.effect)
    * gmap loc Heap.object :=
  let options := unsafeOptions hp this context in
  let originalEnableLinting :=
    JS.get (InterpreterConfig.enableLinting (this_config hp this)) in
  let originalAllowUnsafe :=
    JS.get (InterpreterConfig.allowUnsafeOperations (this_config hp this)) in
  let forced := assign_flags hp this (Some false) (Some true) in
  let run := executeCode h forced this w code options in
  (run,
   try_finally (fst run)
     (fun now => assign_flags now this originalEnableLinting originalAllowUnsafe)
     forced).

End Interpreter.

(* ===================================================================== *)
(** * utils.ts *)
(* ===================================================================== *)

Module Utils.

Definition createInterpreter (h : Interpreter.host)
    (hp : gmap loc Heap.object) (config : InterpreterConfig.t)
  : Interpreter.PythonInterpreter * gmap loc Heap.object :=
  let mergedConfig :=
    InterpreterConfig.spread
      {| InterpreterConfig.enableLinting := JS.Present true;
         InterpreterConfig.allowUnsafeOperations := JS.Present false;
         InterpreterConfig.timeout := JS.Present 30000;
         InterpreterConfig.maxOutputLines := JS.Present 1000;
         InterpreterConfig.pythonPath := JS.Absent;
         InterpreterConfig.workingDirectory := JS.Absent;
         InterpreterConfig.environment := JS.Absent |}
      config in
  let safeConfig :=
    InterpreterConfig.spread mergedConfig
      {| InterpreterConfig.enableLinting := JS.Present true;
         InterpreterConfig.allowUnsafeOperations := JS.Present false;
         InterpreterConfig.timeout := JS.Absent;
         InterpreterConfig.maxOutputLines := JS.Absent;
         InterpreterConfig.pythonPath := JS.Absent;
         InterpreterConfig.workingDirectory := JS.Absent;
         InterpreterConfig.environment := JS.Absent |} in
  Interpreter.new h hp safeConfig.

Definition createUnsafeInterpreter (h : Interpreter.host)
    (hp : gmap loc Heap.object) (config : InterpreterConfig.t)
  : (Interpreter.PythonInterpreter * gmap loc Heap.object)
    * list Host.effect :=
  let unsafeConfig :=
    InterpreterConfig.spread
      {| InterpreterConfig.enableLinting := JS.Present false;
         InterpreterConfig.allowUnsafeOperations := JS.Present true;
         InterpreterConfig.timeout := JS.Present 0;
         InterpreterConfig.maxOutputLines := JS.Present JS.MAX_SAFE_INTEGER;
         InterpreterConfig.pythonPath := JS.Absent;
         InterpreterConfig.workingDirectory := JS.Absent;
         InterpreterConfig.environment := JS.Absent |}
      config in
  (Interpreter.new h hp unsafeConfig,
   [Host.console_warn
      "DANGER: Creating interpreter with unsafe configuration!"]).

(** The presets of [createQuickInterpreter]. *)
Inductive preset := safe | testing | educational | dangerous.

(** [baseConfig] after the [switch]. *)
Definition baseConfig (p : preset) : InterpreterConfig.t :=
  match p with
  | safe =>
      InterpreterConfig.mk JS.Absent (JS.Present 10000) (JS.Present 100)
        (JS.Present true) (JS.Present false) JS.Absent JS.Absent
  | testing =>
      InterpreterConfig.mk JS.Absent (JS.Present 60000) (JS.Present 5000)
        (JS.Present true) (JS.Present false) JS.Absent JS.Absent
  | educational =>
      InterpreterConfig.mk JS.Absent (JS.Present 30000) (JS.Present 1000)
        (JS.Present true) (JS.Present true) JS.Absent JS.Absent
  | dangerous =>
      InterpreterConfig.mk JS.Absent (JS.Present 0)
        (JS.Present JS.MAX_SAFE_INTEGER) (JS.Present false) (JS.Present true)
        JS.Absent JS.Absent
  end.

(** The [console.warn] calls of the [switch] (without the leading
    pictographs, which are no code units below 256). *)
Definition preset_warning (p : preset) : list Host.effect :=
  match p with
  | safe | testing => []
  | educational =>
      [Host.console_warn
         "Educational mode: Some unsafe operations are enabled for learning purposes"]
  | dangerous =>
      [Host.console_warn "DANGEROUS MODE: All safety measures disabled!"]
  end.

Definition createQuickInterpreter (h : Interpreter.host)
    (hp : gmap loc Heap.object) (p : preset)
    (customConfig : InterpreterConfig.t)
  : (Interpreter.PythonInterpreter * gmap loc Heap.object)
    * list Host.effect :=
  (Interpreter.new h hp (InterpreterConfig.spread (baseConfig p) customConfig),
   preset_warning p).

Definition createUnsafeContext (overrides : UnsafeExecutionContext.t)
  : UnsafeExecutionContext.t :=
  {| UnsafeExecutionContext.allowShellAccess :=
       JS.spread (JS.Present true)
         (UnsafeExecutionContext.allowShellAccess overrides);
     UnsafeExecutionContext.allowFileSystemAccess :=
       JS.spread (JS.Present true)
         (UnsafeExecutionContext.allowFileSystemAccess overrides);
     UnsafeExecutionContext.allowNetworkAccess :=
       JS.spread (JS.Present true)
         (UnsafeExecutionContext.allowNetworkAccess overrides);
     UnsafeExecutionContext.allowImportAll :=
       JS.spread (JS.Present true)
         (UnsafeExecutionContext.allowImportAll overrides);
     UnsafeExecutionContext.bypassSandbox :=
       JS.spread (JS.Present true)
         (UnsafeExecutionContext.bypassSandbox overrides) |}.

(** The listeners of [checkPythonAvailability] run over the child's events
    up to the first one that resolves the promise. *)
Fixpoint availability_listen (events : ChildProcess.script) : option bool :=
  match events with
  | [] => None
  | (_, ev) :: rest =>
      match ev with
      | ChildProcess.close code => Some (JS.strict_eq_zero code)
      | ChildProcess.error _ => Some false
      | _ => availability_listen rest
      end
  end.

(** [checkPythonAvailability(pythonPath)], given what
    [spawn(pythonPath, ['--version'])] does. *)
Definition checkPythonAvailability (spawned : ChildProcess.spawn_result)
  : Host.promise bool :=
  match spawned with
  | ChildProcess.throws message => Host.rejected message
  | ChildProcess.child events =>
      match availability_listen events with
      | Some available => Host.resolved available
      | None => Host.pending
      end
  end.

End Utils.

(* ===================================================================== *)
(** * What a caller can do to an object it holds *)
(* ===================================================================== *)

Module Caller.

(** [o.key = v] for every own property of [source], that is
    [Object.assign(o, source)], on a configuration object [o]. *)
Definition assign (hp : gmap loc Heap.object) (o : loc)
    (source : InterpreterConfig.t) : gmap loc Heap.object :=
  Interpreter.Object_assign hp o source.

(** [o.environment[key] = value] on a configuration object [o]; when
    [o.environment] is [undefined] the statement throws and changes
    nothing. *)
Definition assign_env (hp : gmap loc Heap.object) (o : loc)
    (key value : string) : gmap loc Heap.object :=
  match JS.get (InterpreterConfig.environment (Heap.config_at hp o)) with
  | Some e =>
      match hp !! e with
      | Some (Heap.Env m) => <[e := Heap.Env (<[key := value]> m)]> hp
      | _ => hp
      end
  | None => hp
  end.

(** What a reader of the configuration object at [o] can see: its
    properties and the entries of its environment map. *)
Definition view (hp : gmap loc Heap.object) (o : loc)
  : InterpreterConfig.t * gmap string string :=
  (Heap.config_at hp o,
   Heap.env_at hp (JS.get (InterpreterConfig.environment (Heap.config_at hp o)))).


End Caller.

(* ===================================================================== *)
(** * Reading a log and a script *)
(* ===================================================================== *)

Module Observe.

(** The number of line feeds in a text. *)
Fixpoint line_boundaries (s : string) : Z :=
  match s with
  | EmptyString => 0
  | String c rest =>
      (if Ascii.eqb c JS.LF then 1 else 0) + line_boundaries rest
  end.

(** The payload of an emitted stdout StreamOutput. *)
Definition stdout_chunk (e : Host.effect) : list string :=
  match e with
  | Host.emit (Host.data (StreamOutput.mk StreamOutput.stdout d _)) => [d]
  | _ => []
  end.

(** The payload of an emitted stderr StreamOutput. *)
Definition stderr_chunk (e : Host.effect) : list string :=
  match e with
  | Host.emit (Host.data (StreamOutput.mk StreamOutput.stderr d _)) => [d]
  | _ => []
  end.

Definition stdout_chunks (log : list Host.effect) : list string :=
  flat_map stdout_chunk log.

Definition stderr_chunks (log : list Host.effect) : list string :=
  flat_map stderr_chunk log.

Definition is_kill (e : Host.effect) : bool :=
  match e with
  | Host.kill => true
  | _ => false
  end.

(** How often a log calls [kill]. *)
Definition kills (log : list Host.effect) : nat :=
  length (List.filter is_kill log).

(** What a child writes to its stdout and to its stderr. *)
Definition written_to_stdout (ev : Z * ChildProcess.event) : list string :=
  match snd ev with
  | ChildProcess.stdout_data chunk => [chunk]
  | _ => []
  end.

Definition written_to_stderr (ev : Z * ChildProcess.event) : list string :=
  match snd ev with
  | ChildProcess.stderr_data chunk => [chunk]
  | _ => []
  end.

(** Every event of the script arrives before the timer fires. *)
Definition before_timer (fireAt : Z) (events : ChildProcess.script) : bool :=
  forallb (fun ev : Z * ChildProcess.event => fst ev <? fireAt) events.

End Observe.

(* ===================================================================== *)
(** * Reading a script *)
(* ===================================================================== *)

Module Trace.

(** A chunk of output, on either stream. *)
Definition is_data (ev : Z * ChildProcess.event) : bool :=
  match snd ev with
  | ChildProcess.stdout_data _ | ChildProcess.stderr_data _ => true
  | _ => false
  end.

(** A script of chunks only: the child neither closes nor fails in it. *)
Definition all_data (events : ChildProcess.script) : bool :=
  forallb is_data events.

(** Chunks put end to end. *)
Definition text (chunks : list string) : string :=
  fold_right String.append EmptyString chunks.

(** All that a script writes to stdout, and to stderr. *)
Definition stdout_text (events : ChildProcess.script) : string :=
  text (flat_map Observe.written_to_stdout events).

Definition stderr_text (events : ChildProcess.script) : string :=
  text (flat_map Observe.written_to_stderr events).


Definition is_timeout (e : Host.effect) : bool :=
  match e with
  | Host.emit Host.timeout => true
  | _ => false
  end.

(** How often a log emits ['timeout']. *)
Definition timeouts (log : list Host.effect) : nat :=
  length (List.filter is_timeout log).

Definition is_unlink (e : Host.effect) : bool :=
  match e with
  | Host.unlink _ => true
  | _ => false
  end.

(** A call that, if it goes into [fs], writes [code] to one of [paths] or
    deletes one of them. *)
Definition touches_only (paths : list string) (code : string)
    (e : Host.effect) : Prop :=
  match e with
  | Host.writeFile path content => In path paths /\ content = code
  | Host.unlink path => In path paths
  | _ => True
  end.

(** A call that writes no file and deletes none but [filePath]. *)
Definition writes_nothing (filePath : string) (e : Host.effect) : Prop :=
  match e with
  | Host.writeFile _ _ => False
  | Host.unlink path => path = filePath
  | _ => True
  end.

(** The children a log starts to run a script file: command and
    arguments of the [spawn] calls that pass options. *)
Definition runs (e : Host.effect) : list (option string * list string) :=
  match e with
  | Host.spawn command args (Some _) => [(command, args)]
  | _ => []
  end.

(** The environments a log hands to the children it starts. *)
Definition environments (e : Host.effect) : list (gmap string string) :=
  match e with
  | Host.spawn _ _ (Some (_, env)) => [env]
  | _ => []
  end.

(** The commands of the compile checks a log starts. *)
Definition compile_checks (e : Host.effect) : list (option string) :=
  match e with
  | Host.spawn command _ None => [command]
  | _ => []
  end.

(** The calls a run makes before it starts to listen. *)
Definition is_setup (e : Host.effect) : bool :=
  match e with
  | Host.spawn _ _ _ | Host.setTimeout _ => true
  | _ => false
  end.

(** The delays a log passes to [setTimeout]. *)
Definition timers (e : Host.effect) : list (option Z) :=
  match e with
  | Host.setTimeout delay => [delay]
  | _ => []
  end.

(** While a run goes on, the child is among the active children exactly as
    long as its timer is armed, it has not been killed while the timer is
    armed, and it is killed at most once. *)
Definition guarded (x : Interpreter.execution) : Prop :=
  Interpreter.tracked x = Interpreter.timer_armed x
  /\ (Interpreter.timer_armed x = true ->
      Observe.kills (Interpreter.log x) = 0%nat)
  /\ (Observe.kills (Interpreter.log x) <= 1)%nat.

(** When a run is over, the child is no longer among the active children,
    its timer is not armed, and it was killed at most once. *)
Definition released (x : Interpreter.execution) : Prop :=
  Interpreter.tracked x = false
  /\ Interpreter.timer_armed x = false
  /\ (Observe.kills (Interpreter.log x) <= 1)%nat.

End Trace.

(* ===================================================================== *)
(** * Concrete hosts, interpreters and children used in examples *)
(* ===================================================================== *)

Module Sample.

Definition env : gmap string string := {[ "PATH"%string := "/usr/bin"%string ]}.

(** A heap that holds [process.env] at address 1. *)
Definition heap : gmap loc Heap.object := {[ 1%positive := Heap.Env env ]}.

Definition host : Interpreter.host :=
  Interpreter.mkHost "/work" 1%positive "/tmp" (fun _ _ => "{}"%string).

(** A compile check that finds nothing. *)
Definition clean_lint : Linter.world :=
  Linter.mkWorld "/tmp/python_lint_1_a.py" None
    (ChildProcess.child [(3, ChildProcess.close (Some 0))]) false false.

(** A compile check that reports a syntax error on line 2. *)
Definition failing_lint : Linter.world :=
  Linter.mkWorld "/tmp/python_lint_1_a.py" None
    (ChildProcess.child
       [(2, ChildProcess.stderr_data
              "  File x.py, line 2 SyntaxError: invalid syntax");
        (3, ChildProcess.close (Some 1))]) false false.

(** A child that prints after two seconds and exits with code 0. *)
Definition slow_child : ChildProcess.spawn_result :=
  ChildProcess.child
    [(2010, ChildProcess.stdout_data "done");
     (2011, ChildProcess.close (Some 0))].

(** A child that could not be started. *)
Definition missing_binary : ChildProcess.spawn_result :=
  ChildProcess.child
    [(11, ChildProcess.error "spawn invalid_python_path ENOENT")].

Definition world (child : ChildProcess.spawn_result) : Interpreter.world :=
  Interpreter.mkWorld 0 clean_lint 4 "/tmp/python_exec_5_b.py" None 6
    child 10 true true.

(** A line of output. *)
Definition line (s : string) : string := s +:+ JS.nl.

Definition options_with (timeout : JS.slot Z) (stream : JS.slot bool)
    (sanitize : JS.slot bool) : ExecutionOptions.t :=
  ExecutionOptions.mk timeout JS.Absent JS.Absent stream sanitize.

Definition config_with (pythonPath : JS.slot string) (timeout : JS.slot Z)
    (enableLinting allowUnsafeOperations : JS.slot bool)
  : InterpreterConfig.t :=
  InterpreterConfig.mk pythonPath timeout JS.Absent enableLinting
    allowUnsafeOperations JS.Absent JS.Absent.

(** A compile check that fails without naming a syntax error. *)
Definition tab_error_report : string :=
  "Sorry: TabError: inconsistent use of tabs and spaces (x.py, line 2)".

Definition tab_error_lint : Linter.world :=
  Linter.mkWorld "/tmp/python_lint_1_a.py" None
    (ChildProcess.child
       [(2, ChildProcess.stderr_data tab_error_report);
        (3, ChildProcess.close (Some 1))]) false false.

(** A compile check whose interpreter cannot be started. *)
Definition unstartable_lint : Linter.world :=
  Linter.mkWorld "/tmp/python_lint_1_a.py" None
    (ChildProcess.child [(2, ChildProcess.error "spawn python3 ENOENT")])
    false false.

(** A child that writes to both streams and exits with code 3. *)
Definition chatty_child : ChildProcess.spawn_result :=
  ChildProcess.child
    [(20, ChildProcess.stdout_data (line "one"));
     (21, ChildProcess.stderr_data "oops");
     (22, ChildProcess.stdout_data (line "two"));
     (30, ChildProcess.close (Some 3))].


(** A spawn that fails as Node reports it: ['error'], then ['close'] with
    the negated errno. *)
Definition failed_spawn : ChildProcess.spawn_result :=
  ChildProcess.child
    [(11, ChildProcess.error "spawn invalid_python_path ENOENT");
     (12, ChildProcess.close (Some (-2)))].

(** A world in which the script file cannot be written. *)
Definition read_only_world : Interpreter.world :=
  Interpreter.mkWorld 0 clean_lint 4 "/tmp/python_exec_5_b.py"
    (Some "EROFS: read-only file system"%string) 6 slow_child 10 true true.

(** A world with the compile check [lint] in front of the child. *)
Definition world_with (lint : Linter.world)
    (child : ChildProcess.spawn_result) : Interpreter.world :=
  Interpreter.mkWorld 0 lint 4 "/tmp/python_exec_5_b.py" None 6 child 10
    true true.

End Sample.

(* ===================================================================== *)
(** * Properties *)
(* ===================================================================== *)

Import ListNotations.

(** ** Configuration objects on the heap *)

Lemma config_at_insert (hp : gmap loc Heap.object) (l : loc)
    (c : InterpreterConfig.t) :
  Heap.config_at (<[l := Heap.Config c]> hp) l = c.
Proof. unfold Heap.config_at. by rewrite lookup_insert_eq. Qed.

Lemma config_at_insert_ne (hp : gmap loc Heap.object) (l l' : loc)
    (o : Heap.object) :
  l <> l' -> Heap.config_at (<[l := o]> hp) l' = Heap.config_at hp l'.
Proof. intros Hne. unfold Heap.config_at. by rewrite lookup_insert_ne. Qed.

Lemma alloc_fresh (hp : gmap loc Heap.object) (o : Heap.object) :
  hp !! fst (Heap.alloc hp o) = None.
Proof.
  unfold Heap.alloc. simpl. apply not_elem_of_dom. apply is_fresh.
Qed.

Lemma new_policy (h : Interpreter.host) (hp : gmap loc Heap.object)
    (config : InterpreterConfig.t) :
  Heap.config_at (snd (Interpreter.new h hp config))
    (Interpreter.config (fst (Interpreter.new h hp config)))
  = InterpreterConfig.spread (Interpreter.defaults h) config.
Proof. unfold Interpreter.new, Heap.alloc. simpl. apply config_at_insert. Qed.

(** C7: whatever configuration the caller supplies, [createInterpreter]
    returns an interpreter whose policy has [enableLinting] true and
    [allowUnsafeOperations] false; the interpreter path, the timeout and the
    output limit are the caller's whenever the caller supplied them, and the
    defaults otherwise. *)
Theorem createInterpreter_hard_floor (h : Interpreter.host)
    (hp : gmap loc Heap.object) (config : InterpreterConfig.t) :
  let created := Utils.createInterpreter h hp config in
  let policy :=
    Heap.config_at (snd created) (Interpreter.config (fst created)) in
  InterpreterConfig.enableLinting policy = JS.Present true
  /\ InterpreterConfig.allowUnsafeOperations policy = JS.Present false
  /\ InterpreterConfig.pythonPath policy
     = match InterpreterConfig.pythonPath config with
       | JS.Absent => JS.Present "python3"%string
       | given => given
       end
  /\ InterpreterConfig.timeout policy
     = match InterpreterConfig.timeout config with
       | JS.Absent => JS.Present 30000
       | given => given
       end
  /\ InterpreterConfig.maxOutputLines policy
     = match InterpreterConfig.maxOutputLines config with
       | JS.Absent => JS.Present 1000
       | given => given
       end.
Proof.
  intros created policy. subst created policy.
  unfold Utils.createInterpreter. rewrite new_policy.
  destruct config as [pp to mol el au wd en]; simpl.
  repeat split.
  - destruct pp; reflexivity.
  - destruct to; reflexivity.
  - destruct mol; reflexivity.
Qed.

(** ** The linter *)

Lemma length_zero_iff_nil {A : Type} (l : list A) :
  Nat.eqb (length l) 0 = true <-> l = [].
Proof. destruct l; simpl; split; intros H; try reflexivity; discriminate. Qed.

(** Every result of [lintCode] is valid exactly when it has no error. *)
Lemma lintCode_valid_iff (self : Linter.PythonLinter) (w : Linter.world)
    (code : string) (strict : JS.slot bool) (r : PythonLintResult.t)
    (fx : list Host.effect) :
  Linter.lintCode self w code strict = (Host.resolved r, fx) ->
  (PythonLintResult.isValid r = true <-> PythonLintResult.errors r = []).
Proof.
  unfold Linter.lintCode.
  destruct (Linter.writeFile_fails w) as [message|].
  - intros [= <- _]. simpl. split; intros H; discriminate.
  - destruct (Linter.checkSyntax w) as [|syntaxErrors|message].
    + intros [=].
    + intros [= <- _]. simpl. apply length_zero_iff_nil.
    + intros [= <- _]. simpl. split; intros H; discriminate.
Qed.

(** The validity and the errors of a lint result do not depend on [strict],
    which only switches the warnings on and off. *)
Lemma lintCode_strict_irrelevant (self : Linter.PythonLinter)
    (w : Linter.world) (code : string) (strict strict' : JS.slot bool)
    (r : PythonLintResult.t) (fx : list Host.effect) :
  Linter.lintCode self w code strict = (Host.resolved r, fx) ->
  exists r' fx',
    Linter.lintCode self w code strict' = (Host.resolved r', fx')
    /\ PythonLintResult.isValid r' = PythonLintResult.isValid r
    /\ PythonLintResult.errors r' = PythonLintResult.errors r.
Proof.
  unfold Linter.lintCode.
  destruct (Linter.writeFile_fails w) as [message|].
  - intros [= <- <-]. eauto.
  - destruct (Linter.checkSyntax w) as [|syntaxErrors|message].
    + intros [=].
    + intros [= <- <-]. eauto.
    + intros [= <- <-]. eauto.
Qed.

(** [lintCode] never rejects, and it stays pending only while the compile
    check has reported neither ['close'] nor ['error']. *)
Lemma lintCode_settles (self : Linter.PythonLinter) (w : Linter.world)
    (code : string) (strict : JS.slot bool) :
  match fst (Linter.lintCode self w code strict) with
  | Host.resolved _ => True
  | Host.rejected _ => False
  | Host.pending =>
      exists events,
        Linter.py_compile w = ChildProcess.child events
        /\ Linter.checkSyntax_listen events "" = None
  end.
Proof.
  unfold Linter.lintCode, Linter.checkSyntax.
  destruct (Linter.writeFile_fails w); simpl; [exact I|].
  destruct (Linter.py_compile w) as [message|events]; simpl; [exact I|].
  destruct (Linter.checkSyntax_listen events "") eqn:E; simpl; eauto.
Qed.

(** C8: for every snippet and every [strict], the result that [lintCode]
    returns has [isValid] true exactly when its list of errors is empty; the
    warnings play no part: with the heuristic stage switched the other way
    (any other [strict]) validity and errors are the same. *)
Theorem lintCode_isValid_iff_no_errors (self : Linter.PythonLinter)
    (w : Linter.world) (code : string) (strict : JS.slot bool)
    (r : PythonLintResult.t) (fx : list Host.effect) :
  Linter.lintCode self w code strict = (Host.resolved r, fx) ->
  (PythonLintResult.isValid r = true <-> PythonLintResult.errors r = [])
  /\ forall strict',
       exists r' fx',
         Linter.lintCode self w code strict' = (Host.resolved r', fx')
         /\ PythonLintResult.isValid r' = PythonLintResult.isValid r
         /\ PythonLintResult.errors r' = PythonLintResult.errors r.
Proof.
  intros H. split.
  - eapply lintCode_valid_iff; eassumption.
  - intros strict'. eapply lintCode_strict_irrelevant; eassumption.
Qed.

(** A snippet with three risky lines and correct syntax: valid, no error,
    three warnings. *)
Lemma lintCode_isValid_iff_no_errors_witness :
  let code := ("import os" +:+ JS.nl +:+ "import subprocess" +:+ JS.nl
               +:+ "exec('x')")%string in
  let r := PythonLintResult.mk true []
             (Linter.performBasicSecurityCheck code) in
  Linter.lintCode (Linter.new None "/tmp") Sample.clean_lint code JS.Absent
  = (Host.resolved r,
     [Host.writeFile "/tmp/python_lint_1_a.py" code;
      Host.spawn (Some "python3"%string)
        ["-m"; "py_compile"; "/tmp/python_lint_1_a.py"]%string None])
  /\ length (PythonLintResult.warnings r) = 3%nat
  /\ (PythonLintResult.isValid r = true <-> PythonLintResult.errors r = []).
Proof.
  intros code r.
  assert (H : Linter.lintCode (Linter.new None "/tmp") Sample.clean_lint code
                JS.Absent
              = (Host.resolved r,
                 [Host.writeFile "/tmp/python_lint_1_a.py" code;
                  Host.spawn (Some "python3"%string)
                    ["-m"; "py_compile"; "/tmp/python_lint_1_a.py"]%string
                    None])) by (vm_compute; reflexivity).
  split; [exact H|]. split; [vm_compute; reflexivity|].
  exact (proj1 (lintCode_isValid_iff_no_errors _ _ _ _ _ _ H)).
Defined.

(** ** The regular expressions *)

Lemma nullable_sound (r : Regex.t) :
  Regex.nullable r = true -> Regex.Matches r [].
Proof.
  induction r; simpl; intros H; try discriminate.
  - constructor.
  - apply andb_true_iff in H. destruct H as [H1 H2].
    change (@nil ascii) with (@nil ascii ++ []). constructor; auto.
  - apply orb_true_iff in H. destruct H as [H|H].
    + apply Regex.MAltL; auto.
    + apply Regex.MAltR; auto.
  - constructor.
Qed.

Lemma nullable_complete (r : Regex.t) (s : list ascii) :
  Regex.Matches r s -> s = [] -> Regex.nullable r = true.
Proof.
  induction 1; intros Hs; simpl; try discriminate; try reflexivity.
  - apply app_eq_nil in Hs. destruct Hs as [-> ->].
    rewrite IHMatches1, IHMatches2; reflexivity.
  - rewrite IHMatches by assumption. reflexivity.
  - rewrite IHMatches by assumption. apply orb_true_r.
Qed.

Lemma nullable_spec (r : Regex.t) :
  Regex.nullable r = true <-> Regex.Matches r [].
Proof.
  split; [apply nullable_sound|]. intros H. now apply nullable_complete with (s := []).
Qed.

Lemma deriv_sound (c : ascii) (r : Regex.t) (s : list ascii) :
  Regex.Matches (Regex.deriv c r) s -> Regex.Matches r (c :: s).
Proof.
  revert s. induction r; simpl; intros s H.
  - inversion H.
  - inversion H.
  - destruct (Ascii.eqb c c0) eqn:E; inversion H; subst.
    apply Ascii.eqb_eq in E. subst. constructor.
  - destruct (JS.is_space c) eqn:E; inversion H; subst. now constructor.
  - destruct (JS.is_digit c) eqn:E; inversion H; subst. now constructor.
  - assert (Hcat : forall s', Regex.Matches (Regex.Cat (Regex.deriv c r1) r2) s' ->
                              Regex.Matches (Regex.Cat r1 r2) (c :: s')).
    { intros s' H'. inversion H'; subst.
      change (c :: s1 ++ s2) with ((c :: s1) ++ s2). constructor; auto. }
    destruct (Regex.nullable r1) eqn:En.
    + inversion H; subst.
      * now apply Hcat.
      * change (c :: s) with ([] ++ c :: s). constructor; auto.
        now apply nullable_sound.
    + now apply Hcat.
  - inversion H; subst.
    + apply Regex.MAltL; auto.
    + apply Regex.MAltR; auto.
  - inversion H; subst.
    change (c :: s1 ++ s2) with ((c :: s1) ++ s2). constructor; auto.
Qed.

Lemma deriv_complete (c : ascii) (r : Regex.t) (t : list ascii) :
  Regex.Matches r t ->
  forall u, t = c :: u -> Regex.Matches (Regex.deriv c r) u.
Proof.
  induction 1; intros u Hs; simpl; try discriminate.
  - injection Hs as <- <-. rewrite Ascii.eqb_refl. constructor.
  - injection Hs as <- <-. rewrite H. constructor.
  - injection Hs as <- <-. rewrite H. constructor.
  - destruct s1 as [|d s1].
    + simpl in Hs. subst s2.
      rewrite (@nullable_complete _ _ H eq_refl).
      apply Regex.MAltR. now apply IHMatches2.
    + simpl in Hs. injection Hs as -> <-.
      assert (Hcat : Regex.Matches (Regex.Cat (Regex.deriv c r1) r2) (s1 ++ s2))
        by (constructor; auto).
      destruct (Regex.nullable r1); [apply Regex.MAltL|]; exact Hcat.
  - apply Regex.MAltL. auto.
  - apply Regex.MAltR. auto.
  - destruct s1 as [|d s1].
    + simpl in Hs. now apply IHMatches2.
    + simpl in Hs. injection Hs as -> <-. constructor; auto.
Qed.

Lemma deriv_spec (c : ascii) (r : Regex.t) (s : list ascii) :
  Regex.Matches (Regex.deriv c r) s <-> Regex.Matches r (c :: s).
Proof.
  split; [apply deriv_sound|]. intros H. now apply deriv_complete with (t := c :: s).
Qed.

Lemma match_here_spec (r : Regex.t) (s : list ascii) :
  Regex.match_here r s = true
  <-> exists m rest, s = m ++ rest /\ Regex.Matches r m.
Proof.
  revert r. induction s as [|c s IH]; intros r; simpl.
  - rewrite orb_false_r, nullable_spec. split.
    + intros H. exists [], []. auto.
    + intros (m & rest & Hs & Hm). symmetry in Hs.
      apply app_eq_nil in Hs. destruct Hs as [-> _]. exact Hm.
  - rewrite orb_true_iff, nullable_spec, IH. split.
    + intros [H|(m & rest & -> & Hm)].
      * exists [], (c :: s). auto.
      * exists (c :: m), rest. split; [reflexivity|]. now apply deriv_spec.
    + intros (m & rest & Hs & Hm). destruct m as [|d m].
      * left. exact Hm.
      * right. simpl in Hs. injection Hs as <- ->.
        exists m, rest. split; [reflexivity|]. now apply deriv_spec.
Qed.

Lemma search_spec (r : Regex.t) (s : list ascii) :
  Regex.search r s = true
  <-> exists before m after, s = before ++ m ++ after /\ Regex.Matches r m.
Proof.
  induction s as [|c s IH]; cbn [Regex.search].
  - rewrite orb_false_r, match_here_spec. split.
    + intros (m & rest & Hs & Hm). exists [], m, rest. auto.
    + intros (before & m & after & Hs & Hm). symmetry in Hs.
      apply app_eq_nil in Hs. destruct Hs as [-> Hs].
      apply app_eq_nil in Hs. destruct Hs as [-> ->].
      exists [], []. auto.
  - rewrite orb_true_iff, match_here_spec, IH. split.
    + intros [(m & rest & Hs & Hm)|(before & m & after & -> & Hm)].
      * exists [], m, rest. auto.
      * exists (c :: before), m, after. auto.
    + intros (before & m & after & Hs & Hm). destruct before as [|d before].
      * left. exists m, after. auto.
      * right. simpl in Hs. injection Hs as <- ->.
        exists before, m, after. auto.
Qed.

(** [pattern.test(s)] is true exactly when the pattern occurs in [s]. *)
Lemma test_spec (r : Regex.t) (s : string) :
  Regex.test r s = true <-> Regex.occurs r s.
Proof. unfold Regex.test, Regex.occurs. apply search_spec. Qed.

(** ** The heuristic stage *)

Lemma forEach_line_spec (lines : list string) (start : nat)
    (warning : LintWarning.t) :
  In warning (Linter.forEach_line start lines)
  <-> exists index line,
        nth_error lines index = Some line
        /\ In warning (Linter.check_line (start + index) line).
Proof.
  revert start. induction lines as [|line rest IH]; intros start; simpl.
  - split; [intros []|]. intros (index & l & H & _).
    destruct index; discriminate.
  - rewrite in_app_iff, IH. split.
    + intros [H|(index & l & Hnth & Hin)].
      * exists 0%nat, line. rewrite Nat.add_0_r. auto.
      * exists (S index), l. rewrite Nat.add_succ_r. auto.
    + intros (index & l & Hnth & Hin). destruct index as [|index].
      * left. simpl in Hnth. injection Hnth as ->.
        rewrite Nat.add_0_r in Hin. exact Hin.
      * right. exists index, l. rewrite Nat.add_succ_r in Hin. auto.
Qed.

Lemma check_line_spec (index : nat) (line : string)
    (warning : LintWarning.t) :
  In warning (Linter.check_line index line)
  <-> exists pattern message,
        In (pattern, message) Linter.dangerousPatterns
        /\ Regex.occurs pattern line
        /\ warning
           = LintWarning.mk (Z.of_nat index + 1) 1 message
               (Some "security-warning"%string).
Proof.
  unfold Linter.check_line. rewrite in_flat_map. split.
  - intros ([pattern message] & Hentry & Hin). simpl in Hin.
    destruct (Regex.test pattern line) eqn:Htest; [|destruct Hin].
    destruct Hin as [<-|[]]. exists pattern, message.
    split; [exact Hentry|]. split; [|reflexivity]. now apply test_spec.
  - intros (pattern & message & Hentry & Hoccurs & ->).
    exists (pattern, message). split; [exact Hentry|]. simpl.
    apply test_spec in Hoccurs. rewrite Hoccurs. left. reflexivity.
Qed.

(** The first line of a text that starts with [import os as ] starts with
    it too. *)
Lemma import_os_as_first_line (alias : string) :
  exists first rest,
    JS.split_lines ("import os as " +:+ alias)
    = ("import os as " +:+ first) :: rest.
Proof.
  simpl JS.split_lines. cbv [String.append].
  destruct (JS.split_lines alias) as [|first rest].
  - exists ""%string, []. reflexivity.
  - exists first, rest. reflexivity.
Qed.

(** C5, as the code has it: the heuristic stage matches text only. A snippet
    gets exactly the warnings of its lines, and a line gets a warning for an
    entry of the pattern table exactly when the entry's pattern occurs in the
    text of the line. So an aliased import is warned about or not according
    to its text alone: [import os as <alias>] contains [import os] and gets
    the os-module warning whatever the alias, while
    [from os import getcwd as get_current_directory] and
    [from subprocess import run as execute_command] contain no pattern of
    the table and get no warning. *)
Theorem heuristic_stage_is_textual :
  (forall code warning,
     In warning (Linter.performBasicSecurityCheck code)
     <-> exists index line,
           nth_error (JS.split_lines code) index = Some line
           /\ In warning (Linter.check_line index line))
  /\ (forall index line warning,
        In warning (Linter.check_line index line)
        <-> exists pattern message,
              In (pattern, message) Linter.dangerousPatterns
              /\ Regex.occurs pattern line
              /\ warning
                 = LintWarning.mk (Z.of_nat index + 1) 1 message
                     (Some "security-warning"%string))
  /\ (forall alias,
        In (LintWarning.mk 1 1 "Potentially dangerous: os module import"
              (Some "security-warning"%string))
           (Linter.performBasicSecurityCheck ("import os as " +:+ alias)))
  /\ Linter.performBasicSecurityCheck
       "from os import getcwd as get_current_directory" = []
  /\ Linter.performBasicSecurityCheck
       "from subprocess import run as execute_command" = [].
Proof.
  split; [|split; [|split; [|split]]].
  - intros code warning. unfold Linter.performBasicSecurityCheck.
    apply forEach_line_spec.
  - apply check_line_spec.
  - intros alias. unfold Linter.performBasicSecurityCheck.
    destruct (import_os_as_first_line alias) as (first & rest & ->).
    cbn [Linter.forEach_line]. apply in_or_app. left.
    unfold Linter.check_line. cbn [Linter.dangerousPatterns flat_map fst snd].
    replace (Regex.test _ ("import os as " +:+ first)) with true
      by (vm_compute; reflexivity).
    left. reflexivity.
  - vm_compute. reflexivity.
  - vm_compute. reflexivity.
Qed.

(** C5 as stated fails: the line [import os as operating_system] gets the
    os-module warning. *)
Lemma aliased_import_os_is_warned :
  Linter.performBasicSecurityCheck "import os as operating_system"
  = [ LintWarning.mk 1 1 "Potentially dangerous: os module import"
        (Some "security-warning"%string) ].
Proof. vm_compute. reflexivity. Qed.

(** ** The lint gate of [executeCode] *)

(** The only child the linter starts is the compile check. *)
Lemma lintCode_spawns_py_compile (self : Linter.PythonLinter)
    (w : Linter.world) (code : string) (strict : JS.slot bool)
    (command : option string) (args : list string)
    (options : option (option string * gmap string string)) :
  In (Host.spawn command args options)
     (snd (Linter.lintCode self w code strict)) ->
  args = ["-m"; "py_compile"; Linter.tempFilePath w]%string.
Proof.
  unfold Linter.lintCode, Linter.cleanupTempFile.
  destruct (Linter.writeFile_fails w); simpl.
  - intros [H|[]]; discriminate.
  - destruct (Linter.checkSyntax w); simpl;
      try (intros [H|[H|[]]]; [discriminate | congruence]).
    destruct (Linter.random_gt_08 w), (Linter.unlink_fails w); simpl;
      intuition (try discriminate; congruence).
Qed.

(** C3: when the policy enables linting and the call does not set
    [sanitize] to false, [executeCode] lints first. If the lint result has
    errors, [executeCode] resolves to a result with [success] false, empty
    [stdout], the error messages joined by line feeds as [stderr] and exit
    code 1, and it has done nothing beyond what the linter did: the snippet
    is not written out for execution and no child is started to run it (the
    only child is the linter's compile check). If the lint result has no
    error, whatever its warnings, [executeCode] goes on to write and run the
    snippet. *)
Theorem executeCode_lint_gate (h : Interpreter.host)
    (hp : gmap loc Heap.object) (this : Interpreter.PythonInterpreter)
    (w : Interpreter.world) (code : string) (options : ExecutionOptions.t)
    (lintResult : PythonLintResult.t) (fx : list Host.effect) :
  Interpreter.lints_first hp this options = true ->
  Linter.lintCode (Interpreter.linter this) (Interpreter.lint w) code
    (JS.Present
       (negb (JS.truthy
                (JS.get (InterpreterConfig.allowUnsafeOperations
                           (Interpreter.this_config hp this))))))
  = (Host.resolved lintResult, fx) ->
  Interpreter.executeCode h hp this w code options
  = match PythonLintResult.errors lintResult with
    | [] =>
        (fst (Interpreter.execute_spawning h hp this w code options),
         fx ++ snd (Interpreter.execute_spawning h hp this w code options))
    | _ :: _ =>
        (Host.resolved
           (PythonExecutionResult.mk false ""
              (JS.join_lines
                 (map LintError.message (PythonLintResult.errors lintResult)))
              1 (Interpreter.now_lint_failed w - Interpreter.now_start w)),
         fx)
    end
  /\ forall command args spawn_options,
       In (Host.spawn command args spawn_options) fx ->
       args = ["-m"; "py_compile";
               Linter.tempFilePath (Interpreter.lint w)]%string.
Proof.
  intros Hgate Hlint. split.
  - unfold Interpreter.executeCode. rewrite Hgate, Hlint.
    pose proof (lintCode_valid_iff _ _ _ _ _ _ Hlint) as Hvalid.
    destruct (PythonLintResult.errors lintResult) as [|e es] eqn:Herrors.
    + rewrite (proj2 Hvalid eq_refl). simpl.
      destruct (Interpreter.execute_spawning h hp this w code options).
      reflexivity.
    + destruct (PythonLintResult.isValid lintResult) eqn:Hv.
      * destruct Hvalid as [Hnil _]. specialize (Hnil eq_refl). discriminate.
      * simpl. unfold Interpreter.lint_failure. rewrite Herrors. reflexivity.
  - intros command args spawn_options Hin.
    eapply lintCode_spawns_py_compile with (command := command)
      (options := spawn_options).
    rewrite Hlint. exact Hin.
Qed.

(** A default interpreter, a snippet the compiler rejects: the call fails
    with the compiler's message and only the compile check has run. *)
Lemma executeCode_lint_gate_witness :
  let made := Interpreter.new Sample.host Sample.heap InterpreterConfig.empty in
  let w :=
    Interpreter.mkWorld 0 Sample.failing_lint 4 "/tmp/python_exec_5_b.py"
      None 6 Sample.slow_child 10 true true in
  Interpreter.executeCode Sample.host (snd made) (fst made) w "print(("
    ExecutionOptions.empty
  = (Host.resolved
       (PythonExecutionResult.mk false ""
          "File x.py, line 2 SyntaxError: invalid syntax" 1 4),
     [Host.writeFile "/tmp/python_lint_1_a.py" "print((";
      Host.spawn (Some "python3"%string)
        ["-m"; "py_compile"; "/tmp/python_lint_1_a.py"]%string None]).
Proof.
  intros made w.
  refine (eq_trans
    (proj1 (@executeCode_lint_gate Sample.host (snd made) (fst made) w
              "print((" ExecutionOptions.empty
              (PythonLintResult.mk false
                 [LintError.mk 2 1
                    "File x.py, line 2 SyntaxError: invalid syntax"
                    LintError.error (Some "syntax-error"%string)] [])
              [Host.writeFile "/tmp/python_lint_1_a.py" "print((";
               Host.spawn (Some "python3"%string)
                 ["-m"; "py_compile"; "/tmp/python_lint_1_a.py"]%string None]
              _ _)) _).
  - vm_compute. reflexivity.
  - vm_compute. reflexivity.
  - vm_compute. reflexivity.
Defined.

(** ** Closing a child *)

(** What the two ['close'] listeners resolve a pending promise to. *)
Lemma on_close_resolves (w : Interpreter.world) (filePath : string)
    (startTime now : Z) (code : option Z) (x : Interpreter.execution) :
  Interpreter.promise x = Host.pending ->
  let result :=
    PythonExecutionResult.mk (JS.strict_eq_zero code) (Interpreter.stdout x)
      (Interpreter.stderr x) (JS.or_zero code) (now - startTime) in
  Interpreter.promise
    (Interpreter.direct_on_close filePath startTime now code x)
  = Host.resolved result
  /\ Interpreter.promise
       (Interpreter.streaming_on_close w filePath startTime now code x)
     = Host.resolved result.
Proof.
  intros Hp. simpl.
  unfold Interpreter.direct_on_close, Interpreter.streaming_on_close.
  simpl. rewrite Hp. split; reflexivity.
Qed.

(** C4, as the code has it: when a child closes, in both modes, the pending
    promise resolves to a result whose [success] is true exactly when the
    exit code is the number 0 -- a missing exit code is no success -- and
    whose reported [exitCode] is the exit code with a missing one replaced by
    0. So a successful result always reports exit code 0, while a result that
    reports exit code 0 without success is what a child that closed without
    an exit code gets, and only such a child. *)
Theorem close_success_and_exit_code (w : Interpreter.world)
    (filePath : string) (startTime now : Z) (code : option Z)
    (x : Interpreter.execution) :
  Interpreter.promise x = Host.pending ->
  exists result,
    Interpreter.promise
      (Interpreter.direct_on_close filePath startTime now code x)
    = Host.resolved result
    /\ Interpreter.promise
         (Interpreter.streaming_on_close w filePath startTime now code x)
       = Host.resolved result
    /\ PythonExecutionResult.success result
       = match code with
         | Some n => n =? 0
         | None => false
         end
    /\ PythonExecutionResult.exitCode result
       = match code with
         | Some n => n
         | None => 0
         end
    /\ (PythonExecutionResult.success result = true ->
        PythonExecutionResult.exitCode result = 0)
    /\ (PythonExecutionResult.exitCode result = 0
        /\ PythonExecutionResult.success result = false
        <-> code = None).
Proof.
  intros Hp.
  destruct (on_close_resolves w filePath startTime now code x Hp) as [Hd Hs].
  eexists. split; [exact Hd|]. split; [exact Hs|]. simpl.
  split; [reflexivity|]. split; [reflexivity|]. split; [|split].
  - destruct code as [n|]; simpl; [|discriminate].
    intros H. apply Z.eqb_eq in H. exact H.
  - destruct code as [n|]; simpl; [|reflexivity].
    intros [H0 Hf]. subst n. discriminate.
  - intros ->. split; reflexivity.
Qed.

(** A child that closes without an exit code while its promise is pending. *)
Lemma close_success_and_exit_code_witness :
  exists result,
    Interpreter.promise
      (Interpreter.direct_on_close "/tmp/python_exec_5_b.py" 0 1010 None
         (Interpreter.mkExecution "" "" 0 true true Host.pending []))
    = Host.resolved result
    /\ PythonExecutionResult.success result = false
    /\ PythonExecutionResult.exitCode result = 0.
Proof.
  destruct (@close_success_and_exit_code (Sample.world Sample.slow_child)
              "/tmp/python_exec_5_b.py" 0 1010 None
              (Interpreter.mkExecution "" "" 0 true true Host.pending [])
              eq_refl)
    as (result & Hd & _ & Hsuccess & Hexit & _).
  exists result. split; [exact Hd|]. split; assumption.
Defined.

(** C4 as stated fails: a default interpreter runs a snippet that sleeps
    past a one-second timeout; the child is killed, closes without an exit
    code, and the result reports exit code 0 although [success] is false. *)
Lemma killed_child_reports_exit_code_zero :
  let made := Interpreter.new Sample.host Sample.heap InterpreterConfig.empty in
  exists result,
    fst (Interpreter.executeCode Sample.host (snd made) (fst made)
           (Sample.world Sample.slow_child) "import time; time.sleep(20)"
           (Sample.options_with (JS.Present 1000) JS.Absent JS.Absent))
    = Host.resolved result
    /\ PythonExecutionResult.exitCode result = 0
    /\ PythonExecutionResult.success result = false.
Proof.
  intros made. eexists. split; [vm_compute; reflexivity|].
  split; reflexivity.
Qed.

(** ** Promises settle once *)

(** When no listener touches a settled promise, a run leaves it as it is. *)
Lemma event_loop_settled (l : Interpreter.listeners) (fireAt : Z)
    (events : ChildProcess.script) (x : Interpreter.execution) :
  (forall now ev y,
     Interpreter.promise y <> Host.pending ->
     Interpreter.promise (Interpreter.dispatch l now ev y)
     = Interpreter.promise y) ->
  (forall y,
     Interpreter.promise y <> Host.pending ->
     Interpreter.promise (Interpreter.expire l fireAt y)
     = Interpreter.promise y) ->
  Interpreter.promise x <> Host.pending ->
  Interpreter.promise (Interpreter.event_loop l fireAt events x)
  = Interpreter.promise x.
Proof.
  intros Hdispatch Hexpire. revert x.
  induction events as [|[now ev] rest IH]; intros x Hx.
  - cbn [Interpreter.event_loop].
    destruct (Interpreter.timer_armed x); [|reflexivity].
    now apply Hexpire.
  - cbn [Interpreter.event_loop].
    destruct (Interpreter.timer_armed x && (fireAt <=? now)).
    + now apply Hexpire.
    + rewrite IH.
      * now apply Hdispatch.
      * rewrite Hdispatch; assumption.
Qed.

Lemma streaming_loop_settled (hp : gmap loc Heap.object)
    (this : Interpreter.PythonInterpreter) (w : Interpreter.world)
    (filePath : string) (startTime fireAt : Z)
    (events : ChildProcess.script) (x : Interpreter.execution) :
  Interpreter.promise x <> Host.pending ->
  Interpreter.promise
    (Interpreter.event_loop
       (Interpreter.streaming_listeners hp this w filePath startTime)
       fireAt events x)
  = Interpreter.promise x.
Proof.
  apply event_loop_settled.
  - intros now ev y Hy. destruct ev as [chunk|chunk|code|message]; simpl.
    + unfold Interpreter.streaming_on_stdout.
      destruct (_ || _); reflexivity.
    + reflexivity.
    + unfold Interpreter.streaming_on_close. simpl.
      destruct (Interpreter.promise y); [congruence | reflexivity | reflexivity].
    + unfold Interpreter.streaming_on_error.
      destruct (Interpreter.has_error_listener w); simpl; [|reflexivity].
      destruct (Interpreter.promise y); [congruence | reflexivity | reflexivity].
  - intros y Hy. unfold Interpreter.expire. simpl.
    unfold Interpreter.streaming_on_close. simpl.
    destruct (Interpreter.promise y); [congruence | reflexivity | reflexivity].
Qed.

Lemma direct_loop_settled (filePath : string) (startTime fireAt : Z)
    (events : ChildProcess.script) (x : Interpreter.execution) :
  Interpreter.promise x <> Host.pending ->
  Interpreter.promise
    (Interpreter.event_loop (Interpreter.direct_listeners filePath startTime)
       fireAt events x)
  = Interpreter.promise x.
Proof.
  apply event_loop_settled.
  - intros now ev y Hy. destruct ev as [chunk|chunk|code|message]; simpl;
      try reflexivity;
      destruct (Interpreter.promise y); congruence || reflexivity.
  - intros y Hy. unfold Interpreter.expire. simpl.
    destruct (Interpreter.promise y); [congruence | reflexivity | reflexivity].
Qed.

(** ** A child that cannot be started *)

(** The collecting mode turns the ['error'] of a failed spawn into a failed
    result whose [stderr] ends with the error's message. *)
Lemma direct_spawn_failure_resolves (h : Interpreter.host)
    (hp : gmap loc Heap.object) (this : Interpreter.PythonInterpreter)
    (w : Interpreter.world) (code : string) (options : ExecutionOptions.t)
    (now : Z) (message : string) (rest : ChildProcess.script) :
  Interpreter.lints_first hp this options = false ->
  Interpreter.writeFile_fails w = None ->
  JS.truthy (JS.get (ExecutionOptions.stream options)) = false ->
  Interpreter.python w
  = ChildProcess.child ((now, ChildProcess.error message) :: rest) ->
  now < Interpreter.now_spawn w
        + Interpreter.timer_delay
            (Interpreter.setTimeout_argument
               (Interpreter.this_config hp this) options) ->
  fst (Interpreter.executeCode h hp this w code options)
  = Host.resolved
      (PythonExecutionResult.mk false "" message 1
         (now - Interpreter.now_start w)).
Proof.
  intros Hgate Hwrite Hstream Hchild Hearly.
  unfold Interpreter.executeCode. rewrite Hgate.
  unfold Interpreter.execute_spawning. rewrite Hwrite, Hstream. simpl.
  unfold Interpreter.executeDirectly. rewrite Hchild.
  cbn [Interpreter.event_loop Interpreter.timer_armed andb].
  replace (_ <=? now) with false by (symmetry; apply Z.leb_gt; exact Hearly).
  rewrite direct_loop_settled; [reflexivity|]. simpl. discriminate.
Qed.

(** C1 does not hold in streaming mode. When linting does not run first, the
    snippet file is written, the call asks for streaming, someone listens to
    ['error'] and the child's first event -- before the timer fires -- is the
    ['error'] of a failed spawn, the promise of [executeCode] is rejected
    with the error's message: the failure surfaces to the caller instead of
    resolving to a failed result. *)
Theorem streaming_spawn_failure_rejects (h : Interpreter.host)
    (hp : gmap loc Heap.object) (this : Interpreter.PythonInterpreter)
    (w : Interpreter.world) (code : string) (options : ExecutionOptions.t)
    (now : Z) (message : string) (rest : ChildProcess.script) :
  Interpreter.lints_first hp this options = false ->
  Interpreter.writeFile_fails w = None ->
  JS.truthy (JS.get (ExecutionOptions.stream options)) = true ->
  Interpreter.python w
  = ChildProcess.child ((now, ChildProcess.error message) :: rest) ->
  now < Interpreter.now_spawn w
        + Interpreter.timer_delay
            (Interpreter.setTimeout_argument
               (Interpreter.this_config hp this) options) ->
  Interpreter.has_error_listener w = true ->
  fst (Interpreter.executeCode h hp this w code options)
  = Host.rejected message.
Proof.
  intros Hgate Hwrite Hstream Hchild Hearly Hlistener.
  unfold Interpreter.executeCode. rewrite Hgate.
  unfold Interpreter.execute_spawning. rewrite Hwrite, Hstream. simpl.
  unfold Interpreter.executeWithStreaming. rewrite Hchild.
  cbn [Interpreter.event_loop Interpreter.timer_armed andb].
  replace (_ <=? now) with false by (symmetry; apply Z.leb_gt; exact Hearly).
  rewrite streaming_loop_settled.
  - simpl. unfold Interpreter.streaming_on_error. rewrite Hlistener.
    reflexivity.
  - simpl. unfold Interpreter.streaming_on_error. rewrite Hlistener.
    simpl. discriminate.
Qed.

(** An interpreter that does not lint, a binary that does not exist, a
    streaming call. *)
Lemma streaming_spawn_failure_rejects_witness :
  let made :=
    Interpreter.new Sample.host Sample.heap
      (Sample.config_with (JS.Present "invalid_python_path"%string) JS.Absent
         (JS.Present false) JS.Absent) in
  fst (Interpreter.executeCode Sample.host (snd made) (fst made)
         (Sample.world Sample.missing_binary) "print(1)"
         (Sample.options_with JS.Absent (JS.Present true) JS.Absent))
  = Host.rejected "spawn invalid_python_path ENOENT".
Proof.
  intros made.
  apply (streaming_spawn_failure_rejects Sample.host (snd made) (fst made)
           (Sample.world Sample.missing_binary) "print(1)"
           (Sample.options_with JS.Absent (JS.Present true) JS.Absent)
           11 "spawn invalid_python_path ENOENT" []);
    vm_compute; reflexivity.
Defined.

(** Without a listener for ['error'] the promise is not even rejected: the
    listener throws before it gets there, and the promise stays pending. *)
Lemma streaming_spawn_failure_unheard :
  let made :=
    Interpreter.new Sample.host Sample.heap
      (Sample.config_with (JS.Present "invalid_python_path"%string) JS.Absent
         (JS.Present false) JS.Absent) in
  let deaf :=
    Interpreter.mkWorld 0 Sample.clean_lint 4 "/tmp/python_exec_5_b.py" None
      6 Sample.missing_binary 10 true false in
  let run :=
    Interpreter.executeCode Sample.host (snd made) (fst made) deaf "print(1)"
      (Sample.options_with JS.Absent (JS.Present true) JS.Absent) in
  fst run = Host.pending
  /\ In (Host.uncaught "spawn invalid_python_path ENOENT") (snd run).
Proof.
  intros made deaf run. split; [vm_compute; reflexivity|].
  vm_compute. auto 10.
Qed.

(** The same interpreter and child without streaming: a failed result. *)
Lemma direct_spawn_failure_example :
  let made :=
    Interpreter.new Sample.host Sample.heap
      (Sample.config_with (JS.Present "invalid_python_path"%string) JS.Absent
         (JS.Present false) JS.Absent) in
  fst (Interpreter.executeCode Sample.host (snd made) (fst made)
         (Sample.world Sample.missing_binary) "print(1)"
         ExecutionOptions.empty)
  = Host.resolved
      (PythonExecutionResult.mk false ""
         "spawn invalid_python_path ENOENT" 1 11).
Proof. intros made. vm_compute. reflexivity. Qed.

(** ** The timer *)

(** A per-call timeout of 0 is not used: the policy's timeout is. *)
Lemma per_call_zero_falls_back (cfg : InterpreterConfig.t)
    (options : ExecutionOptions.t) :
  JS.get (ExecutionOptions.timeout options) = Some 0 ->
  Interpreter.setTimeout_argument cfg options
  = JS.get (InterpreterConfig.timeout cfg).
Proof.
  intros H. unfold Interpreter.setTimeout_argument. rewrite H. reflexivity.
Qed.

(** With a timer that fires no later than the first event, the run is the
    expiry of the timer. *)
Lemma event_loop_expires_first (l : Interpreter.listeners) (fireAt : Z)
    (events : ChildProcess.script) (x : Interpreter.execution) :
  Interpreter.timer_armed x = true ->
  (forall now ev, In (now, ev) events -> fireAt <= now) ->
  Interpreter.event_loop l fireAt events x = Interpreter.expire l fireAt x.
Proof.
  intros Harmed Hlate. destruct events as [|[now ev] rest]; simpl.
  - rewrite Harmed. reflexivity.
  - rewrite Harmed. simpl.
    replace (fireAt <=? now) with true; [reflexivity|].
    symmetry. apply Z.leb_le. apply (Hlate now ev). left. reflexivity.
Qed.

(** C2 does not hold on the code: the timer is set on every run, also with
    delay 0. When the policy's timeout is 0 and the call gives no timeout (or
    gives 0), [setTimeout] is called with 0; the timer fires one millisecond
    after the spawn, before anything the child reports later, and the child
    is killed: both modes resolve to a failed result and their logs hold the
    call of [kill]. *)
Theorem zero_timeout_kills (h : Interpreter.host)
    (hp : gmap loc Heap.object) (this : Interpreter.PythonInterpreter)
    (w : Interpreter.world) (filePath : string)
    (options : ExecutionOptions.t) (startTime : Z)
    (events : ChildProcess.script) :
  Interpreter.python w = ChildProcess.child events ->
  JS.get (InterpreterConfig.timeout (Interpreter.this_config hp this))
  = Some 0 ->
  match JS.get (ExecutionOptions.timeout options) with
  | Some t => t = 0
  | None => True
  end ->
  (forall now ev, In (now, ev) events -> Interpreter.now_spawn w + 1 <= now) ->
  let killed :=
    PythonExecutionResult.mk false "" "" 0
      (Interpreter.now_spawn w + 1 - startTime) in
  let direct := Interpreter.executeDirectly h hp this w filePath options startTime in
  let streaming :=
    Interpreter.executeWithStreaming hp this w filePath options startTime in
  Interpreter.promise direct = Host.resolved killed
  /\ In (Host.setTimeout (Some 0)) (Interpreter.log direct)
  /\ In Host.kill (Interpreter.log direct)
  /\ Interpreter.promise streaming = Host.resolved killed
  /\ In (Host.setTimeout (Some 0)) (Interpreter.log streaming)
  /\ In Host.kill (Interpreter.log streaming).
Proof.
  intros Hchild Hpolicy Hcall Hlate killed direct streaming.
  assert (Harg : Interpreter.setTimeout_argument
                   (Interpreter.this_config hp this) options = Some 0).
  { unfold Interpreter.setTimeout_argument. rewrite Hpolicy.
    destruct (JS.get (ExecutionOptions.timeout options)) as [t|];
      [subst t|]; reflexivity. }
  subst direct streaming killed.
  unfold Interpreter.executeDirectly, Interpreter.executeWithStreaming.
  rewrite Hchild, Harg.
  rewrite !event_loop_expires_first by (try reflexivity; exact Hlate).
  simpl. repeat split; auto 10.
Qed.

(** The interpreter of [createUnsafeInterpreter] (timeout 0) and a child that
    would have printed after two seconds and exited with code 0. *)
Lemma zero_timeout_kills_witness :
  let made :=
    Utils.createUnsafeInterpreter Sample.host Sample.heap
      InterpreterConfig.empty in
  let run :=
    Interpreter.executeDirectly Sample.host (snd (fst made)) (fst (fst made))
      (Sample.world Sample.slow_child) "/tmp/python_exec_5_b.py"
      ExecutionOptions.empty 0 in
  Interpreter.promise run
  = Host.resolved (PythonExecutionResult.mk false "" "" 0 11)
  /\ In Host.kill (Interpreter.log run).
Proof.
  intros made run.
  assert (H := zero_timeout_kills Sample.host (snd (fst made)) (fst (fst made))
                 (Sample.world Sample.slow_child) "/tmp/python_exec_5_b.py"
                 ExecutionOptions.empty 0
                 [(2010, ChildProcess.stdout_data "done");
                  (2011, ChildProcess.close (Some 0))]
                 eq_refl eq_refl I).
  cbv zeta in H. destruct H as (Hpromise & _ & Hkill & _).
  - intros now ev [[= <- <-]|[[= <- <-]|[]]]; vm_compute; discriminate.
  - split; [exact Hpromise | exact Hkill].
Defined.

(** ** The output limit of the streaming mode *)

Lemma line_boundaries_nonneg (s : string) : 0 <= Observe.line_boundaries s.
Proof.
  induction s as [|c rest IH]; simpl; [lia|].
  destruct (Ascii.eqb c JS.LF); lia.
Qed.

(** [split('\n')] yields one piece more than there are line feeds. *)
Lemma split_lines_length (s : string) :
  Z.of_nat (length (JS.split_lines s)) - 1 = Observe.line_boundaries s.
Proof.
  induction s as [|c rest IH]; simpl; [reflexivity|].
  destruct (Ascii.eqb c JS.LF).
  - simpl length. lia.
  - pose proof (line_boundaries_nonneg rest).
    destruct (JS.split_lines rest) as [|piece pieces]; simpl in *; lia.
Qed.

Lemma line_boundaries_append (s t : string) :
  Observe.line_boundaries (s +:+ t)
  = Observe.line_boundaries s + Observe.line_boundaries t.
Proof.
  induction s as [|c rest IH]; simpl; [reflexivity|]. rewrite IH. lia.
Qed.

Lemma stdout_chunks_app (l1 l2 : list Host.effect) :
  Observe.stdout_chunks (l1 ++ l2)
  = Observe.stdout_chunks l1 ++ Observe.stdout_chunks l2.
Proof. apply flat_map_app. Qed.

Lemma stderr_chunks_app (l1 l2 : list Host.effect) :
  Observe.stderr_chunks (l1 ++ l2)
  = Observe.stderr_chunks l1 ++ Observe.stderr_chunks l2.
Proof. apply flat_map_app. Qed.

Lemma kills_app (l1 l2 : list Host.effect) :
  Observe.kills (l1 ++ l2) = (Observe.kills l1 + Observe.kills l2)%nat.
Proof. unfold Observe.kills. rewrite List.filter_app. apply length_app. Qed.

Section OutputLimit.

Variable hp : gmap loc Heap.object.
Variable this : Interpreter.PythonInterpreter.
Variable w : Interpreter.world.
Variable filePath : string.
Variable startTime : Z.

Let policy := Interpreter.this_config hp this.
Let waived := JS.truthy (JS.get (InterpreterConfig.allowUnsafeOperations policy)).
Let limit := JS.get (InterpreterConfig.maxOutputLines policy).
Let L := Interpreter.streaming_listeners hp this w filePath startTime.

(** One chunk of stdout: the counter grows by the line feeds of the chunk,
    the chunk is emitted when the limit is waived or the new count is below
    it, and nothing else happens. *)
Lemma stdout_chunk_step (now : Z) (chunk : string)
    (x : Interpreter.execution) :
  let x' := Interpreter.dispatch L now (ChildProcess.stdout_data chunk) x in
  Interpreter.outputLineCount x'
  = Interpreter.outputLineCount x + Observe.line_boundaries chunk
  /\ Interpreter.log x'
     = Interpreter.log x
       ++ (if waived || Interpreter.less_than (Interpreter.outputLineCount x') limit
           then [Host.emit (Host.data
                   (StreamOutput.mk StreamOutput.stdout chunk now))]
           else [])
  /\ Interpreter.stdout x' = (Interpreter.stdout x +:+ chunk)%string
  /\ Interpreter.timer_armed x' = Interpreter.timer_armed x
  /\ Interpreter.promise x' = Interpreter.promise x.
Proof.
  subst L waived limit policy. cbn [Interpreter.dispatch Interpreter.on_stdout
    Interpreter.streaming_listeners].
  unfold Interpreter.streaming_on_stdout.
  rewrite split_lines_length.
  set (count := Interpreter.outputLineCount x + Observe.line_boundaries chunk).
  assert (Hcount : forall b : bool,
            Interpreter.outputLineCount
              (if b
               then Interpreter.calling
                      [Host.emit (Host.data
                         (StreamOutput.mk StreamOutput.stdout chunk now))]
                      (Interpreter.capture
                         (Interpreter.stdout x +:+ chunk)%string
                         (Interpreter.stderr x) count x)
               else Interpreter.capture
                      (Interpreter.stdout x +:+ chunk)%string
                      (Interpreter.stderr x) count x) = count)
    by (intros []; reflexivity).
  rewrite Hcount.
  destruct (_ || _); simpl; rewrite ?app_nil_r; auto 10.
Qed.

(** One chunk of stderr is always emitted. *)
Lemma stderr_chunk_step (now : Z) (chunk : string)
    (x : Interpreter.execution) :
  let x' := Interpreter.dispatch L now (ChildProcess.stderr_data chunk) x in
  Interpreter.outputLineCount x' = Interpreter.outputLineCount x
  /\ Interpreter.log x'
     = Interpreter.log x
       ++ [Host.emit (Host.data
             (StreamOutput.mk StreamOutput.stderr chunk now))]
  /\ Interpreter.timer_armed x' = Interpreter.timer_armed x
  /\ Interpreter.promise x' = Interpreter.promise x.
Proof. subst L. simpl. auto. Qed.

(** The count never decreases, and only the stdout listener emits stdout
    events. *)
Lemma dispatch_count_and_stdout (now : Z) (ev : ChildProcess.event)
    (x : Interpreter.execution) :
  let x' := Interpreter.dispatch L now ev x in
  Interpreter.outputLineCount x <= Interpreter.outputLineCount x'
  /\ Observe.stdout_chunks (Interpreter.log x')
     = Observe.stdout_chunks (Interpreter.log x)
       ++ match ev with
          | ChildProcess.stdout_data chunk =>
              if waived
                 || Interpreter.less_than (Interpreter.outputLineCount x') limit
              then [chunk] else []
          | _ => []
          end.
Proof.
  destruct ev as [chunk|chunk|code|message].
  - destruct (stdout_chunk_step now chunk x) as (Hc & Hl & _).
    cbv zeta in *. rewrite Hc, Hl, stdout_chunks_app.
    pose proof (line_boundaries_nonneg chunk). split; [lia|].
    rewrite <- Hc. destruct (_ || _); reflexivity.
  - destruct (stderr_chunk_step now chunk x) as (Hc & Hl & _).
    cbv zeta in *. rewrite Hc, Hl, stdout_chunks_app. split; [lia|reflexivity].
  - subst L. simpl. unfold Interpreter.streaming_on_close. simpl.
    split; [lia|].
    rewrite !stdout_chunks_app. simpl.
    destruct (Interpreter.random_gt_03 w); simpl; rewrite ?app_nil_r; reflexivity.
  - subst L. simpl. unfold Interpreter.streaming_on_error.
    destruct (Interpreter.has_error_listener w); simpl;
      (split; [lia|]); rewrite !stdout_chunks_app; simpl;
      rewrite ?app_nil_r; reflexivity.
Qed.

Lemma expire_count_and_stdout (fireAt : Z) (x : Interpreter.execution) :
  Observe.stdout_chunks (Interpreter.log (Interpreter.expire L fireAt x))
  = Observe.stdout_chunks (Interpreter.log x).
Proof.
  subst L. unfold Interpreter.expire. simpl.
  unfold Interpreter.streaming_on_close. simpl.
  rewrite !stdout_chunks_app. simpl.
  destruct (Interpreter.random_gt_03 w); simpl; rewrite ?app_nil_r; reflexivity.
Qed.

(** Once the count has reached the limit and the limit is not waived, the
    rest of the run emits no stdout event. *)
Lemma limit_reached_silences_stdout (fireAt : Z)
    (events : ChildProcess.script) (x : Interpreter.execution) :
  waived = false ->
  Interpreter.less_than (Interpreter.outputLineCount x) limit = false ->
  Observe.stdout_chunks
    (Interpreter.log (Interpreter.event_loop L fireAt events x))
  = Observe.stdout_chunks (Interpreter.log x).
Proof.
  intros Hwaived. revert x.
  induction events as [|[now ev] rest IH]; intros x Hreached.
  - cbn [Interpreter.event_loop].
    destruct (Interpreter.timer_armed x); [|reflexivity].
    apply expire_count_and_stdout.
  - cbn [Interpreter.event_loop].
    destruct (Interpreter.timer_armed x && (fireAt <=? now)).
    + apply expire_count_and_stdout.
    + destruct (dispatch_count_and_stdout now ev x) as [Hmono Hout].
      cbv zeta in *.
      assert (Hstill :
        Interpreter.less_than
          (Interpreter.outputLineCount (Interpreter.dispatch L now ev x))
          limit = false).
      { unfold Interpreter.less_than in *. destruct limit as [m|]; [|reflexivity].
        apply Z.ltb_ge. apply Z.ltb_ge in Hreached. lia. }
      rewrite IH by exact Hstill. rewrite Hout.
      destruct ev; rewrite ?app_nil_r; try reflexivity.
      rewrite Hwaived, Hstill. simpl. apply app_nil_r.
Qed.


(** What each listener adds to the stderr events and to the calls of
    [kill]. *)
Lemma dispatch_stderr_and_kills (now : Z) (ev : ChildProcess.event)
    (x : Interpreter.execution) :
  let x' := Interpreter.dispatch L now ev x in
  Observe.stderr_chunks (Interpreter.log x')
  = Observe.stderr_chunks (Interpreter.log x)
    ++ Observe.written_to_stderr (now, ev)
  /\ Observe.kills (Interpreter.log x') = Observe.kills (Interpreter.log x).
Proof.
  destruct ev as [chunk|chunk|code|message].
  - destruct (stdout_chunk_step now chunk x) as (_ & Hl & _).
    cbv zeta in *. rewrite Hl, stderr_chunks_app, kills_app.
    destruct (_ || _); simpl; rewrite ?app_nil_r; split; (reflexivity || (unfold Observe.kills; simpl; lia)).
  - destruct (stderr_chunk_step now chunk x) as (_ & Hl & _).
    cbv zeta in *. rewrite Hl, stderr_chunks_app, kills_app.
    split; [reflexivity | unfold Observe.kills; simpl; lia].
  - subst L. simpl. unfold Interpreter.streaming_on_close. simpl.
    rewrite !stderr_chunks_app, !kills_app. simpl.
    destruct (Interpreter.random_gt_03 w); simpl; rewrite ?app_nil_r;
      split; (reflexivity || (unfold Observe.kills; simpl; lia)).
  - subst L. simpl. unfold Interpreter.streaming_on_error.
    destruct (Interpreter.has_error_listener w); simpl;
      rewrite !stderr_chunks_app, !kills_app; simpl; rewrite ?app_nil_r;
      split; (reflexivity || (unfold Observe.kills; simpl; lia)).
Qed.

Lemma expire_stderr (fireAt : Z) (x : Interpreter.execution) :
  Observe.stderr_chunks (Interpreter.log (Interpreter.expire L fireAt x))
  = Observe.stderr_chunks (Interpreter.log x).
Proof.
  subst L. unfold Interpreter.expire. simpl.
  unfold Interpreter.streaming_on_close. simpl.
  rewrite !stderr_chunks_app. simpl.
  destruct (Interpreter.random_gt_03 w); simpl; rewrite ?app_nil_r; reflexivity.
Qed.

(** While the timer does not cut the run short, every chunk the child
    writes to stderr is emitted, whatever the count and the limit. *)
Lemma stderr_always_delivered (fireAt : Z) (events : ChildProcess.script)
    (x : Interpreter.execution) :
  Observe.before_timer fireAt events = true ->
  Observe.stderr_chunks
    (Interpreter.log (Interpreter.event_loop L fireAt events x))
  = Observe.stderr_chunks (Interpreter.log x)
    ++ flat_map Observe.written_to_stderr events.
Proof.
  revert x. induction events as [|[now ev] rest IH]; intros x Hbefore.
  - cbn [Interpreter.event_loop flat_map]. rewrite app_nil_r.
    destruct (Interpreter.timer_armed x); [|reflexivity].
    apply expire_stderr.
  - cbn [Observe.before_timer forallb fst] in Hbefore.
    apply andb_true_iff in Hbefore. destruct Hbefore as [Hnow Hrest].
    cbn [Interpreter.event_loop].
    replace (fireAt <=? now) with false
      by (symmetry; apply Z.leb_gt; apply Z.ltb_lt; exact Hnow).
    rewrite andb_false_r. rewrite IH by exact Hrest.
    destruct (dispatch_stderr_and_kills now ev x) as [Herr _].
    cbv zeta in Herr. rewrite Herr. cbn [flat_map].
    rewrite <- app_assoc. reflexivity.
Qed.

(** With the limit waived, and while the timer does not cut the run short,
    every chunk the child writes to stdout is emitted. *)
Lemma waived_limit_delivers_stdout (fireAt : Z)
    (events : ChildProcess.script) (x : Interpreter.execution) :
  waived = true ->
  Observe.before_timer fireAt events = true ->
  Observe.stdout_chunks
    (Interpreter.log (Interpreter.event_loop L fireAt events x))
  = Observe.stdout_chunks (Interpreter.log x)
    ++ flat_map Observe.written_to_stdout events.
Proof.
  intros Hwaived. revert x.
  induction events as [|[now ev] rest IH]; intros x Hbefore.
  - cbn [Interpreter.event_loop flat_map]. rewrite app_nil_r.
    destruct (Interpreter.timer_armed x); [|reflexivity].
    apply expire_count_and_stdout.
  - cbn [Observe.before_timer forallb fst] in Hbefore.
    apply andb_true_iff in Hbefore. destruct Hbefore as [Hnow Hrest].
    cbn [Interpreter.event_loop].
    replace (fireAt <=? now) with false
      by (symmetry; apply Z.leb_gt; apply Z.ltb_lt; exact Hnow).
    rewrite andb_false_r. rewrite IH by exact Hrest.
    destruct (dispatch_count_and_stdout now ev x) as [_ Hout].
    cbv zeta in Hout. rewrite Hout. cbn [flat_map].
    rewrite <- app_assoc. f_equal. f_equal.
    destruct ev; try reflexivity. rewrite Hwaived. reflexivity.
Qed.

(** The counter is the number of line feeds written to stdout so far. *)
Lemma counter_counts_line_boundaries (fireAt : Z)
    (events : ChildProcess.script) (x : Interpreter.execution) :
  Interpreter.outputLineCount x
  = Observe.line_boundaries (Interpreter.stdout x) ->
  let final := Interpreter.event_loop L fireAt events x in
  Interpreter.outputLineCount final
  = Observe.line_boundaries (Interpreter.stdout final).
Proof.
  revert x. induction events as [|[now ev] rest IH]; intros x Hinv.
  - cbn [Interpreter.event_loop].
    destruct (Interpreter.timer_armed x); [|exact Hinv].
    subst L. unfold Interpreter.expire. simpl.
    destruct (Interpreter.random_gt_03 w); exact Hinv.
  - cbn [Interpreter.event_loop].
    destruct (Interpreter.timer_armed x && (fireAt <=? now)).
    + subst L. unfold Interpreter.expire. simpl.
      destruct (Interpreter.random_gt_03 w); exact Hinv.
    + apply IH. destruct ev as [chunk|chunk|code|message].
      * destruct (stdout_chunk_step now chunk x) as (Hc & _ & Hs & _).
        cbv zeta in *. rewrite Hc, Hs, line_boundaries_append. lia.
      * exact Hinv.
      * subst L. simpl. destruct (Interpreter.random_gt_03 w); exact Hinv.
      * subst L. simpl. unfold Interpreter.streaming_on_error.
        destruct (Interpreter.has_error_listener w); exact Hinv.
Qed.

End OutputLimit.

(** C9: in streaming mode the counter grows with every chunk of stdout by
    the number of line feeds in the chunk, so that it counts the line
    boundaries of all stdout so far. Once the counter has reached the
    policy's [maxOutputLines] and [allowUnsafeOperations] is not set, the rest
    of the run emits no stdout event. When [allowUnsafeOperations] is set,
    every chunk of stdout is emitted, and in every case every chunk of stderr
    is emitted (as long as the timer does not end the run). A chunk of
    stdout, suppressed or not, never calls [kill] and leaves the timer and
    the promise alone. *)
Theorem streaming_output_limit (hp : gmap loc Heap.object)
    (this : Interpreter.PythonInterpreter) (w : Interpreter.world)
    (filePath : string) (startTime fireAt : Z)
    (events : ChildProcess.script) (x : Interpreter.execution) :
  let policy := Interpreter.this_config hp this in
  let waived :=
    JS.truthy (JS.get (InterpreterConfig.allowUnsafeOperations policy)) in
  let limit := JS.get (InterpreterConfig.maxOutputLines policy) in
  let L := Interpreter.streaming_listeners hp this w filePath startTime in
  let final := Interpreter.event_loop L fireAt events x in
  (forall now chunk y,
     Interpreter.outputLineCount
       (Interpreter.dispatch L now (ChildProcess.stdout_data chunk) y)
     = Interpreter.outputLineCount y + Observe.line_boundaries chunk)
  /\ (Interpreter.outputLineCount x
      = Observe.line_boundaries (Interpreter.stdout x) ->
      Interpreter.outputLineCount final
      = Observe.line_boundaries (Interpreter.stdout final))
  /\ (forall m,
        waived = false ->
        limit = Some m ->
        m <= Interpreter.outputLineCount x ->
        Observe.stdout_chunks (Interpreter.log final)
        = Observe.stdout_chunks (Interpreter.log x))
  /\ (waived = true ->
      Observe.before_timer fireAt events = true ->
      Observe.stdout_chunks (Interpreter.log final)
      = Observe.stdout_chunks (Interpreter.log x)
        ++ flat_map Observe.written_to_stdout events)
  /\ (Observe.before_timer fireAt events = true ->
      Observe.stderr_chunks (Interpreter.log final)
      = Observe.stderr_chunks (Interpreter.log x)
        ++ flat_map Observe.written_to_stderr events)
  /\ (forall now chunk y,
        let y' :=
          Interpreter.dispatch L now (ChildProcess.stdout_data chunk) y in
        Observe.kills (Interpreter.log y') = Observe.kills (Interpreter.log y)
        /\ Interpreter.timer_armed y' = Interpreter.timer_armed y
        /\ Interpreter.promise y' = Interpreter.promise y).
Proof.
  intros policy waived limit L final.
  split; [|split; [|split; [|split; [|split]]]].
  - intros now chunk y.
    exact (proj1 (stdout_chunk_step hp this w filePath startTime now chunk y)).
  - apply counter_counts_line_boundaries.
  - intros m Hwaived Hlimit Hreached.
    apply limit_reached_silences_stdout; [exact Hwaived|].
    fold policy. fold limit. rewrite Hlimit. simpl. apply Z.ltb_ge. exact Hreached.
  - apply waived_limit_delivers_stdout.
  - apply stderr_always_delivered.
  - intros now chunk y.
    destruct (stdout_chunk_step hp this w filePath startTime now chunk y)
      as (_ & _ & _ & Htimer & Hpromise).
    destruct (dispatch_stderr_and_kills hp this w filePath startTime now
                (ChildProcess.stdout_data chunk) y) as [_ Hkills].
    cbv zeta in *. auto.
Qed.

(** A policy with [maxOutputLines] 2 and a child that has written two lines,
    of which the first was emitted: what it writes to stdout afterwards is
    not emitted, what it writes to stderr is. *)
Lemma streaming_output_limit_witness :
  let made :=
    Interpreter.new Sample.host Sample.heap
      (InterpreterConfig.mk JS.Absent JS.Absent (JS.Present 2) JS.Absent
         JS.Absent JS.Absent JS.Absent) in
  let first :=
    Host.emit (Host.data (StreamOutput.mk StreamOutput.stdout (Sample.line "a") 11)) in
  let x :=
    Interpreter.mkExecution (Sample.line "a" +:+ Sample.line "b") "" 2 true true Host.pending [first] in
  let events :=
    [(13, ChildProcess.stdout_data (Sample.line "c"));
     (14, ChildProcess.stderr_data "oops");
     (15, ChildProcess.close (Some 0))] in
  let final :=
    Interpreter.event_loop
      (Interpreter.streaming_listeners (snd made) (fst made)
         (Sample.world Sample.slow_child) "/tmp/python_exec_5_b.py" 0)
      30010 events x in
  Observe.stdout_chunks (Interpreter.log final) = [(Sample.line "a")%string]
  /\ Observe.stderr_chunks (Interpreter.log final) = ["oops"%string]
  /\ Observe.kills (Interpreter.log final) = 0%nat.
Proof.
  intros made first x events final.
  destruct (streaming_output_limit (snd made) (fst made)
              (Sample.world Sample.slow_child) "/tmp/python_exec_5_b.py" 0
              30010 events x)
    as (_ & _ & Hsilent & _ & Hstderr & _).
  split; [|split].
  - exact (Hsilent 2 eq_refl eq_refl (Z.le_refl 2)).
  - exact (Hstderr eq_refl).
  - vm_compute. reflexivity.
Defined.

(** ** executeUnsafe *)



Lemma unsafeOptions_skip_lint (hp hp' : gmap loc Heap.object)
    (this : Interpreter.PythonInterpreter)
    (context : UnsafeExecutionContext.t) :
  Interpreter.lints_first hp' this (Interpreter.unsafeOptions hp this context)
  = false.
Proof. unfold Interpreter.lints_first. simpl. apply andb_false_r. Qed.





(** ** getConfig *)

Lemma spread_empty (c : InterpreterConfig.t) :
  InterpreterConfig.spread InterpreterConfig.empty c = c.
Proof.
  destruct c as [pp to mol el au wd en]. unfold InterpreterConfig.spread.
  simpl. destruct pp, to, mol, el, au, wd, en; reflexivity.
Qed.

(** Writing a configuration object where no environment map lives leaves
    every environment map as it is. *)
Lemma env_at_insert_config (hp : gmap loc Heap.object) (l : loc)
    (c : InterpreterConfig.t) (e : option loc) :
  (forall m, hp !! l <> Some (Heap.Env m)) ->
  Heap.env_at (<[l := Heap.Config c]> hp) e = Heap.env_at hp e.
Proof.
  intros Hl. destruct e as [a|]; [|reflexivity]. unfold Heap.env_at.
  destruct (decide (l = a)) as [->|Hne].
  - rewrite lookup_insert_eq.
    destruct (hp !! a) as [[c'|m]|] eqn:E; try reflexivity.
    exfalso. exact (Hl m eq_refl).
  - rewrite lookup_insert_ne by exact Hne. reflexivity.
Qed.

(** [executeCode] reads the heap only through the interpreter's
    configuration object and its environment map. *)
Lemma executeCode_reads_view (h : Interpreter.host)
    (hp hp' : gmap loc Heap.object) (this : Interpreter.PythonInterpreter)
    (w : Interpreter.world) (code : string) (options : ExecutionOptions.t) :
  Caller.view hp' (Interpreter.config this)
  = Caller.view hp (Interpreter.config this) ->
  Interpreter.executeCode h hp' this w code options
  = Interpreter.executeCode h hp this w code options.
Proof.
  unfold Caller.view. intros [= Hcfg Henv]. rewrite Hcfg in Henv.
  unfold Interpreter.executeCode, Interpreter.lints_first,
    Interpreter.execute_spawning, Interpreter.executeWithStreaming,
    Interpreter.executeDirectly, Interpreter.streaming_listeners,
    Interpreter.streaming_on_stdout, Interpreter.direct_env,
    Interpreter.merged_env, Interpreter.spawn_cwd, Interpreter.this_config.
  rewrite !Hcfg, !Henv. reflexivity.
Qed.

(** C10, as the code has it: [getConfig] returns a new object with the
    properties of the stored policy; the new object and the stored policy
    hold the same environment map. Assigning properties of the returned
    object ([Object.assign] with any source) leaves the stored policy as it
    was, and changes neither what a later [getConfig] shows nor what a later
    [executeCode] does. (Writes into the shared environment map are not
    covered: they are seen by the interpreter.) *)
Theorem getConfig_copy_detached_at_top_level (h : Interpreter.host)
    (hp : gmap loc Heap.object) (this : Interpreter.PythonInterpreter)
    (source : InterpreterConfig.t) (w : Interpreter.world) (code : string)
    (options : ExecutionOptions.t) :
  is_Some (hp !! Interpreter.config this) ->
  let copy := fst (Interpreter.getConfig hp this) in
  let hp1 := snd (Interpreter.getConfig hp this) in
  let hp2 := Caller.assign hp1 copy source in
  (copy <> Interpreter.config this
   /\ Caller.view hp1 copy = Caller.view hp (Interpreter.config this)
   /\ Heap.config_at hp2 copy
      = InterpreterConfig.spread (Heap.config_at hp (Interpreter.config this))
          source)
  /\ (hp1 !! Interpreter.config this = hp !! Interpreter.config this
      /\ hp2 !! Interpreter.config this = hp !! Interpreter.config this)
  /\ Caller.view (snd (Interpreter.getConfig hp2 this))
       (fst (Interpreter.getConfig hp2 this))
     = Caller.view (snd (Interpreter.getConfig hp1 this))
         (fst (Interpreter.getConfig hp1 this))
  /\ Interpreter.executeCode h hp2 this w code options
     = Interpreter.executeCode h hp1 this w code options.
Proof.
  intros Halloc copy hp1 hp2.
  set (stored := Heap.config_at hp (Interpreter.config this)).
  assert (Hfresh : hp !! copy = None).
  { subst copy. unfold Interpreter.getConfig, Heap.alloc. cbn [fst].
    apply not_elem_of_dom. apply is_fresh. }
  assert (Hne : copy <> Interpreter.config this).
  { intros Heq. rewrite Heq in Hfresh. rewrite Hfresh in Halloc.
    destruct Halloc as [o Ho]. discriminate. }
  assert (Hhp1 : hp1 = <[copy := Heap.Config stored]> hp).
  { subst hp1 copy stored. unfold Interpreter.getConfig, Heap.alloc.
    cbn [fst snd]. rewrite spread_empty. reflexivity. }
  assert (Hhp2 : hp2 = <[copy := Heap.Config
                                   (InterpreterConfig.spread stored source)]> hp).
  { subst hp2. unfold Caller.assign, Interpreter.Object_assign.
    rewrite Hhp1. rewrite config_at_insert. apply insert_insert_eq. }
  assert (Hnoenv : forall m, hp !! copy <> Some (Heap.Env m)).
  { intros m. rewrite Hfresh. discriminate. }
  assert (Hview : forall c,
    Caller.view (<[copy := Heap.Config c]> hp) (Interpreter.config this)
    = Caller.view hp (Interpreter.config this)).
  { intros c. unfold Caller.view.
    rewrite config_at_insert_ne by exact Hne.
    rewrite env_at_insert_config by exact Hnoenv. reflexivity. }
  split; [split; [exact Hne|split]|split; [split|split]].
  - rewrite Hhp1. unfold Caller.view. rewrite config_at_insert.
    rewrite env_at_insert_config by exact Hnoenv. reflexivity.
  - rewrite Hhp2. apply config_at_insert.
  - rewrite Hhp1. apply lookup_insert_ne. exact Hne.
  - rewrite Hhp2. apply lookup_insert_ne. exact Hne.
  - unfold Interpreter.getConfig, Heap.alloc. cbn [fst snd].
    rewrite !spread_empty.
    replace (dom hp2) with (dom hp1)
      by (rewrite Hhp1, Hhp2, !dom_insert_L; reflexivity).
    set (next := fresh (dom hp1)).
    unfold Caller.view. rewrite !config_at_insert.
    assert (H1 : Heap.config_at hp1 (Interpreter.config this) = stored).
    { rewrite Hhp1. apply config_at_insert_ne. exact Hne. }
    assert (H2 : Heap.config_at hp2 (Interpreter.config this) = stored).
    { rewrite Hhp2. apply config_at_insert_ne. exact Hne. }
    rewrite H1, H2. f_equal.
    assert (Hfresh1 : hp1 !! next = None)
      by (apply not_elem_of_dom; apply is_fresh).
    assert (Hfresh2 : hp2 !! next = None).
    { apply not_elem_of_dom.
      replace (dom hp2) with (dom hp1)
        by (rewrite Hhp1, Hhp2, !dom_insert_L; reflexivity).
      apply is_fresh. }
    rewrite !env_at_insert_config
      by (intros m; rewrite ?Hfresh1, ?Hfresh2; discriminate).
    rewrite Hhp1, Hhp2.
    rewrite !env_at_insert_config by exact Hnoenv. reflexivity.
  - apply executeCode_reads_view. rewrite Hhp1, Hhp2, !Hview. reflexivity.
Qed.

(** A default interpreter; the caller sets [allowUnsafeOperations] and
    [timeout] on the object that [getConfig] returned. *)
Lemma getConfig_copy_detached_at_top_level_witness :
  let made := Interpreter.new Sample.host Sample.heap InterpreterConfig.empty in
  let this := fst made in
  let hp := snd made in
  let copy := fst (Interpreter.getConfig hp this) in
  let hp1 := snd (Interpreter.getConfig hp this) in
  let hp2 :=
    Caller.assign hp1 copy
      (Sample.config_with JS.Absent (JS.Present 0) JS.Absent (JS.Present true)) in
  hp2 !! Interpreter.config this = hp !! Interpreter.config this
  /\ Interpreter.executeCode Sample.host hp2 this
       (Sample.world Sample.slow_child) "print(1)" ExecutionOptions.empty
     = Interpreter.executeCode Sample.host hp1 this
         (Sample.world Sample.slow_child) "print(1)" ExecutionOptions.empty.
Proof.
  intros made this hp copy hp1 hp2.
  destruct (getConfig_copy_detached_at_top_level Sample.host hp this
              (Sample.config_with JS.Absent (JS.Present 0) JS.Absent
                 (JS.Present true))
              (Sample.world Sample.slow_child) "print(1)"
              ExecutionOptions.empty)
    as (_ & (_ & Hstored) & _ & Hrun).
  - eexists. vm_compute. reflexivity.
  - split; [exact Hstored | exact Hrun].
Defined.

(** C10 as stated fails for the environment map, which the returned object
    shares with the stored policy: after the caller has written an entry
    through the returned object, a later [getConfig] shows the entry and a
    later [executeCode] passes it to the child. *)
Lemma getConfig_copy_shares_environment :
  let made := Interpreter.new Sample.host Sample.heap InterpreterConfig.empty in
  let this := fst made in
  let hp := snd made in
  let copy := fst (Interpreter.getConfig hp this) in
  let hp1 := snd (Interpreter.getConfig hp this) in
  let hp2 := Caller.assign_env hp1 copy "LD_PRELOAD" "/tmp/evil.so" in
  let later (now : gmap loc Heap.object) :=
    Caller.view (snd (Interpreter.getConfig now this))
      (fst (Interpreter.getConfig now this)) in
  let run (now : gmap loc Heap.object) :=
    Interpreter.executeCode Sample.host now this
      (Sample.world Sample.slow_child) "print(1)" ExecutionOptions.empty in
  (snd (later hp1) !! "LD_PRELOAD"%string = None
   /\ snd (later hp2) !! "LD_PRELOAD"%string = Some "/tmp/evil.so"%string)
  /\ (Interpreter.merged_env hp1 this ExecutionOptions.empty
        !! "LD_PRELOAD"%string = None
      /\ Interpreter.merged_env hp2 this ExecutionOptions.empty
           !! "LD_PRELOAD"%string = Some "/tmp/evil.so"%string)
  /\ run hp2 <> run hp1.
Proof.
  intros made this hp copy hp1 hp2 later run.
  split; [split; vm_compute; reflexivity|].
  split; [split; vm_compute; reflexivity|].
  intros Heq.
  apply (f_equal (fun r : Host.promise PythonExecutionResult.t * list Host.effect =>
            flat_map (fun e : Host.effect =>
                        match e with
                        | Host.spawn _ _ (Some (_, env)) =>
                            [env !! "LD_PRELOAD"%string]
                        | _ => []
                        end) (snd r))) in Heq.
  vm_compute in Heq. discriminate.
Qed.

(* ===================================================================== *)
(** * Further properties of the code *)
(* ===================================================================== *)

(** ** Whole runs of a child *)

Lemma string_app_assoc (a b c : string) :
  ((a +:+ b) +:+ c = a +:+ (b +:+ c))%string.
Proof.
  induction a as [|x a IH]; [reflexivity|].
  change (String x ((a +:+ b) +:+ c) = String x (a +:+ (b +:+ c)))%string.
  now rewrite IH.
Qed.

Lemma string_app_nil_r (a : string) : (a +:+ "")%string = a.
Proof.
  induction a as [|x a IH]; [reflexivity|].
  change (String x (a +:+ "") = String x a)%string. now rewrite IH.
Qed.

(** Events that arrive before the timer fires are dispatched one after the
    other. *)
Lemma event_loop_app_before (l : Interpreter.listeners) (fireAt : Z)
    (early rest : ChildProcess.script) (x : Interpreter.execution) :
  Observe.before_timer fireAt early = true ->
  Interpreter.event_loop l fireAt (early ++ rest) x
  = Interpreter.event_loop l fireAt rest
      (fold_left
         (fun y ev => Interpreter.dispatch l (fst ev) (snd ev) y) early x).
Proof.
  revert x. induction early as [|[now ev] early IH]; intros x Hbefore.
  - reflexivity.
  - cbn [Observe.before_timer forallb fst] in Hbefore.
    apply andb_true_iff in Hbefore. destruct Hbefore as [Hnow Hrest].
    cbn [app Interpreter.event_loop fold_left fst snd].
    replace (fireAt <=? now) with false
      by (symmetry; apply Z.leb_gt; apply Z.ltb_lt; exact Hnow).
    rewrite andb_false_r. apply IH. exact Hrest.
Qed.


(** What the collecting mode has gathered after a run of chunks. *)
Lemma direct_chunks (filePath : string) (startTime : Z)
    (early : ChildProcess.script) (x : Interpreter.execution) :
  Trace.all_data early = true ->
  fold_left
    (fun y ev =>
       Interpreter.dispatch (Interpreter.direct_listeners filePath startTime)
         (fst ev) (snd ev) y) early x
  = Interpreter.capture (Interpreter.stdout x +:+ Trace.stdout_text early)
      (Interpreter.stderr x +:+ Trace.stderr_text early)
      (Interpreter.outputLineCount x) x.
Proof.
  revert x. induction early as [|[now ev] early IH]; intros x Hdata.
  - cbn. rewrite !string_app_nil_r. destruct x; reflexivity.
  - cbn [Trace.all_data forallb] in Hdata.
    apply andb_true_iff in Hdata. destruct Hdata as [Hev Hrest].
    cbn [fold_left fst snd]. rewrite IH by exact Hrest.
    destruct ev as [chunk|chunk|code|message]; try discriminate;
      cbn; rewrite ?string_app_assoc; reflexivity.
Qed.

(** A run whose events all arrive before the timer fires and that leaves
    the timer cleared is the events dispatched one after the other. *)
Lemma event_loop_all_before (l : Interpreter.listeners) (fireAt : Z)
    (events : ChildProcess.script) (x : Interpreter.execution) :
  Observe.before_timer fireAt events = true ->
  Interpreter.timer_armed
    (fold_left (fun y ev => Interpreter.dispatch l (fst ev) (snd ev) y)
       events x) = false ->
  Interpreter.event_loop l fireAt events x
  = fold_left (fun y ev => Interpreter.dispatch l (fst ev) (snd ev) y)
      events x.
Proof.
  intros Hbefore Hcleared.
  rewrite <- (app_nil_r events) at 1.
  rewrite event_loop_app_before by exact Hbefore.
  cbn [Interpreter.event_loop]. rewrite Hcleared. reflexivity.
Qed.

(** X1: in collecting mode, a child that writes its chunks and closes before the
    timer fires is never killed: the result has all of its stdout and all of
    its stderr, each in the order written, [success] tells whether the exit
    code is 0, the handle is released and the script file is deleted. *)
Theorem executeDirectly_collects_output (h : Interpreter.host)
    (hp : gmap loc Heap.object) (this : Interpreter.PythonInterpreter)
    (w : Interpreter.world) (filePath : string)
    (options : ExecutionOptions.t) (startTime : Z)
    (chunks : ChildProcess.script) (closed : Z) (code : option Z) :
  Interpreter.python w
  = ChildProcess.child (chunks ++ [(closed, ChildProcess.close code)]) ->
  Trace.all_data chunks = true ->
  Observe.before_timer
    (Interpreter.now_spawn w
     + Interpreter.timer_delay
         (Interpreter.setTimeout_argument
            (Interpreter.this_config hp this) options))
    (chunks ++ [(closed, ChildProcess.close code)]) = true ->
  let run :=
    Interpreter.executeDirectly h hp this w filePath options startTime in
  Interpreter.promise run
  = Host.resolved
      (PythonExecutionResult.mk (JS.strict_eq_zero code)
         (Trace.stdout_text chunks) (Trace.stderr_text chunks)
         (JS.or_zero code) (closed - startTime))
  /\ Observe.kills (Interpreter.log run) = 0%nat
  /\ Interpreter.tracked run = false
  /\ In (Host.unlink filePath) (Interpreter.log run).
Proof.
  intros Hchild Hdata Hbefore run. subst run.
  unfold Interpreter.executeDirectly. rewrite Hchild.
  assert (Hstate : forall x0,
    fold_left
      (fun y ev =>
         Interpreter.dispatch (Interpreter.direct_listeners filePath startTime)
           (fst ev) (snd ev) y)
      (chunks ++ [(closed, ChildProcess.close code)]) x0
    = Interpreter.direct_on_close filePath startTime closed code
        (Interpreter.capture
           (Interpreter.stdout x0 +:+ Trace.stdout_text chunks)
           (Interpreter.stderr x0 +:+ Trace.stderr_text chunks)
           (Interpreter.outputLineCount x0) x0)).
  { intros x0. rewrite fold_left_app.
    rewrite (direct_chunks filePath startTime chunks x0 Hdata).
    reflexivity. }
  rewrite event_loop_all_before; [|exact Hbefore|rewrite Hstate; reflexivity].
  rewrite Hstate. cbn. unfold Observe.kills. cbn. auto 10.
Qed.

Lemma executeDirectly_collects_output_witness :
  let made := Interpreter.new Sample.host Sample.heap InterpreterConfig.empty in
  let run :=
    Interpreter.executeDirectly Sample.host (snd made) (fst made)
      (Sample.world Sample.chatty_child) "/tmp/python_exec_5_b.py"
      ExecutionOptions.empty 0 in
  Interpreter.promise run
  = Host.resolved
      (PythonExecutionResult.mk false (Sample.line "one" +:+ Sample.line "two")
         "oops" 3 30)
  /\ Observe.kills (Interpreter.log run) = 0%nat.
Proof.
  intros made run.
  assert (H := executeDirectly_collects_output Sample.host (snd made)
                 (fst made) (Sample.world Sample.chatty_child)
                 "/tmp/python_exec_5_b.py" ExecutionOptions.empty 0
                 [(20, ChildProcess.stdout_data (Sample.line "one"));
                  (21, ChildProcess.stderr_data "oops");
                  (22, ChildProcess.stdout_data (Sample.line "two"))]
                 30 (Some 3) eq_refl eq_refl eq_refl).
  cbv zeta in H. destruct H as (Hpromise & Hkills & _).
  split; [exact Hpromise | exact Hkills].
Defined.



(** What the streaming mode has gathered after a run of chunks: the output,
    and a log that has grown by StreamOutput events only. *)
Lemma streaming_chunks (hp : gmap loc Heap.object)
    (this : Interpreter.PythonInterpreter) (w : Interpreter.world)
    (filePath : string) (startTime : Z) (early : ChildProcess.script)
    (x : Interpreter.execution) :
  Trace.all_data early = true ->
  let y :=
    fold_left
      (fun y ev =>
         Interpreter.dispatch
           (Interpreter.streaming_listeners hp this w filePath startTime)
           (fst ev) (snd ev) y) early x in
  Interpreter.stdout y = (Interpreter.stdout x +:+ Trace.stdout_text early)%string
  /\ Interpreter.stderr y
     = (Interpreter.stderr x +:+ Trace.stderr_text early)%string
  /\ Interpreter.timer_armed y = Interpreter.timer_armed x
  /\ Interpreter.tracked y = Interpreter.tracked x
  /\ Interpreter.promise y = Interpreter.promise x
  /\ exists emitted,
       Interpreter.log y = Interpreter.log x ++ emitted
       /\ Forall (fun e => exists o, e = Host.emit (Host.data o)) emitted.
Proof.
  revert x. induction early as [|[now ev] early IH]; intros x Hdata.
  - cbn [fold_left Trace.stdout_text Trace.stderr_text flat_map Trace.text
         fold_right].
    rewrite !string_app_nil_r.
    split; [reflexivity|]. split; [reflexivity|]. split; [reflexivity|].
    split; [reflexivity|]. split; [reflexivity|].
    exists []. rewrite app_nil_r. split; [reflexivity|constructor].
  - cbn [Trace.all_data forallb] in Hdata.
    apply andb_true_iff in Hdata. destruct Hdata as [Hev Hrest].
    cbn [fold_left fst snd]. cbv zeta.
    destruct (IH (Interpreter.dispatch
                    (Interpreter.streaming_listeners hp this w filePath
                       startTime) now ev x) Hrest)
      as (Hout & Herr & Htimer & Htracked & Hpromise & emitted & Hlog & Hall).
    cbv zeta in *. rewrite Hout, Herr, Htimer, Htracked, Hpromise, Hlog.
    clear Hout Herr Htimer Htracked Hpromise Hlog IH.
    destruct ev as [chunk|chunk|code|message]; try discriminate.
    + assert (Herr' :
        Interpreter.stderr
          (Interpreter.dispatch
             (Interpreter.streaming_listeners hp this w filePath startTime)
             now (ChildProcess.stdout_data chunk) x) = Interpreter.stderr x
        /\ Interpreter.tracked
             (Interpreter.dispatch
                (Interpreter.streaming_listeners hp this w filePath startTime)
                now (ChildProcess.stdout_data chunk) x)
           = Interpreter.tracked x).
      { cbn [Interpreter.dispatch Interpreter.on_stdout
             Interpreter.streaming_listeners].
        unfold Interpreter.streaming_on_stdout.
        destruct (_ || _); split; reflexivity. }
      destruct (stdout_chunk_step hp this w filePath startTime now chunk x)
        as (_ & Hl & Hs & Ht & Hp).
      cbv zeta in Hl, Hs, Ht, Hp. rewrite Hl, Hs, Ht, Hp.
      destruct Herr' as [-> ->].
      split; [apply string_app_assoc|]. split; [reflexivity|].
      split; [reflexivity|]. split; [reflexivity|]. split; [reflexivity|].
      eexists. rewrite <- app_assoc. split; [reflexivity|].
      apply Forall_app. split; [|exact Hall].
      destruct (_ || _); repeat constructor. eexists; reflexivity.
    + cbn [Interpreter.dispatch Interpreter.on_stderr
           Interpreter.streaming_listeners Interpreter.streaming_on_stderr
           Interpreter.calling Interpreter.capture Interpreter.stdout
           Interpreter.stderr Interpreter.timer_armed Interpreter.tracked
           Interpreter.promise Interpreter.log].
      split; [reflexivity|]. split; [apply string_app_assoc|].
      split; [reflexivity|]. split; [reflexivity|]. split; [reflexivity|].
      eexists. rewrite <- app_assoc. split; [reflexivity|].
      constructor; [eexists; reflexivity|exact Hall].
Qed.

Lemma data_events_quiet (emitted : list Host.effect) :
  Forall (fun e => exists o, e = Host.emit (Host.data o)) emitted ->
  Observe.kills emitted = 0%nat /\ Trace.timeouts emitted = 0%nat.
Proof.
  induction 1 as [|e emitted [o ->] _ [IH1 IH2]]; [split; reflexivity|].
  unfold Observe.kills, Trace.timeouts in *. cbn. auto.
Qed.

Lemma timeouts_app (l1 l2 : list Host.effect) :
  Trace.timeouts (l1 ++ l2) = (Trace.timeouts l1 + Trace.timeouts l2)%nat.
Proof. unfold Trace.timeouts. rewrite List.filter_app. apply length_app. Qed.

(** X2: in streaming mode, a child that writes its chunks and closes before the
    timer fires is never killed. Whatever the output limit, the result has
    all of its stdout and all of its stderr; the ['complete'] event carries
    that very result and is the last event emitted. *)
Theorem executeWithStreaming_collects_output (hp : gmap loc Heap.object)
    (this : Interpreter.PythonInterpreter) (w : Interpreter.world)
    (filePath : string) (options : ExecutionOptions.t) (startTime : Z)
    (chunks : ChildProcess.script) (closed : Z) (code : option Z) :
  Interpreter.python w
  = ChildProcess.child (chunks ++ [(closed, ChildProcess.close code)]) ->
  Trace.all_data chunks = true ->
  Observe.before_timer
    (Interpreter.now_spawn w
     + Interpreter.timer_delay
         (Interpreter.setTimeout_argument
            (Interpreter.this_config hp this) options))
    (chunks ++ [(closed, ChildProcess.close code)]) = true ->
  let run :=
    Interpreter.executeWithStreaming hp this w filePath options startTime in
  let result :=
    PythonExecutionResult.mk (JS.strict_eq_zero code)
      (Trace.stdout_text chunks) (Trace.stderr_text chunks)
      (JS.or_zero code) (closed - startTime) in
  Interpreter.promise run = Host.resolved result
  /\ Interpreter.tracked run = false
  /\ exists before,
       Interpreter.log run
       = before ++ [Host.clearTimeout; Host.emit (Host.complete result)]
         ++ (if Interpreter.random_gt_03 w then [Host.unlink filePath] else [])
       /\ Observe.kills before = 0%nat
       /\ Trace.timeouts before = 0%nat.
Proof.
  intros Hchild Hdata Hbefore run result. subst run.
  unfold Interpreter.executeWithStreaming. rewrite Hchild.
  set (x0 := Interpreter.mkExecution _ _ _ _ _ _ _).
  set (l := Interpreter.streaming_listeners hp this w filePath startTime).
  destruct (streaming_chunks hp this w filePath startTime chunks x0 Hdata)
    as (Hout & Herr & Htimer & Htracked & Hpromise & emitted & Hlog & Hall).
  cbv zeta in *. fold l in Hout, Herr, Htimer, Htracked, Hpromise, Hlog.
  set (y := fold_left _ chunks x0) in *.
  assert (Hstate :
    fold_left (fun y ev => Interpreter.dispatch l (fst ev) (snd ev) y)
      (chunks ++ [(closed, ChildProcess.close code)]) x0
    = Interpreter.streaming_on_close w filePath startTime closed code y).
  { rewrite fold_left_app. reflexivity. }
  rewrite event_loop_all_before; [|exact Hbefore|rewrite Hstate; reflexivity].
  rewrite Hstate. unfold Interpreter.streaming_on_close.
  cbn [Interpreter.promise Interpreter.settle Interpreter.calling
       Interpreter.release Interpreter.tracked Interpreter.log
       Interpreter.stdout Interpreter.stderr].
  rewrite Hpromise, Hout, Herr, Hlog.
  split; [reflexivity|]. split; [reflexivity|].
  exists (Interpreter.log x0 ++ emitted). split.
  - rewrite <- !app_assoc. reflexivity.
  - destruct (data_events_quiet emitted Hall) as [Hk Ht].
    rewrite kills_app, timeouts_app, Hk, Ht. split; reflexivity.
Qed.

Lemma executeWithStreaming_collects_output_witness :
  let made := Interpreter.new Sample.host Sample.heap InterpreterConfig.empty in
  let run :=
    Interpreter.executeWithStreaming (snd made) (fst made)
      (Sample.world Sample.chatty_child) "/tmp/python_exec_5_b.py"
      ExecutionOptions.empty 0 in
  Interpreter.promise run
  = Host.resolved
      (PythonExecutionResult.mk false (Sample.line "one" +:+ Sample.line "two")
         "oops" 3 30)
  /\ Interpreter.tracked run = false.
Proof.
  intros made run.
  assert (H := executeWithStreaming_collects_output (snd made)
                 (fst made) (Sample.world Sample.chatty_child)
                 "/tmp/python_exec_5_b.py" ExecutionOptions.empty 0
                 [(20, ChildProcess.stdout_data (Sample.line "one"));
                  (21, ChildProcess.stderr_data "oops");
                  (22, ChildProcess.stdout_data (Sample.line "two"))]
                 30 (Some 3) eq_refl eq_refl eq_refl).
  cbv zeta in H. destruct H as (Hpromise & Htracked & _).
  split; [exact Hpromise | exact Htracked].
Defined.



(** ** What every run leaves behind *)

Lemma event_loop_releases (l : Interpreter.listeners) (fireAt : Z)
    (events : ChildProcess.script) (x : Interpreter.execution) :
  (forall now ev y, Trace.guarded y ->
                    Trace.guarded (Interpreter.dispatch l now ev y)) ->
  (forall y, Trace.guarded y -> Interpreter.timer_armed y = true ->
             Trace.released (Interpreter.expire l fireAt y)) ->
  Trace.guarded x ->
  Trace.released (Interpreter.event_loop l fireAt events x).
Proof.
  intros Hdispatch Hexpire. revert x.
  induction events as [|[now ev] rest IH]; intros x Hx.
  - cbn [Interpreter.event_loop].
    destruct (Interpreter.timer_armed x) eqn:Harmed; [now apply Hexpire|].
    destruct Hx as (Htracked & _ & Hkills). rewrite Harmed in Htracked.
    repeat split; assumption.
  - cbn [Interpreter.event_loop].
    destruct (Interpreter.timer_armed x) eqn:Harmed; cbn [andb].
    + destruct (fireAt <=? now); [now apply Hexpire|].
      apply IH. now apply Hdispatch.
    + apply IH. now apply Hdispatch.
Qed.

Lemma kills_snoc_quiet (log : list Host.effect) (e : Host.effect) :
  Observe.is_kill e = false ->
  Observe.kills (log ++ [e]) = Observe.kills log.
Proof.
  intros He. rewrite kills_app. unfold Observe.kills at 2. cbn.
  rewrite He. cbn. lia.
Qed.

Lemma direct_guarded (filePath : string) (startTime now : Z)
    (ev : ChildProcess.event) (y : Interpreter.execution) :
  Trace.guarded y ->
  Trace.guarded
    (Interpreter.dispatch (Interpreter.direct_listeners filePath startTime)
       now ev y).
Proof.
  intros (Htracked & Hquiet & Hkills).
  destruct ev as [chunk|chunk|code|message];
    cbn [Interpreter.dispatch Interpreter.direct_listeners
         Interpreter.on_stdout Interpreter.on_stderr Interpreter.on_close
         Interpreter.on_error].
  - repeat split; assumption.
  - repeat split; assumption.
  - unfold Trace.guarded, Interpreter.direct_on_close.
    cbn [Interpreter.calling Interpreter.settle Interpreter.release
         Interpreter.tracked Interpreter.timer_armed Interpreter.log
         Interpreter.cleanupTempFile].
    unfold Interpreter.cleanupTempFile.
    rewrite !kills_snoc_quiet by reflexivity.
    split; [reflexivity|]. split; [discriminate|exact Hkills].
  - unfold Trace.guarded, Interpreter.direct_on_error.
    cbn [Interpreter.calling Interpreter.settle Interpreter.release
         Interpreter.tracked Interpreter.timer_armed Interpreter.log].
    rewrite !kills_snoc_quiet by reflexivity.
    split; [reflexivity|]. split; [discriminate|exact Hkills].
Qed.

Lemma streaming_guarded (hp : gmap loc Heap.object)
    (this : Interpreter.PythonInterpreter) (w : Interpreter.world)
    (filePath : string) (startTime now : Z)
    (ev : ChildProcess.event) (y : Interpreter.execution) :
  Trace.guarded y ->
  Trace.guarded
    (Interpreter.dispatch
       (Interpreter.streaming_listeners hp this w filePath startTime)
       now ev y).
Proof.
  intros (Htracked & Hquiet & Hkills).
  destruct ev as [chunk|chunk|code|message];
    cbn [Interpreter.dispatch Interpreter.streaming_listeners
         Interpreter.on_stdout Interpreter.on_stderr Interpreter.on_close
         Interpreter.on_error].
  - unfold Interpreter.streaming_on_stdout.
    destruct (_ || _); unfold Trace.guarded;
      cbn [Interpreter.calling Interpreter.capture Interpreter.tracked
           Interpreter.timer_armed Interpreter.log];
      rewrite ?kills_snoc_quiet by reflexivity; repeat split; assumption.
  - unfold Trace.guarded, Interpreter.streaming_on_stderr.
    cbn [Interpreter.calling Interpreter.capture Interpreter.tracked
         Interpreter.timer_armed Interpreter.log].
    rewrite ?kills_snoc_quiet by reflexivity. repeat split; assumption.
  - unfold Trace.guarded, Interpreter.streaming_on_close.
    cbn [Interpreter.calling Interpreter.settle Interpreter.release
         Interpreter.tracked Interpreter.timer_armed Interpreter.log
         Interpreter.cleanupTempFile].
    unfold Interpreter.cleanupTempFile.
    assert (Hk : forall log,
      Observe.kills
        (log ++ (if Interpreter.random_gt_03 w then [Host.unlink filePath]
                 else []))
      = Observe.kills log).
    { intros log. destruct (Interpreter.random_gt_03 w);
        [apply kills_snoc_quiet; reflexivity | now rewrite app_nil_r]. }
    rewrite Hk, !kills_snoc_quiet by reflexivity.
    split; [reflexivity|]. split; [discriminate|exact Hkills].
  - unfold Trace.guarded, Interpreter.streaming_on_error.
    destruct (Interpreter.has_error_listener w);
      cbn [Interpreter.calling Interpreter.settle Interpreter.release
           Interpreter.tracked Interpreter.timer_armed Interpreter.log];
      rewrite !kills_snoc_quiet by reflexivity;
      (split; [reflexivity|]; split; [discriminate|exact Hkills]).
Qed.

(** X5: whatever the child does, when a run of either mode is over the child is
    no longer among the active children, its timer is not armed, and [kill]
    was called at most once. *)
Theorem runs_release_the_child (h : Interpreter.host)
    (hp : gmap loc Heap.object) (this : Interpreter.PythonInterpreter)
    (w : Interpreter.world) (filePath : string)
    (options : ExecutionOptions.t) (startTime : Z) :
  Trace.released
    (Interpreter.executeDirectly h hp this w filePath options startTime)
  /\ Trace.released
       (Interpreter.executeWithStreaming hp this w filePath options startTime).
Proof.
  unfold Interpreter.executeDirectly, Interpreter.executeWithStreaming.
  destruct (Interpreter.python w) as [message|events].
  - split; (split; [reflexivity|]; split; [reflexivity|]);
      unfold Observe.kills; cbn; lia.
  - split; apply event_loop_releases.
    + intros now ev y. apply direct_guarded.
    + intros y (Hy1 & Hy2 & Hy3) Harmed. unfold Interpreter.expire.
      unfold Trace.released.
      cbn [Interpreter.on_close Interpreter.on_timer
           Interpreter.direct_listeners Interpreter.direct_on_close
           Interpreter.direct_on_timer Interpreter.calling Interpreter.settle
           Interpreter.release Interpreter.fired Interpreter.tracked
           Interpreter.timer_armed Interpreter.log
           Interpreter.cleanupTempFile].
      unfold Interpreter.cleanupTempFile.
      rewrite !kills_snoc_quiet by reflexivity.
      rewrite kills_app, (Hy2 Harmed).
      split; [reflexivity|]. split; [reflexivity|]. unfold Observe.kills. cbn. lia.
    + split; [reflexivity|]. split; [reflexivity|]. unfold Observe.kills. cbn. lia.
    + intros now ev y. apply streaming_guarded.
    + intros y (Hy1 & Hy2 & Hy3) Harmed. unfold Interpreter.expire.
      unfold Trace.released.
      cbn [Interpreter.on_close Interpreter.on_timer
           Interpreter.streaming_listeners Interpreter.streaming_on_close
           Interpreter.streaming_on_timer Interpreter.calling
           Interpreter.settle Interpreter.release Interpreter.fired
           Interpreter.tracked Interpreter.timer_armed Interpreter.log
           Interpreter.cleanupTempFile].
      unfold Interpreter.cleanupTempFile.
      split; [reflexivity|]. split; [reflexivity|].
      rewrite !kills_app, (Hy2 Harmed).
      destruct (Interpreter.random_gt_03 w); unfold Observe.kills; cbn; lia.
    + split; [reflexivity|]. split; [reflexivity|]. unfold Observe.kills. cbn. lia.
Qed.

(** ** The children a run starts *)

(** The listeners and the timer callback start no child and set no timer:
    a run only adds other calls to its log. *)
Lemma event_loop_sets_up_nothing (l : Interpreter.listeners) (fireAt : Z)
    (events : ChildProcess.script) (x : Interpreter.execution) :
  (forall now ev y,
     List.filter Trace.is_setup
       (Interpreter.log (Interpreter.dispatch l now ev y))
     = List.filter Trace.is_setup (Interpreter.log y)) ->
  (forall y,
     List.filter Trace.is_setup
       (Interpreter.log (Interpreter.expire l fireAt y))
     = List.filter Trace.is_setup (Interpreter.log y)) ->
  List.filter Trace.is_setup
    (Interpreter.log (Interpreter.event_loop l fireAt events x))
  = List.filter Trace.is_setup (Interpreter.log x).
Proof.
  intros Hdispatch Hexpire. revert x.
  induction events as [|[now ev] rest IH]; intros x;
    cbn [Interpreter.event_loop].
  - destruct (Interpreter.timer_armed x); [apply Hexpire|reflexivity].
  - destruct (Interpreter.timer_armed x && (fireAt <=? now));
      [apply Hexpire|]. rewrite IH. apply Hdispatch.
Qed.

Lemma filter_setup_snoc (log more : list Host.effect) :
  forallb (fun e => negb (Trace.is_setup e)) more = true ->
  List.filter Trace.is_setup (log ++ more) = List.filter Trace.is_setup log.
Proof.
  intros Hquiet. rewrite List.filter_app.
  replace (List.filter Trace.is_setup more) with (@nil Host.effect);
    [apply app_nil_r|].
  induction more as [|e more IH]; [reflexivity|].
  cbn [forallb] in Hquiet. apply andb_true_iff in Hquiet.
  destruct Hquiet as [He Hmore]. cbn [List.filter].
  destruct (Trace.is_setup e); [discriminate|]. now apply IH.
Qed.

Lemma direct_sets_up_nothing (filePath : string) (startTime fireAt : Z)
    (events : ChildProcess.script) (x : Interpreter.execution) :
  List.filter Trace.is_setup
    (Interpreter.log
       (Interpreter.event_loop (Interpreter.direct_listeners filePath startTime)
          fireAt events x))
  = List.filter Trace.is_setup (Interpreter.log x).
Proof.
  apply event_loop_sets_up_nothing.
  - intros now ev y. destruct ev as [chunk|chunk|code|message];
      cbn [Interpreter.dispatch Interpreter.direct_listeners
           Interpreter.on_stdout Interpreter.on_stderr Interpreter.on_close
           Interpreter.on_error Interpreter.direct_on_stdout
           Interpreter.direct_on_stderr Interpreter.direct_on_close
           Interpreter.direct_on_error Interpreter.calling Interpreter.settle
           Interpreter.release Interpreter.capture Interpreter.log];
      unfold Interpreter.cleanupTempFile;
      rewrite ?filter_setup_snoc by reflexivity; reflexivity.
  - intros y. unfold Interpreter.expire.
    cbn [Interpreter.direct_listeners Interpreter.on_close Interpreter.on_timer
         Interpreter.direct_on_close Interpreter.direct_on_timer
         Interpreter.calling Interpreter.settle Interpreter.release
         Interpreter.fired Interpreter.log].
    unfold Interpreter.cleanupTempFile.
    rewrite ?filter_setup_snoc by reflexivity. reflexivity.
Qed.

Lemma streaming_sets_up_nothing (hp : gmap loc Heap.object)
    (this : Interpreter.PythonInterpreter) (w : Interpreter.world)
    (filePath : string) (startTime fireAt : Z)
    (events : ChildProcess.script) (x : Interpreter.execution) :
  List.filter Trace.is_setup
    (Interpreter.log
       (Interpreter.event_loop
          (Interpreter.streaming_listeners hp this w filePath startTime)
          fireAt events x))
  = List.filter Trace.is_setup (Interpreter.log x).
Proof.
  assert (Hclose : forall now code y,
    List.filter Trace.is_setup
      (Interpreter.log
         (Interpreter.streaming_on_close w filePath startTime now code y))
    = List.filter Trace.is_setup (Interpreter.log y)).
  { intros now code y. unfold Interpreter.streaming_on_close.
    cbn [Interpreter.calling Interpreter.settle Interpreter.release
         Interpreter.log].
    unfold Interpreter.cleanupTempFile.
    destruct (Interpreter.random_gt_03 w);
      rewrite ?app_nil_r, ?filter_setup_snoc by reflexivity; reflexivity. }
  apply event_loop_sets_up_nothing.
  - intros now ev y. destruct ev as [chunk|chunk|code|message];
      cbn [Interpreter.dispatch Interpreter.streaming_listeners
           Interpreter.on_stdout Interpreter.on_stderr Interpreter.on_close
           Interpreter.on_error].
    + unfold Interpreter.streaming_on_stdout.
      destruct (_ || _);
        cbn [Interpreter.calling Interpreter.capture Interpreter.log];
        rewrite ?filter_setup_snoc by reflexivity; reflexivity.
    + unfold Interpreter.streaming_on_stderr.
      cbn [Interpreter.calling Interpreter.capture Interpreter.log].
      rewrite ?filter_setup_snoc by reflexivity. reflexivity.
    + apply Hclose.
    + unfold Interpreter.streaming_on_error.
      destruct (Interpreter.has_error_listener w);
        cbn [Interpreter.calling Interpreter.settle Interpreter.release
             Interpreter.log];
        rewrite ?filter_setup_snoc by reflexivity; reflexivity.
  - intros y. unfold Interpreter.expire.
    cbn [Interpreter.streaming_listeners Interpreter.on_close
         Interpreter.on_timer].
    rewrite Hclose. unfold Interpreter.streaming_on_timer.
    cbn [Interpreter.calling Interpreter.fired Interpreter.log].
    rewrite ?filter_setup_snoc by reflexivity. reflexivity.
Qed.

(** What is read off the [spawn] and [setTimeout] calls of a log depends on
    these only. *)
Lemma flat_map_setup {B : Type} (f : Host.effect -> list B)
    (log : list Host.effect) :
  (forall e, Trace.is_setup e = false -> f e = []) ->
  flat_map f log = flat_map f (List.filter Trace.is_setup log).
Proof.
  intros Hf. induction log as [|e log IH]; [reflexivity|].
  cbn [flat_map List.filter]. destruct (Trace.is_setup e) eqn:He.
  - cbn [flat_map]. now rewrite IH.
  - rewrite (Hf e He). exact IH.
Qed.

(** The one child a run of either mode starts, and the one timer it sets. *)
Lemma executeDirectly_setup (h : Interpreter.host)
    (hp : gmap loc Heap.object) (this : Interpreter.PythonInterpreter)
    (w : Interpreter.world) (filePath : string)
    (options : ExecutionOptions.t) (startTime : Z) :
  List.filter Trace.is_setup
    (Interpreter.log
       (Interpreter.executeDirectly h hp this w filePath options startTime))
  = Host.spawn
       (JS.get (InterpreterConfig.pythonPath (Interpreter.this_config hp this)))
       [filePath]
       (Some (Interpreter.spawn_cwd hp this options,
              Interpreter.direct_env h hp this options))
    :: match Interpreter.python w with
       | ChildProcess.throws _ => []
       | ChildProcess.child _ =>
           [Host.setTimeout
              (Interpreter.setTimeout_argument
                 (Interpreter.this_config hp this) options)]
       end.
Proof.
  unfold Interpreter.executeDirectly.
  destruct (Interpreter.python w); [reflexivity|].
  rewrite direct_sets_up_nothing. reflexivity.
Qed.

Lemma executeWithStreaming_setup (hp : gmap loc Heap.object)
    (this : Interpreter.PythonInterpreter) (w : Interpreter.world)
    (filePath : string) (options : ExecutionOptions.t) (startTime : Z) :
  List.filter Trace.is_setup
    (Interpreter.log
       (Interpreter.executeWithStreaming hp this w filePath options startTime))
  = Host.spawn
       (JS.get (InterpreterConfig.pythonPath (Interpreter.this_config hp this)))
       [filePath]
       (Some (Interpreter.spawn_cwd hp this options,
              Interpreter.merged_env hp this options))
    :: match Interpreter.python w with
       | ChildProcess.throws _ => []
       | ChildProcess.child _ =>
           [Host.setTimeout
              (Interpreter.setTimeout_argument
                 (Interpreter.this_config hp this) options)]
       end.
Proof.
  unfold Interpreter.executeWithStreaming.
  destruct (Interpreter.python w); [reflexivity|].
  rewrite streaming_sets_up_nothing. reflexivity.
Qed.

(** ** The environment of a child *)

Lemma lookup_overlay (given base : gmap string string) (k : string) :
  (given ∪ base) !! k
  = match given !! k with
    | Some v => Some v
    | None => base !! k
    end.
Proof.
  rewrite lookup_union. destruct (given !! k), (base !! k); reflexivity.
Qed.

(** X9: the child of a streaming run gets the policy's environment overlaid with
    the call's entries. The child of a collecting run gets the same, and on
    top of it, whatever the caller supplied under these names, the
    interpreter's temporary directory and its whole configuration as
    JSON. *)
Theorem child_environment (h : Interpreter.host) (hp : gmap loc Heap.object)
    (this : Interpreter.PythonInterpreter) (w : Interpreter.world)
    (filePath : string) (options : ExecutionOptions.t) (startTime : Z) :
  let policy := Interpreter.this_config hp this in
  let base := Heap.env_at hp (JS.get (InterpreterConfig.environment policy)) in
  let given :=
    match JS.get (ExecutionOptions.env options) with
    | Some e => e
    | None => ∅
    end in
  (exists env,
     flat_map Trace.environments
       (Interpreter.log
          (Interpreter.executeWithStreaming hp this w filePath options
             startTime)) = [env]
     /\ forall k,
          env !! k
          = match given !! k with
            | Some v => Some v
            | None => base !! k
            end)
  /\ (exists env,
        flat_map Trace.environments
          (Interpreter.log
             (Interpreter.executeDirectly h hp this w filePath options
                startTime)) = [env]
        /\ env !! "PYTHON_INTERPRETER_CONFIG"%string
           = Some (Interpreter.JSON_stringify h policy base)
        /\ env !! "PYTHON_INTERPRETER_TEMP_DIR"%string
           = Some (Interpreter.tempDir this)
        /\ forall k,
             k <> "PYTHON_INTERPRETER_CONFIG"%string ->
             k <> "PYTHON_INTERPRETER_TEMP_DIR"%string ->
             env !! k
             = match given !! k with
               | Some v => Some v
               | None => base !! k
               end).
Proof.
  intros policy base given. split.
  - exists (Interpreter.merged_env hp this options). split.
    + rewrite flat_map_setup
        by (intros [] He; try reflexivity; discriminate).
      rewrite executeWithStreaming_setup.
      destruct (Interpreter.python w); reflexivity.
    + intros k. unfold Interpreter.merged_env. apply lookup_overlay.
  - exists (Interpreter.direct_env h hp this options). split; [|split; [|split]].
    + rewrite flat_map_setup
        by (intros [] He; try reflexivity; discriminate).
      rewrite executeDirectly_setup.
      destruct (Interpreter.python w); reflexivity.
    + unfold Interpreter.direct_env. apply lookup_insert_eq.
    + unfold Interpreter.direct_env.
      rewrite lookup_insert_ne by discriminate. apply lookup_insert_eq.
    + intros k Hc Ht. unfold Interpreter.direct_env.
      rewrite !lookup_insert_ne by congruence.
      unfold Interpreter.merged_env. apply lookup_overlay.
Qed.


(** ** What [executeCode] starts *)

Lemma filter_setup_cons_quiet (e : Host.effect) (log : list Host.effect) :
  Trace.is_setup e = false ->
  List.filter Trace.is_setup (e :: log) = List.filter Trace.is_setup log.
Proof. intros He. cbn [List.filter]. rewrite He. reflexivity. Qed.

(** The child that the [try] block of [executeCode] starts and the timer it
    sets: none when the script file cannot be written. *)
Lemma execute_spawning_setup (h : Interpreter.host)
    (hp : gmap loc Heap.object) (this : Interpreter.PythonInterpreter)
    (w : Interpreter.world) (code : string) (options : ExecutionOptions.t) :
  List.filter Trace.is_setup
    (snd (Interpreter.execute_spawning h hp this w code options))
  = match Interpreter.writeFile_fails w with
    | Some _ => []
    | None =>
        Host.spawn
          (JS.get (InterpreterConfig.pythonPath
                     (Interpreter.this_config hp this)))
          [Interpreter.tempFilePath w]
          (Some (Interpreter.spawn_cwd hp this options,
                 if JS.truthy (JS.get (ExecutionOptions.stream options))
                 then Interpreter.merged_env hp this options
                 else Interpreter.direct_env h hp this options))
        :: match Interpreter.python w with
           | ChildProcess.throws _ => []
           | ChildProcess.child _ =>
               [Host.setTimeout
                  (Interpreter.setTimeout_argument
                     (Interpreter.this_config hp this) options)]
           end
    end.
Proof.
  unfold Interpreter.execute_spawning.
  destruct (Interpreter.writeFile_fails w); [reflexivity|].
  cbn [snd]. rewrite filter_setup_cons_quiet by reflexivity.
  destruct (JS.truthy (JS.get (ExecutionOptions.stream options))).
  - apply executeWithStreaming_setup.
  - apply executeDirectly_setup.
Qed.

(** The linter starts its compile check and sets no timer. *)
Lemma lintCode_setup (self : Linter.PythonLinter) (w : Linter.world)
    (code : string) (strict : JS.slot bool) :
  List.filter Trace.is_setup (snd (Linter.lintCode self w code strict))
  = match Linter.writeFile_fails w with
    | Some _ => []
    | None =>
        [Host.spawn (Some (Linter.pythonPath self))
           ["-m"; "py_compile"; Linter.tempFilePath w]%string None]
    end.
Proof.
  unfold Linter.lintCode, Linter.cleanupTempFile.
  destruct (Linter.writeFile_fails w); [reflexivity|].
  destruct (Linter.checkSyntax w); try reflexivity.
  destruct (Linter.random_gt_08 w), (Linter.unlink_fails w); reflexivity.
Qed.

(** ** executeUnsafe: what the child gets *)

Lemma assign_flags_config (hp : gmap loc Heap.object)
    (this : Interpreter.PythonInterpreter) (a b : option bool) :
  Interpreter.this_config (Interpreter.assign_flags hp this a b) this
  = InterpreterConfig.set_allowUnsafeOperations (JS.of_value b)
      (InterpreterConfig.set_enableLinting (JS.of_value a)
         (Interpreter.this_config hp this)).
Proof.
  unfold Interpreter.assign_flags, Interpreter.this_config.
  apply config_at_insert.
Qed.

Lemma executeUnsafe_setup (h : Interpreter.host)
    (hp : gmap loc Heap.object) (this : Interpreter.PythonInterpreter)
    (w : Interpreter.world) (code : string)
    (context : UnsafeExecutionContext.t) :
  Interpreter.writeFile_fails w = None ->
  let forced := Interpreter.assign_flags hp this (Some false) (Some true) in
  let policy := Interpreter.this_config hp this in
  List.filter Trace.is_setup
    (snd (fst (Interpreter.executeUnsafe h hp this w code context)))
  = Host.spawn (JS.get (InterpreterConfig.pythonPath policy))
      [Interpreter.tempFilePath w]
      (Some (JS.get (InterpreterConfig.workingDirectory policy),
             Interpreter.direct_env h forced this
               (Interpreter.unsafeOptions hp this context)))
    :: match Interpreter.python w with
       | ChildProcess.throws _ => []
       | ChildProcess.child _ =>
           [Host.setTimeout (JS.get (InterpreterConfig.timeout policy))]
       end.
Proof.
  intros Hwrite forced policy.
  unfold Interpreter.executeUnsafe. cbn [fst snd].
  unfold Interpreter.executeCode. rewrite unsafeOptions_skip_lint.
  rewrite execute_spawning_setup, Hwrite. fold forced.
  assert (Hforced : Interpreter.this_config forced this
            = InterpreterConfig.set_allowUnsafeOperations (JS.Present true)
                (InterpreterConfig.set_enableLinting (JS.Present false) policy))
    by apply assign_flags_config.
  unfold Interpreter.spawn_cwd. rewrite Hforced.
  cbn [Interpreter.unsafeOptions ExecutionOptions.stream ExecutionOptions.cwd
       JS.get JS.truthy JS.or_string InterpreterConfig.pythonPath
       InterpreterConfig.workingDirectory
       InterpreterConfig.set_allowUnsafeOperations
       InterpreterConfig.set_enableLinting].
  f_equal. destruct (Interpreter.python w); [reflexivity|]. f_equal. f_equal.
  unfold Interpreter.setTimeout_argument.
  cbn [Interpreter.unsafeOptions ExecutionOptions.timeout
       InterpreterConfig.timeout InterpreterConfig.set_allowUnsafeOperations
       InterpreterConfig.set_enableLinting].
  fold policy.
  destruct (JS.truthy (JS.get (UnsafeExecutionContext.bypassSandbox context)));
    [reflexivity|].
  destruct (InterpreterConfig.timeout policy) as [| |t]; try reflexivity.
  cbn. destruct (t =? 0); reflexivity.
Qed.

(** X10: [bypassSandbox] does not lift the timeout: whatever the context,
    [executeUnsafe] sets one timer, with the policy's timeout. *)
Theorem executeUnsafe_keeps_policy_timeout (h : Interpreter.host)
    (hp : gmap loc Heap.object) (this : Interpreter.PythonInterpreter)
    (w : Interpreter.world) (code : string)
    (context : UnsafeExecutionContext.t) (events : ChildProcess.script) :
  Interpreter.writeFile_fails w = None ->
  Interpreter.python w = ChildProcess.child events ->
  flat_map Trace.timers
    (snd (fst (Interpreter.executeUnsafe h hp this w code context)))
  = [JS.get (InterpreterConfig.timeout (Interpreter.this_config hp this))].
Proof.
  intros Hwrite Hchild.
  rewrite flat_map_setup by (intros [] He; try reflexivity; discriminate).
  rewrite (executeUnsafe_setup h hp this w code context Hwrite), Hchild.
  reflexivity.
Qed.

Lemma executeUnsafe_keeps_policy_timeout_witness :
  let made :=
    Interpreter.new Sample.host Sample.heap
      (Sample.config_with JS.Absent (JS.Present 5000) JS.Absent JS.Absent) in
  flat_map Trace.timers
    (snd (fst (Interpreter.executeUnsafe Sample.host (snd made) (fst made)
                 (Sample.world Sample.slow_child) "print(1)"
                 (Utils.createUnsafeContext UnsafeExecutionContext.empty))))
  = [Some 5000].
Proof.
  intros made.
  exact (executeUnsafe_keeps_policy_timeout Sample.host (snd made) (fst made)
           (Sample.world Sample.slow_child) "print(1)"
           (Utils.createUnsafeContext UnsafeExecutionContext.empty)
           [(2010, ChildProcess.stdout_data "done");
            (2011, ChildProcess.close (Some 0))]
           eq_refl eq_refl).
Defined.

(** X11: the child of [executeUnsafe] is told that it runs unsafely: its
    environment has [UNSAFE_MODE] set to [true] and the three [ALLOW_] flags
    set as the context says, whatever the policy's environment holds under
    these names; it also has the interpreter's temporary directory; every
    other entry, the configuration apart, is the policy's. *)
Theorem executeUnsafe_child_environment (h : Interpreter.host)
    (hp : gmap loc Heap.object) (this : Interpreter.PythonInterpreter)
    (w : Interpreter.world) (code : string)
    (context : UnsafeExecutionContext.t) (stored : InterpreterConfig.t) :
  Interpreter.writeFile_fails w = None ->
  hp !! Interpreter.config this = Some (Heap.Config stored) ->
  exists env,
    flat_map Trace.environments
      (snd (fst (Interpreter.executeUnsafe h hp this w code context)))
    = [env]
    /\ env !! "UNSAFE_MODE"%string = Some "true"%string
    /\ env !! "ALLOW_SHELL_ACCESS"%string
       = Some (Interpreter.true_or_false
                 (JS.get (UnsafeExecutionContext.allowShellAccess context)))
    /\ env !! "ALLOW_FS_ACCESS"%string
       = Some (Interpreter.true_or_false
                 (JS.get (UnsafeExecutionContext.allowFileSystemAccess context)))
    /\ env !! "ALLOW_NETWORK_ACCESS"%string
       = Some (Interpreter.true_or_false
                 (JS.get (UnsafeExecutionContext.allowNetworkAccess context)))
    /\ env !! "PYTHON_INTERPRETER_TEMP_DIR"%string
       = Some (Interpreter.tempDir this)
    /\ forall k,
         ~ In k ["UNSAFE_MODE"; "ALLOW_SHELL_ACCESS"; "ALLOW_FS_ACCESS";
                 "ALLOW_NETWORK_ACCESS"; "PYTHON_INTERPRETER_TEMP_DIR";
                 "PYTHON_INTERPRETER_CONFIG"]%string ->
         env !! k
         = Heap.env_at hp (JS.get (InterpreterConfig.environment stored)) !! k.
Proof.
  intros Hwrite Hstored.
  set (forced := Interpreter.assign_flags hp this (Some false) (Some true)).
  exists (Interpreter.direct_env h forced this
            (Interpreter.unsafeOptions hp this context)).
  assert (Hpolicy : Interpreter.this_config hp this = stored).
  { unfold Interpreter.this_config, Heap.config_at. rewrite Hstored.
    reflexivity. }
  assert (Hforced : Interpreter.this_config forced this
            = InterpreterConfig.set_allowUnsafeOperations (JS.Present true)
                (InterpreterConfig.set_enableLinting (JS.Present false) stored)).
  { subst forced. rewrite assign_flags_config, Hpolicy. reflexivity. }
  assert (Hbase : forall e, Heap.env_at forced e = Heap.env_at hp e).
  { intros e. subst forced. unfold Interpreter.assign_flags.
    apply env_at_insert_config. intros m. rewrite Hstored. discriminate. }
  split.
  { rewrite flat_map_setup by (intros [] He; try reflexivity; discriminate).
    rewrite (executeUnsafe_setup h hp this w code context Hwrite).
    destruct (Interpreter.python w); reflexivity. }
  unfold Interpreter.direct_env, Interpreter.merged_env.
  rewrite Hforced, Hbase.
  cbn [Interpreter.unsafeOptions ExecutionOptions.env JS.get
       InterpreterConfig.environment
       InterpreterConfig.set_allowUnsafeOperations
       InterpreterConfig.set_enableLinting].
  rewrite Hpolicy.
  set (base := Heap.env_at hp (JS.get (InterpreterConfig.environment stored))).
  repeat match goal with |- _ /\ _ => split end.
  - rewrite !lookup_insert_ne by discriminate. rewrite lookup_overlay.
    rewrite !lookup_insert_ne by discriminate. now rewrite lookup_insert_eq.
  - rewrite !lookup_insert_ne by discriminate. rewrite lookup_overlay.
    rewrite !lookup_insert_ne by discriminate. now rewrite lookup_insert_eq.
  - rewrite !lookup_insert_ne by discriminate. rewrite lookup_overlay.
    rewrite !lookup_insert_ne by discriminate. now rewrite lookup_insert_eq.
  - rewrite !lookup_insert_ne by discriminate. rewrite lookup_overlay.
    now rewrite lookup_insert_eq.
  - rewrite lookup_insert_ne by discriminate. apply lookup_insert_eq.
  - intros k Hk. cbn [In] in Hk.
    rewrite !lookup_insert_ne by (intros Heq; apply Hk; rewrite <- Heq; auto 10).
    rewrite lookup_overlay.
    rewrite !lookup_insert_ne by (intros Heq; apply Hk; rewrite <- Heq; auto 10).
    destruct (base !! k); reflexivity.
Qed.

Lemma executeUnsafe_child_environment_witness :
  let made := Interpreter.new Sample.host Sample.heap InterpreterConfig.empty in
  exists env,
    flat_map Trace.environments
      (snd (fst (Interpreter.executeUnsafe Sample.host (snd made) (fst made)
                   (Sample.world Sample.slow_child) "print(1)"
                   (Utils.createUnsafeContext UnsafeExecutionContext.empty))))
    = [env]
    /\ env !! "UNSAFE_MODE"%string = Some "true"%string
    /\ env !! "ALLOW_SHELL_ACCESS"%string = Some "true"%string
    /\ env !! "PATH"%string = Some "/usr/bin"%string.
Proof.
  intros made.
  destruct (executeUnsafe_child_environment Sample.host (snd made) (fst made)
              (Sample.world Sample.slow_child) "print(1)"
              (Utils.createUnsafeContext UnsafeExecutionContext.empty)
              (InterpreterConfig.spread (Interpreter.defaults Sample.host)
                 InterpreterConfig.empty)
              eq_refl eq_refl)
    as (env & Henv & Hmode & Hshell & _ & _ & _ & Hother).
  exists env. split; [exact Henv|]. split; [exact Hmode|].
  split; [exact Hshell|].
  rewrite (Hother "PATH"%string).
  - reflexivity.
  - intros Hin. repeat (destruct Hin as [Hin|Hin]; [discriminate Hin|]).
    exact Hin.
Defined.

(** ** updateConfig *)

Lemma slot_spread_assoc {A : Type} (a b c : JS.slot A) :
  JS.spread (JS.spread a b) c = JS.spread a (JS.spread b c).
Proof. destruct c; reflexivity. Qed.

Lemma slot_spread_idem {A : Type} (a b : JS.slot A) :
  JS.spread (JS.spread a b) b = JS.spread a b.
Proof. destruct b; reflexivity. Qed.

Lemma spread_assoc (a b c : InterpreterConfig.t) :
  InterpreterConfig.spread (InterpreterConfig.spread a b) c
  = InterpreterConfig.spread a (InterpreterConfig.spread b c).
Proof.
  unfold InterpreterConfig.spread. cbn. now rewrite !slot_spread_assoc.
Qed.

Lemma updateConfig_merges_aux (hp : gmap loc Heap.object)
    (this : Interpreter.PythonInterpreter) (newConfig : InterpreterConfig.t) :
  Interpreter.this_config (Interpreter.updateConfig hp this newConfig) this
  = InterpreterConfig.spread (Interpreter.this_config hp this) newConfig
  /\ forall l, l <> Interpreter.config this ->
               Interpreter.updateConfig hp this newConfig !! l = hp !! l.
Proof.
  unfold Interpreter.updateConfig, Interpreter.Object_assign,
    Interpreter.this_config.
  split; [apply config_at_insert|].
  intros l Hl. apply lookup_insert_ne. congruence.
Qed.

(** X12: [updateConfig] merges without checking. After it, a property of the
    stored policy is the new one where the argument has the key (also when
    the value is [undefined]) and the old one elsewhere, so that the flags
    may well contradict each other; no other object changes; [getConfig]
    shows the merged policy; doing the same update twice is doing it once,
    and two updates in a row are one update with the merged argument. *)
Theorem updateConfig_merges (hp : gmap loc Heap.object)
    (this : Interpreter.PythonInterpreter)
    (newConfig later : InterpreterConfig.t) :
  let hp' := Interpreter.updateConfig hp this newConfig in
  Interpreter.this_config hp' this
  = InterpreterConfig.spread (Interpreter.this_config hp this) newConfig
  /\ (forall l, l <> Interpreter.config this -> hp' !! l = hp !! l)
  /\ Heap.config_at (snd (Interpreter.getConfig hp' this))
       (fst (Interpreter.getConfig hp' this))
     = InterpreterConfig.spread (Interpreter.this_config hp this) newConfig
  /\ Interpreter.updateConfig hp' this newConfig = hp'
  /\ Interpreter.updateConfig hp' this later
     = Interpreter.updateConfig hp this
         (InterpreterConfig.spread newConfig later).
Proof.
  intros hp'.
  assert (Hstored : Interpreter.this_config hp' this
            = InterpreterConfig.spread (Interpreter.this_config hp this)
                newConfig).
  { subst hp'. unfold Interpreter.updateConfig, Interpreter.Object_assign,
      Interpreter.this_config. apply config_at_insert. }
  assert (Htwice : forall more,
    Interpreter.updateConfig hp' this more
    = Interpreter.updateConfig hp this
        (InterpreterConfig.spread newConfig more)).
  { intros more. unfold Interpreter.updateConfig, Interpreter.Object_assign.
    fold (Interpreter.this_config hp' this). rewrite Hstored.
    subst hp'. unfold Interpreter.updateConfig, Interpreter.Object_assign.
    rewrite insert_insert_eq. fold (Interpreter.this_config hp this).
    now rewrite spread_assoc. }
  split; [exact Hstored|]. split; [|split; [|split]].
  - intros l Hl. subst hp'.
    unfold Interpreter.updateConfig, Interpreter.Object_assign.
    apply lookup_insert_ne. congruence.
  - unfold Interpreter.getConfig, Heap.alloc. cbn [fst snd].
    rewrite config_at_insert, spread_empty.
    exact Hstored.
  - rewrite Htwice. subst hp'. f_equal.
    destruct newConfig as [pp to mol el au wd en].
    unfold InterpreterConfig.spread. cbn.
    destruct pp, to, mol, el, au, wd, en; reflexivity.
  - apply Htwice.
Qed.

(** X13: the linter keeps the interpreter path it was built with: after
    [updateConfig] has changed [pythonPath], [executeCode] still runs the
    compile check with the path of construction time, and runs the snippet
    with the new one. *)
Theorem updateConfig_leaves_linter_path (h : Interpreter.host)
    (hp0 : gmap loc Heap.object) (config : InterpreterConfig.t)
    (newPath : string) (newConfig : InterpreterConfig.t)
    (w : Interpreter.world) (code : string) (options : ExecutionOptions.t)
    (closed : Z) (rest : ChildProcess.script) :
  let made := Interpreter.new h hp0 config in
  let this := fst made in
  let hp := Interpreter.updateConfig (snd made) this newConfig in
  InterpreterConfig.pythonPath newConfig = JS.Present newPath ->
  Interpreter.lints_first hp this options = true ->
  Linter.writeFile_fails (Interpreter.lint w) = None ->
  Linter.py_compile (Interpreter.lint w)
  = ChildProcess.child ((closed, ChildProcess.close (Some 0)) :: rest) ->
  Interpreter.writeFile_fails w = None ->
  let effects := snd (Interpreter.executeCode h hp this w code options) in
  flat_map Trace.compile_checks effects
  = [Some match JS.get (InterpreterConfig.pythonPath
                          (InterpreterConfig.spread (Interpreter.defaults h)
                             config)) with
          | Some path => path
          | None => "python3"%string
          end]
  /\ flat_map Trace.runs effects
     = [(Some newPath, [Interpreter.tempFilePath w])].
Proof.
  intros made this hp Hpath Hgate Hlintwrite Hcompile Hwrite effects.
  assert (Hlinter : Linter.pythonPath (Interpreter.linter this)
            = match JS.get (InterpreterConfig.pythonPath
                              (InterpreterConfig.spread (Interpreter.defaults h)
                                 config)) with
              | Some path => path
              | None => "python3"%string
              end) by reflexivity.
  assert (Hnew : JS.get (InterpreterConfig.pythonPath
                           (Interpreter.this_config hp this)) = Some newPath).
  { subst hp. rewrite (proj1 (updateConfig_merges_aux _ _ _)).
    unfold InterpreterConfig.spread. cbn. rewrite Hpath. reflexivity. }
  assert (Hsetup : List.filter Trace.is_setup effects
    = Host.spawn (Some (Linter.pythonPath (Interpreter.linter this)))
        ["-m"; "py_compile"; Linter.tempFilePath (Interpreter.lint w)]%string
        None
      :: List.filter Trace.is_setup
           (snd (Interpreter.execute_spawning h hp this w code options))).
  { subst effects. unfold Interpreter.executeCode. rewrite Hgate.
    set (strict := JS.Present _).
    pose proof (lintCode_setup (Interpreter.linter this) (Interpreter.lint w)
                  code strict) as Hl.
    rewrite Hlintwrite in Hl.
    assert (Hlint : exists warnings fx,
      Linter.lintCode (Interpreter.linter this) (Interpreter.lint w) code
        strict
      = (Host.resolved (PythonLintResult.mk true [] warnings), fx)).
    { unfold Linter.lintCode. rewrite Hlintwrite.
      unfold Linter.checkSyntax. rewrite Hcompile.
      cbn [Linter.checkSyntax_listen]. eexists. eexists. reflexivity. }
    destruct Hlint as (warnings & fx & Hlint). rewrite Hlint in *.
    cbn [PythonLintResult.isValid negb snd] in *.
    destruct (Interpreter.execute_spawning h hp this w code options)
      as [p fx'].
    cbn [snd]. rewrite List.filter_app, Hl. reflexivity. }
  split.
  - rewrite flat_map_setup by (intros [] He; try reflexivity; discriminate).
    rewrite Hsetup, execute_spawning_setup, Hwrite, Hlinter.
    destruct (Interpreter.python w); reflexivity.
  - rewrite flat_map_setup by (intros [] He; try reflexivity; discriminate).
    rewrite Hsetup, execute_spawning_setup, Hwrite, Hnew.
    destruct (Interpreter.python w); reflexivity.
Qed.

Lemma updateConfig_leaves_linter_path_witness :
  let made := Interpreter.new Sample.host Sample.heap InterpreterConfig.empty in
  let hp :=
    Interpreter.updateConfig (snd made) (fst made)
      (Sample.config_with (JS.Present "/opt/python"%string) JS.Absent
         JS.Absent JS.Absent) in
  let effects :=
    snd (Interpreter.executeCode Sample.host hp (fst made)
           (Sample.world Sample.slow_child) "print(1)"
           ExecutionOptions.empty) in
  flat_map Trace.compile_checks effects = [Some "python3"%string]
  /\ flat_map Trace.runs effects
     = [(Some "/opt/python"%string, ["/tmp/python_exec_5_b.py"%string])].
Proof.
  intros made hp effects.
  exact (updateConfig_leaves_linter_path Sample.host Sample.heap
           InterpreterConfig.empty "/opt/python"
           (Sample.config_with (JS.Present "/opt/python"%string) JS.Absent
              JS.Absent JS.Absent)
           (Sample.world Sample.slow_child) "print(1)" ExecutionOptions.empty
           3 [] eq_refl eq_refl eq_refl eq_refl eq_refl).
Defined.

(** ** How [executeCode] ends *)

(** A collecting run resolves: its promise is never left pending and the
    listeners never reject it. *)
Lemma direct_loop_resolves (filePath : string) (startTime fireAt : Z)
    (events : ChildProcess.script) (x : Interpreter.execution) :
  (Interpreter.timer_armed x = true /\ Interpreter.promise x = Host.pending)
  \/ (exists r, Interpreter.promise x = Host.resolved r) ->
  exists r,
    Interpreter.promise
      (Interpreter.event_loop (Interpreter.direct_listeners filePath startTime)
         fireAt events x)
    = Host.resolved r.
Proof.
  intros [[Harmed Hpending]|[r Hr]].
  - revert x Harmed Hpending.
    induction events as [|[now ev] rest IH]; intros x Harmed Hpending;
      cbn [Interpreter.event_loop]; rewrite Harmed; cbn [andb].
    + unfold Interpreter.expire. cbn. rewrite Hpending. eexists. reflexivity.
    + destruct (fireAt <=? now).
      * unfold Interpreter.expire. cbn. rewrite Hpending. eexists. reflexivity.
      * destruct ev as [chunk|chunk|code|message].
        -- apply IH; [exact Harmed|exact Hpending].
        -- apply IH; [exact Harmed|exact Hpending].
        -- rewrite direct_loop_settled by (cbn; rewrite Hpending; discriminate).
           cbn. rewrite Hpending. eexists. reflexivity.
        -- rewrite direct_loop_settled by (cbn; rewrite Hpending; discriminate).
           cbn. rewrite Hpending. eexists. reflexivity.
  - exists r. rewrite direct_loop_settled; [exact Hr|]. rewrite Hr. discriminate.
Qed.

(** X6: without streaming, [executeCode] resolves whenever the linter, if it
    runs, returns: its promise stays pending only while the linter's compile
    check has not ended, and it is rejected only when [spawn] itself throws
    for the snippet's child. *)
Theorem executeCode_collecting_outcome (h : Interpreter.host)
    (hp : gmap loc Heap.object) (this : Interpreter.PythonInterpreter)
    (w : Interpreter.world) (code : string) (options : ExecutionOptions.t) :
  JS.truthy (JS.get (ExecutionOptions.stream options)) = false ->
  match fst (Interpreter.executeCode h hp this w code options) with
  | Host.resolved _ => True
  | Host.pending =>
      Interpreter.lints_first hp this options = true
      /\ exists events,
           Linter.py_compile (Interpreter.lint w) = ChildProcess.child events
           /\ Linter.checkSyntax_listen events "" = None
  | Host.rejected message =>
      Interpreter.writeFile_fails w = None
      /\ Interpreter.python w = ChildProcess.throws message
  end.
Proof.
  intros Hstream.
  assert (Hrun :
    match fst (Interpreter.execute_spawning h hp this w code options) with
    | Host.resolved _ => True
    | Host.pending => False
    | Host.rejected message =>
        Interpreter.writeFile_fails w = None
        /\ Interpreter.python w = ChildProcess.throws message
    end).
  { unfold Interpreter.execute_spawning.
    destruct (Interpreter.writeFile_fails w); [exact I|].
    rewrite Hstream. cbn [fst]. unfold Interpreter.executeDirectly.
    destruct (Interpreter.python w) as [message|events];
      [cbn; split; reflexivity|].
    destruct (direct_loop_resolves (Interpreter.tempFilePath w)
                (Interpreter.now_start w)
                (Interpreter.now_spawn w
                 + Interpreter.timer_delay
                     (Interpreter.setTimeout_argument
                        (Interpreter.this_config hp this) options))
                events
                (Interpreter.mkExecution "" "" 0 true true Host.pending
                   [Host.spawn
                      (JS.get (InterpreterConfig.pythonPath
                                 (Interpreter.this_config hp this)))
                      [Interpreter.tempFilePath w]
                      (Some (Interpreter.spawn_cwd hp this options,
                             Interpreter.direct_env h hp this options));
                    Host.setTimeout
                      (Interpreter.setTimeout_argument
                         (Interpreter.this_config hp this) options)]))
      as [r Hr]; [left; split; reflexivity|].
    rewrite Hr. exact I. }
  unfold Interpreter.executeCode.
  destruct (Interpreter.lints_first hp this options) eqn:Hgate;
    [|destruct (fst (Interpreter.execute_spawning h hp this w code options));
      [destruct Hrun | exact I | exact Hrun]].
  set (strict := JS.Present _).
  pose proof (lintCode_settles (Interpreter.linter this) (Interpreter.lint w)
                code strict) as Hlint.
  destruct (Linter.lintCode (Interpreter.linter this) (Interpreter.lint w)
              code strict) as [[|lintResult|message] fx]; cbn [fst] in *.
  - split; [reflexivity|exact Hlint].
  - destruct (negb (PythonLintResult.isValid lintResult)); [exact I|].
    destruct (Interpreter.execute_spawning h hp this w code options)
      as [p fx']. cbn [fst] in *.
    destruct p; [destruct Hrun | exact I | exact Hrun].
  - destruct Hlint.
Qed.

Lemma executeCode_collecting_outcome_witness :
  let made := Interpreter.new Sample.host Sample.heap InterpreterConfig.empty in
  let w := Sample.world (ChildProcess.throws "spawn EACCES") in
  let run :=
    Interpreter.executeCode Sample.host (snd made) (fst made) w "print(1)"
      ExecutionOptions.empty in
  fst run = Host.rejected "spawn EACCES"
  /\ Interpreter.python w = ChildProcess.throws "spawn EACCES".
Proof.
  intros made w run.
  assert (H := executeCode_collecting_outcome Sample.host (snd made)
                 (fst made) w "print(1)" ExecutionOptions.empty eq_refl).
  change (fst (Interpreter.executeCode Sample.host (snd made) (fst made) w
                 "print(1)" ExecutionOptions.empty))
    with (@Host.rejected PythonExecutionResult.t "spawn EACCES") in H.
  split; [reflexivity | exact (proj2 H)].
Defined.

(** X7: with the linter in front, an interpreter binary that cannot be started
    never gets to run the snippet: the compile check fails first, and
    [executeCode] resolves, with or without streaming, to a failed result
    whose [stderr] is the linter's report of the failed spawn. *)
Theorem executeCode_missing_binary_fails_in_lint (h : Interpreter.host)
    (hp : gmap loc Heap.object) (this : Interpreter.PythonInterpreter)
    (w : Interpreter.world) (code : string) (options : ExecutionOptions.t)
    (now : Z) (message : string) (rest : ChildProcess.script) :
  Interpreter.lints_first hp this options = true ->
  Linter.writeFile_fails (Interpreter.lint w) = None ->
  Linter.py_compile (Interpreter.lint w)
  = ChildProcess.child ((now, ChildProcess.error message) :: rest) ->
  let run := Interpreter.executeCode h hp this w code options in
  fst run
  = Host.resolved
      (PythonExecutionResult.mk false ""
         ("Python execution error: " +:+ message) 1
         (Interpreter.now_lint_failed w - Interpreter.now_start w))
  /\ flat_map Trace.runs (snd run) = [].
Proof.
  intros Hgate Hwrite Hcompile run. subst run.
  unfold Interpreter.executeCode. rewrite Hgate.
  set (strict := JS.Present _).
  pose proof (lintCode_setup (Interpreter.linter this) (Interpreter.lint w)
                code strict) as Hl.
  rewrite Hwrite in Hl.
  assert (Hlint : exists warnings fx,
    Linter.lintCode (Interpreter.linter this) (Interpreter.lint w) code strict
    = (Host.resolved
         (PythonLintResult.mk false (Linter.checkSyntax_on_error message)
            warnings), fx)).
  { unfold Linter.lintCode. rewrite Hwrite.
    unfold Linter.checkSyntax. rewrite Hcompile.
    cbn [Linter.checkSyntax_listen]. eexists. eexists. reflexivity. }
  destruct Hlint as (warnings & fx & Hlint). rewrite Hlint in *.
  cbn [PythonLintResult.isValid negb fst snd] in *.
  split; [reflexivity|].
  rewrite flat_map_setup by (intros [] He; try reflexivity; discriminate).
  rewrite Hl. reflexivity.
Qed.

Lemma executeCode_missing_binary_fails_in_lint_witness :
  let made := Interpreter.new Sample.host Sample.heap InterpreterConfig.empty in
  let run :=
    Interpreter.executeCode Sample.host (snd made) (fst made)
      (Sample.world_with Sample.unstartable_lint Sample.missing_binary)
      "print(1)" ExecutionOptions.empty in
  fst run
  = Host.resolved
      (PythonExecutionResult.mk false ""
         "Python execution error: spawn python3 ENOENT" 1 4)
  /\ flat_map Trace.runs (snd run) = [].
Proof.
  intros made run.
  exact (executeCode_missing_binary_fails_in_lint Sample.host (snd made)
           (fst made)
           (Sample.world_with Sample.unstartable_lint Sample.missing_binary)
           "print(1)" ExecutionOptions.empty 2 "spawn python3 ENOENT" []
           eq_refl eq_refl eq_refl).
Defined.

(** X8: when the snippet cannot be written to its script file, nothing is
    started to run it and [executeCode] does not reject: what it resolves to
    is a failure with exit code 1 and empty stdout -- with the message of
    the write error in [stderr] when the linter did not run first. *)
Theorem executeCode_write_failure (h : Interpreter.host)
    (hp : gmap loc Heap.object) (this : Interpreter.PythonInterpreter)
    (w : Interpreter.world) (code : string) (options : ExecutionOptions.t)
    (message : string) :
  Interpreter.writeFile_fails w = Some message ->
  let run := Interpreter.executeCode h hp this w code options in
  flat_map Trace.runs (snd run) = []
  /\ (forall reason, fst run <> Host.rejected reason)
  /\ (forall result,
        fst run = Host.resolved result ->
        PythonExecutionResult.success result = false
        /\ PythonExecutionResult.exitCode result = 1
        /\ PythonExecutionResult.stdout result = ""%string)
  /\ (Interpreter.lints_first hp this options = false ->
      fst run
      = Host.resolved
          (PythonExecutionResult.mk false ""
             ("Execution failed: " +:+ message) 1
             (Interpreter.now_catch w - Interpreter.now_start w))).
Proof.
  intros Hwrite run.
  assert (Hspawning :
    Interpreter.execute_spawning h hp this w code options
    = (Host.resolved
         (PythonExecutionResult.mk false ""
            ("Execution failed: " +:+ message) 1
            (Interpreter.now_catch w - Interpreter.now_start w)),
       [Host.writeFile (Interpreter.tempFilePath w) code])).
  { unfold Interpreter.execute_spawning. rewrite Hwrite.
    unfold Interpreter.sanitizeCode. destruct (JS.truthy _); reflexivity. }
  subst run. unfold Interpreter.executeCode.
  destruct (Interpreter.lints_first hp this options) eqn:Hgate.
  - set (strict := JS.Present _).
    pose proof (lintCode_setup (Interpreter.linter this) (Interpreter.lint w)
                  code strict) as Hl.
    pose proof (lintCode_settles (Interpreter.linter this) (Interpreter.lint w)
                  code strict) as Hsettles.
    destruct (Linter.lintCode (Interpreter.linter this) (Interpreter.lint w)
                code strict) as [[|lintResult|reason] fx];
      cbn [fst snd] in *; [| |destruct Hsettles].
    + split; [|split; [|split]]; try discriminate.
      rewrite flat_map_setup
        by (intros [] He; try reflexivity; discriminate).
      rewrite Hl. destruct (Linter.writeFile_fails (Interpreter.lint w));
        reflexivity.
    + assert (Hfx : flat_map Trace.runs fx = []).
      { rewrite flat_map_setup
          by (intros [] He; try reflexivity; discriminate).
        rewrite Hl. destruct (Linter.writeFile_fails (Interpreter.lint w));
          reflexivity. }
      destruct (negb (PythonLintResult.isValid lintResult)).
      * cbn [fst snd]. split; [exact Hfx|]. split; [discriminate|].
        split; [|discriminate].
        intros result [= <-]. repeat split.
      * rewrite Hspawning. cbn [fst snd].
        split; [rewrite flat_map_app, Hfx; reflexivity|].
        split; [discriminate|]. split; [|discriminate].
        intros result [= <-]. repeat split.
  - rewrite Hspawning. cbn [fst snd].
    split; [reflexivity|]. split; [discriminate|]. split; [|reflexivity].
    intros result [= <-]. repeat split.
Qed.

Lemma executeCode_write_failure_witness :
  let made := Interpreter.new Sample.host Sample.heap InterpreterConfig.empty in
  let run :=
    Interpreter.executeCode Sample.host (snd made) (fst made)
      Sample.read_only_world "print(1)"
      (Sample.options_with JS.Absent JS.Absent (JS.Present false)) in
  flat_map Trace.runs (snd run) = []
  /\ fst run
     = Host.resolved
         (PythonExecutionResult.mk false ""
            "Execution failed: EROFS: read-only file system" 1 6).
Proof.
  intros made run.
  destruct (executeCode_write_failure Sample.host (snd made) (fst made)
              Sample.read_only_world "print(1)"
              (Sample.options_with JS.Absent JS.Absent (JS.Present false))
              "EROFS: read-only file system" eq_refl)
    as (Hruns & _ & _ & Hresult).
  split; [exact Hruns | exact (Hresult eq_refl)].
Defined.

(** ** The compile check *)

(** The compile check's promise resolves with its first ['close'] or
    ['error']. *)
Lemma checkSyntax_listen_chunks (chunks rest : ChildProcess.script)
    (ev : Z * ChildProcess.event) (stderr : string) :
  Trace.all_data chunks = true ->
  Trace.is_data ev = false ->
  Linter.checkSyntax_listen (chunks ++ ev :: rest) stderr
  = match snd ev with
    | ChildProcess.close code =>
        Some (Linter.checkSyntax_on_close code
                (stderr +:+ Trace.stderr_text chunks))
    | ChildProcess.error message => Some (Linter.checkSyntax_on_error message)
    | _ => None
    end.
Proof.
  revert stderr. induction chunks as [|[now e] chunks IH]; intros stderr Hdata Hev.
  - destruct ev as [t [chunk|chunk|code|message]]; try discriminate; cbn.
    + now rewrite string_app_nil_r.
    + reflexivity.
  - cbn [Trace.all_data forallb] in Hdata.
    apply andb_true_iff in Hdata. destruct Hdata as [He Hrest].
    destruct e as [chunk|chunk|code|message]; try discriminate;
      cbn [app Linter.checkSyntax_listen]; rewrite IH by assumption;
      destruct ev as [t [c|c|code|message]]; try discriminate; cbn;
      rewrite ?string_app_assoc; reflexivity.
Qed.

Lemma checkSyntax_listen_pending (events : ChildProcess.script)
    (stderr : string) :
  Linter.checkSyntax_listen events stderr = None
  <-> Trace.all_data events = true.
Proof.
  revert stderr. induction events as [|[now e] events IH]; intros stderr.
  - split; reflexivity.
  - destruct e as [chunk|chunk|code|message]; cbn; rewrite ?IH;
      split; auto; discriminate.
Qed.

(** X14: [lintCode] never rejects, and its promise stays pending exactly when the
    snippet was written and the compile check was started but reports
    neither ['close'] nor ['error']. *)
Theorem lintCode_never_rejects (self : Linter.PythonLinter)
    (w : Linter.world) (code : string) (strict : JS.slot bool) :
  (forall reason,
     fst (Linter.lintCode self w code strict) <> Host.rejected reason)
  /\ (fst (Linter.lintCode self w code strict) = Host.pending
      <-> Linter.writeFile_fails w = None
          /\ exists events,
               Linter.py_compile w = ChildProcess.child events
               /\ Trace.all_data events = true).
Proof.
  unfold Linter.lintCode, Linter.checkSyntax.
  destruct (Linter.writeFile_fails w) as [message|]; cbn [fst].
  - split; [discriminate|]. split; [discriminate|]. intros [? _]. discriminate.
  - destruct (Linter.py_compile w) as [message|events]; cbn [fst].
    + split; [discriminate|]. split; [discriminate|].
      intros [_ (events & ? & _)]. discriminate.
    + destruct (Linter.checkSyntax_listen events "") as [errors|] eqn:E;
        cbn [fst].
      * split; [discriminate|]. split; [discriminate|].
        intros [_ (events' & [= <-] & Hdata)].
        apply checkSyntax_listen_pending with (stderr := ""%string) in Hdata.
        congruence.
      * split; [discriminate|]. split; [|reflexivity]. intros _.
        split; [reflexivity|]. exists events. split; [reflexivity|].
        now apply checkSyntax_listen_pending with (stderr := ""%string).
Qed.

(** X15: a compile check that exits with code 0, or one that exits otherwise but
    whose stderr names neither a SyntaxError nor an IndentationError, leaves
    the snippet valid: the result has no error. *)
Theorem lintCode_valid_without_marker (self : Linter.PythonLinter)
    (w : Linter.world) (code : string) (strict : JS.slot bool)
    (chunks rest : ChildProcess.script) (closed : Z) (exit : option Z) :
  Linter.writeFile_fails w = None ->
  Linter.py_compile w
  = ChildProcess.child (chunks ++ (closed, ChildProcess.close exit) :: rest) ->
  Trace.all_data chunks = true ->
  exit = Some 0
  \/ (forall line,
        In line (JS.split_lines (Trace.stderr_text chunks)) ->
        Linter.includes "SyntaxError" line = false
        /\ Linter.includes "IndentationError" line = false) ->
  exists result fx,
    Linter.lintCode self w code strict = (Host.resolved result, fx)
    /\ PythonLintResult.isValid result = true
    /\ PythonLintResult.errors result = [].
Proof.
  intros Hwrite Hcompile Hdata Hquiet.
  assert (Herrors :
    Linter.checkSyntax_on_close exit (Trace.stderr_text chunks) = []).
  { unfold Linter.checkSyntax_on_close.
    destruct Hquiet as [->|Hquiet]; [reflexivity|].
    destruct (_ && _); [|reflexivity].
    induction (JS.split_lines (Trace.stderr_text chunks)) as [|line lines IH];
      [reflexivity|].
    cbn [flat_map]. rewrite IH by (intros l Hl; apply Hquiet; now right).
    unfold Linter.syntax_error_of_line.
    destruct (Hquiet line (or_introl eq_refl)) as [-> ->]. reflexivity. }
  unfold Linter.lintCode, Linter.checkSyntax.
  rewrite Hwrite, Hcompile.
  rewrite checkSyntax_listen_chunks by (try exact Hdata; reflexivity).
  cbn [snd]. change ("" +:+ Trace.stderr_text chunks)%string
    with (Trace.stderr_text chunks).
  rewrite Herrors. eexists. eexists. split; [reflexivity|].
  split; reflexivity.
Qed.

Lemma lintCode_valid_without_marker_witness :
  exists result fx,
    Linter.lintCode (Linter.new None "/tmp") Sample.tab_error_lint
      "if True:" (JS.Present true)
    = (Host.resolved result, fx)
    /\ PythonLintResult.isValid result = true
    /\ PythonLintResult.errors result = [].
Proof.
  apply (lintCode_valid_without_marker (Linter.new None "/tmp")
           Sample.tab_error_lint "if True:" (JS.Present true)
           [(2, ChildProcess.stderr_data Sample.tab_error_report)]
           [] 3 (Some 1) eq_refl eq_refl eq_refl).
  right. intros line [<-|[]]. split; reflexivity.
Defined.

(** ** The shape of errors and warnings *)

Lemma parseInt_from_nonneg (ds : string) (acc : Z) :
  0 <= acc -> 0 <= Linter.parseInt_from acc (Linter.take_digits ds).
Proof.
  revert acc. induction ds as [|c ds IH]; intros acc Hacc; cbn; [exact Hacc|].
  destruct (JS.is_digit c) eqn:Hc; cbn; [|exact Hacc].
  apply IH. unfold JS.is_digit in Hc. apply andb_true_iff in Hc.
  destruct Hc as [Hlow _]. apply N.leb_le in Hlow. lia.
Qed.

Lemma match_line_digits_digits (s ds : string) :
  Linter.match_line_digits s = Some ds ->
  exists rest, ds = Linter.take_digits rest.
Proof.
  induction s as [|c s IH]; cbn [Linter.match_line_digits].
  - destruct (String.prefix "line " ""); [|discriminate].
    destruct (Linter.take_digits (Linter.drop 5 "")) eqn:E; [discriminate|].
    intros [= <-]. eexists. symmetry. exact E.
  - destruct (String.prefix "line " (String c s)).
    + destruct (Linter.take_digits (Linter.drop 5 (String c s))) eqn:E;
        [exact IH|]. intros [= <-]. eexists. symmetry. exact E.
    + exact IH.
Qed.

(** X16: every error of a lint result is in column 1, has severity [error] and a
    line number that is not negative. *)
Theorem lintCode_error_shape (self : Linter.PythonLinter) (w : Linter.world)
    (code : string) (strict : JS.slot bool) (result : PythonLintResult.t)
    (fx : list Host.effect) :
  Linter.lintCode self w code strict = (Host.resolved result, fx) ->
  Forall
    (fun e => LintError.column e = 1
              /\ LintError.severity e = LintError.error
              /\ 0 <= LintError.line e)
    (PythonLintResult.errors result).
Proof.
  assert (Hline : forall line,
    Forall
      (fun e => LintError.column e = 1
                /\ LintError.severity e = LintError.error
                /\ 0 <= LintError.line e)
      (Linter.syntax_error_of_line line)).
  { intros line. unfold Linter.syntax_error_of_line.
    destruct (_ || _); [|constructor].
    constructor; [|constructor]. cbn. repeat split.
    destruct (Linter.match_line_digits line) as [ds|] eqn:E; [|lia].
    destruct (match_line_digits_digits line ds E) as [rest ->].
    apply parseInt_from_nonneg. lia. }
  assert (Hclose : forall exit stderr,
    Forall
      (fun e => LintError.column e = 1
                /\ LintError.severity e = LintError.error
                /\ 0 <= LintError.line e)
      (Linter.checkSyntax_on_close exit stderr)).
  { intros exit stderr. unfold Linter.checkSyntax_on_close.
    destruct (_ && _); [|constructor].
    induction (JS.split_lines stderr) as [|line lines IH]; [constructor|].
    cbn [flat_map]. apply Forall_app. split; [apply Hline|exact IH]. }
  assert (Hlisten : forall events stderr errors,
    Linter.checkSyntax_listen events stderr = Some errors ->
    Forall
      (fun e => LintError.column e = 1
                /\ LintError.severity e = LintError.error
                /\ 0 <= LintError.line e) errors).
  { induction events as [|[now ev] events IH]; intros stderr errors;
      [discriminate|].
    destruct ev as [chunk|chunk|exit|message]; cbn [Linter.checkSyntax_listen].
    - apply IH.
    - apply IH.
    - intros [= <-]. apply Hclose.
    - intros [= <-]. repeat constructor. cbn. lia. }
  unfold Linter.lintCode, Linter.lintCode_catch, Linter.checkSyntax.
  destruct (Linter.writeFile_fails w) as [message|].
  - intros [= <- _]. repeat constructor. cbn. lia.
  - destruct (Linter.py_compile w) as [message|events].
    + intros [= <- _]. repeat constructor. cbn. lia.
    + destruct (Linter.checkSyntax_listen events "") as [errors|] eqn:E;
        [|discriminate].
      intros [= <- _]. cbn. now apply Hlisten with (events := events) (stderr := ""%string).
Qed.

Lemma lintCode_error_shape_witness :
  let errors :=
    [LintError.mk 2 1 "File x.py, line 2 SyntaxError: invalid syntax"
       LintError.error (Some "syntax-error"%string)] in
  fst (Linter.lintCode (Linter.new None "/tmp") Sample.failing_lint "print(("
         (JS.Present true))
  = Host.resolved (PythonLintResult.mk false errors [])
  /\ Forall
       (fun e => LintError.column e = 1
                 /\ LintError.severity e = LintError.error
                 /\ 0 <= LintError.line e)
       errors.
Proof.
  intros errors. split; [reflexivity|].
  exact (lintCode_error_shape (Linter.new None "/tmp") Sample.failing_lint
           "print((" (JS.Present true) (PythonLintResult.mk false errors [])
           _ eq_refl).
Defined.

Lemma check_line_shape (index : nat) (line : string) :
  Forall
    (fun warning =>
       LintWarning.line warning = Z.of_nat index + 1
       /\ LintWarning.column warning = 1
       /\ LintWarning.rule warning = Some "security-warning"%string
       /\ In (LintWarning.message warning) (map snd Linter.dangerousPatterns))
    (Linter.check_line index line).
Proof.
  unfold Linter.check_line.
  assert (H : forall entries,
    incl entries Linter.dangerousPatterns ->
    Forall
      (fun warning =>
         LintWarning.line warning = Z.of_nat index + 1
         /\ LintWarning.column warning = 1
         /\ LintWarning.rule warning = Some "security-warning"%string
         /\ In (LintWarning.message warning)
              (map snd Linter.dangerousPatterns))
      (flat_map
         (fun entry : Regex.t * string =>
            if Regex.test (fst entry) line
            then [LintWarning.mk (Z.of_nat index + 1) 1 (snd entry)
                    (Some "security-warning"%string)]
            else []) entries)).
  { induction entries as [|entry entries IH]; intros Hincl; [constructor|].
    cbn [flat_map]. apply Forall_app. split.
    - destruct (Regex.test (fst entry) line); [|constructor].
      constructor; [|constructor].
      cbn [LintWarning.line LintWarning.column LintWarning.rule
           LintWarning.message].
      split; [reflexivity|]. split; [reflexivity|]. split; [reflexivity|].
      apply in_map. apply Hincl. now left.
    - apply IH. intros e He. apply Hincl. now right. }
  apply H. apply incl_refl.
Qed.

Lemma forEach_line_sorted (lines : list string) (start : nat) :
  Forall (fun warning => Z.of_nat start + 1 <= LintWarning.line warning)
    (Linter.forEach_line start lines)
  /\ Sorted Z.le (map LintWarning.line (Linter.forEach_line start lines)).
Proof.
  revert start. induction lines as [|line lines IH]; intros start.
  - split; constructor.
  - destruct (IH (S start)) as [Hlow Hsorted]. cbn [Linter.forEach_line].
    pose proof (check_line_shape start line) as Hshape.
    split.
    + apply Forall_app. split.
      * eapply List.Forall_impl; [|exact Hshape]. cbn. intros a (-> & _). lia.
      * eapply List.Forall_impl; [|exact Hlow]. cbn. intros a Ha. lia.
    + rewrite map_app.
      induction Hshape as [|a here (Ha & _) Hhere IHhere]; [exact Hsorted|].
      cbn [map app]. constructor; [exact IHhere|].
      destruct here as [|b here].
      * cbn [map app].
        destruct (Linter.forEach_line (S start) lines) as [|c more];
          constructor.
        apply Forall_inv in Hlow. lia.
      * cbn [map app]. constructor.
        apply Forall_inv in Hhere. destruct Hhere as (-> & _). lia.
Qed.

(** X17: the warnings of the heuristic stage come in the order of the lines of
    the snippet; each one carries the number of a line of the snippet
    (counted from 1), column 1, the rule [security-warning] and one of the
    messages of the pattern table. *)
Theorem heuristic_warnings_shape (code : string) :
  Sorted Z.le
    (map LintWarning.line (Linter.performBasicSecurityCheck code))
  /\ Forall
       (fun warning =>
          1 <= LintWarning.line warning
             <= Z.of_nat (length (JS.split_lines code))
          /\ LintWarning.column warning = 1
          /\ LintWarning.rule warning = Some "security-warning"%string
          /\ In (LintWarning.message warning)
               (map snd Linter.dangerousPatterns))
       (Linter.performBasicSecurityCheck code).
Proof.
  unfold Linter.performBasicSecurityCheck.
  split; [apply (forEach_line_sorted (JS.split_lines code) 0)|].
  apply List.Forall_forall. intros warning Hin.
  apply forEach_line_spec in Hin.
  destruct Hin as (index & line & Hnth & Hin).
  pose proof (check_line_shape (0 + index) line) as Hshape.
  rewrite List.Forall_forall in Hshape.
  destruct (Hshape warning Hin) as (Hline & Hcolumn & Hrule & Hmessage).
  assert (index < length (JS.split_lines code))%nat
    by (apply nth_error_Some; congruence).
  repeat split; try assumption; lia.
Qed.

(** ** The other constructors of utils.ts *)

(** X18: unlike [createInterpreter], [createUnsafeInterpreter] forces nothing:
    its unsafe settings are defaults, and every property the caller supplies
    wins, the two safety flags included. It always warns on the console. *)
Theorem createUnsafeInterpreter_defaults (h : Interpreter.host)
    (hp : gmap loc Heap.object) (config : InterpreterConfig.t) :
  let created := Utils.createUnsafeInterpreter h hp config in
  let policy :=
    Heap.config_at (snd (fst created)) (Interpreter.config (fst (fst created))) in
  InterpreterConfig.enableLinting policy
  = match InterpreterConfig.enableLinting config with
    | JS.Absent => JS.Present false
    | given => given
    end
  /\ InterpreterConfig.allowUnsafeOperations policy
     = match InterpreterConfig.allowUnsafeOperations config with
       | JS.Absent => JS.Present true
       | given => given
       end
  /\ InterpreterConfig.timeout policy
     = match InterpreterConfig.timeout config with
       | JS.Absent => JS.Present 0
       | given => given
       end
  /\ InterpreterConfig.maxOutputLines policy
     = match InterpreterConfig.maxOutputLines config with
       | JS.Absent => JS.Present JS.MAX_SAFE_INTEGER
       | given => given
       end
  /\ InterpreterConfig.pythonPath policy
     = match InterpreterConfig.pythonPath config with
       | JS.Absent => JS.Present "python3"%string
       | given => given
       end
  /\ exists message, snd created = [Host.console_warn message].
Proof.
  intros created policy. subst created policy.
  unfold Utils.createUnsafeInterpreter. cbn [fst snd]. rewrite new_policy.
  destruct config as [pp to mol el au wd en]. cbn.
  split; [destruct el; reflexivity|]. split; [destruct au; reflexivity|].
  split; [destruct to; reflexivity|]. split; [destruct mol; reflexivity|].
  split; [destruct pp; reflexivity|]. eexists. reflexivity.
Qed.

(** X19: [createQuickInterpreter] lets the caller's configuration win over the
    preset, and the preset over the defaults of the constructor; a preset
    warns on the console exactly when it allows unsafe operations. *)
Theorem createQuickInterpreter_precedence (h : Interpreter.host)
    (hp : gmap loc Heap.object) (p : Utils.preset)
    (customConfig : InterpreterConfig.t) :
  let created := Utils.createQuickInterpreter h hp p customConfig in
  let policy :=
    Heap.config_at (snd (fst created)) (Interpreter.config (fst (fst created))) in
  policy
  = InterpreterConfig.spread (Interpreter.defaults h)
      (InterpreterConfig.spread (Utils.baseConfig p) customConfig)
  /\ InterpreterConfig.enableLinting policy
     = match InterpreterConfig.enableLinting customConfig with
       | JS.Absent => InterpreterConfig.enableLinting (Utils.baseConfig p)
       | given => given
       end
  /\ InterpreterConfig.allowUnsafeOperations policy
     = match InterpreterConfig.allowUnsafeOperations customConfig with
       | JS.Absent =>
           InterpreterConfig.allowUnsafeOperations (Utils.baseConfig p)
       | given => given
       end
  /\ InterpreterConfig.timeout policy
     = match InterpreterConfig.timeout customConfig with
       | JS.Absent => InterpreterConfig.timeout (Utils.baseConfig p)
       | given => given
       end
  /\ InterpreterConfig.maxOutputLines policy
     = match InterpreterConfig.maxOutputLines customConfig with
       | JS.Absent => InterpreterConfig.maxOutputLines (Utils.baseConfig p)
       | given => given
       end
  /\ InterpreterConfig.pythonPath policy
     = match InterpreterConfig.pythonPath customConfig with
       | JS.Absent => JS.Present "python3"%string
       | given => given
       end
  /\ (snd created = []
      <-> InterpreterConfig.allowUnsafeOperations (Utils.baseConfig p)
          = JS.Present false).
Proof.
  intros created policy. subst created policy.
  unfold Utils.createQuickInterpreter. cbn [fst snd]. rewrite new_policy.
  split; [reflexivity|].
  destruct customConfig as [pp to mol el au wd en].
  split; [destruct p, el; reflexivity|].
  split; [destruct p, au; reflexivity|].
  split; [destruct p, to; reflexivity|].
  split; [destruct p, mol; reflexivity|].
  split; [destruct p, pp; reflexivity|].
  destruct p; cbn; split; (reflexivity || discriminate).
Qed.

(** X20: [checkPythonAvailability] resolves to [true] exactly when the child's
    first ['close'] comes before any ['error'] and carries exit code 0; a
    failed spawn that reports ['error'] resolves it to [false] and never
    rejects it. *)
Theorem checkPythonAvailability_true_iff (events : ChildProcess.script) :
  (Utils.checkPythonAvailability (ChildProcess.child events)
   = Host.resolved true
   <-> exists chunks closed rest,
         events = chunks ++ (closed, ChildProcess.close (Some 0)) :: rest
         /\ Trace.all_data chunks = true)
  /\ (forall reason,
        Utils.checkPythonAvailability (ChildProcess.child events)
        <> Host.rejected reason)
  /\ (forall chunks failed message rest,
        events = chunks ++ (failed, ChildProcess.error message) :: rest ->
        Trace.all_data chunks = true ->
        Utils.checkPythonAvailability (ChildProcess.child events)
        = Host.resolved false).
Proof.
  unfold Utils.checkPythonAvailability.
  assert (Hlisten : forall evs,
    Utils.availability_listen evs = Some true
    <-> exists chunks closed rest,
          evs = chunks ++ (closed, ChildProcess.close (Some 0)) :: rest
          /\ Trace.all_data chunks = true).
  { induction evs as [|[now ev] evs IH]; cbn [Utils.availability_listen].
    - split; [discriminate|]. intros (chunks & c & r & H & _).
      destruct chunks; discriminate.
    - destruct ev as [chunk|chunk|code|message].
      + rewrite IH. split.
        * intros (chunks & c & r & -> & Hd).
          exists ((now, ChildProcess.stdout_data chunk) :: chunks), c, r.
          split; [reflexivity|exact Hd].
        * intros (chunks & c & r & H & Hd). destruct chunks as [|e chunks];
            [discriminate|]. injection H as <- ->.
          apply andb_true_iff in Hd. destruct Hd as [_ Hd]. eauto.
      + rewrite IH. split.
        * intros (chunks & c & r & -> & Hd).
          exists ((now, ChildProcess.stderr_data chunk) :: chunks), c, r.
          split; [reflexivity|exact Hd].
        * intros (chunks & c & r & H & Hd). destruct chunks as [|e chunks];
            [discriminate|]. injection H as <- ->.
          apply andb_true_iff in Hd. destruct Hd as [_ Hd]. eauto.
      + split.
        * intros [= H]. destruct code as [n|]; [|discriminate].
          cbn in H. apply Z.eqb_eq in H. subst n.
          exists [], now, evs. split; reflexivity.
        * intros (chunks & c & r & H & Hd). destruct chunks as [|e chunks].
          -- injection H as -> -> ->. reflexivity.
          -- injection H as <- ->. discriminate.
      + split; [discriminate|].
        intros (chunks & c & r & H & Hd). destruct chunks as [|e chunks];
          [discriminate|]. injection H as <- ->. discriminate. }
  split; [|split].
  - rewrite <- Hlisten.
    destruct (Utils.availability_listen events) as [[|]|];
      split; congruence.
  - intros reason. destruct (Utils.availability_listen events); discriminate.
  - intros chunks failed message rest -> Hd.
    replace (Utils.availability_listen
               (chunks ++ (failed, ChildProcess.error message) :: rest))
      with (Some false); [reflexivity|].
    induction chunks as [|[now ev] chunks IH]; [reflexivity|].
    apply andb_true_iff in Hd. destruct Hd as [He Hd].
    destruct ev; try discriminate; cbn; now apply IH.
Qed.

(** ** unsafeFileOperation *)

(** X21: [unsafeFileOperation] touches the file system at most once and only for
    [read], [write] and [delete]; for any other operation it calls nothing
    and rejects, naming the operation. It rejects exactly when the call into
    the file system throws or the operation is unknown, and every rejection
    starts with [File operation failed: ]. *)
Theorem unsafeFileOperation_outcomes
    (fs : FileOperation.call -> FileOperation.outcome) (operation : string)
    (args : list string) :
  let run := FileOperation.unsafeFileOperation fs operation args in
  (length (snd run) <= 1)%nat
  /\ (In operation ["read"; "write"; "delete"]%string -> length (snd run) = 1%nat)
  /\ (~ In operation ["read"; "write"; "delete"]%string ->
      run = (Host.rejected
               ("File operation failed: Unknown operation: " +:+ operation),
             []))
  /\ fst run <> Host.pending
  /\ (forall reason,
        fst run = Host.rejected reason ->
        exists cause,
          reason = ("File operation failed: " +:+ cause)%string
          /\ (cause = ("Unknown operation: " +:+ operation)%string
              \/ exists call, snd run = [call]
                              /\ fs call = FileOperation.throws cause)).
Proof.
  intros run. subst run. unfold FileOperation.unsafeFileOperation.
  assert (Hattempt : forall call,
    let r := FileOperation.attempt fs call in
    snd r = [call]
    /\ fst r <> Host.pending
    /\ forall reason, fst r = Host.rejected reason ->
         exists cause, reason = ("File operation failed: " +:+ cause)%string
                       /\ fs call = FileOperation.throws cause).
  { intros call. unfold FileOperation.attempt.
    destruct (fs call) as [value|cause]; cbn.
    - split; [reflexivity|]. split; [discriminate|]. discriminate.
    - split; [reflexivity|]. split; [discriminate|].
      intros reason [= <-]. eauto. }
  assert (Hknown : forall call,
    In operation ["read"; "write"; "delete"]%string ->
    let run := FileOperation.attempt fs call in
    (length (snd run) <= 1)%nat
    /\ (In operation ["read"; "write"; "delete"]%string ->
        length (snd run) = 1%nat)
    /\ (~ In operation ["read"; "write"; "delete"]%string ->
        run = (Host.rejected
                 ("File operation failed: Unknown operation: " +:+ operation),
               []))
    /\ fst run <> Host.pending
    /\ (forall reason,
          fst run = Host.rejected reason ->
          exists cause,
            reason = ("File operation failed: " +:+ cause)%string
            /\ (cause = ("Unknown operation: " +:+ operation)%string
                \/ exists c, snd run = [c]
                             /\ fs c = FileOperation.throws cause))).
  { intros call Hin. destruct (Hattempt call) as (Hcalls & Hsettled & Hrejected).
    cbv zeta in *. rewrite Hcalls.
    split; [cbn; lia|]. split; [reflexivity|].
    split; [intros Hno; destruct (Hno Hin)|]. split; [exact Hsettled|].
    intros reason Hreason.
    destruct (Hrejected reason Hreason) as (cause & -> & Hcause).
    exists cause. split; [reflexivity|]. right. eauto. }
  destruct (String.eqb operation "read") eqn:Er;
    [apply Hknown; apply String.eqb_eq in Er; subst; cbn; auto|].
  destruct (String.eqb operation "write") eqn:Ew;
    [apply Hknown; apply String.eqb_eq in Ew; subst; cbn; auto|].
  destruct (String.eqb operation "delete") eqn:Ed;
    [apply Hknown; apply String.eqb_eq in Ed; subst; cbn; auto|].
  apply String.eqb_neq in Er, Ew, Ed.
  split; [cbn; lia|]. split.
  { cbn. intros [H|[H|[H|[]]]]; congruence. }
  split; [reflexivity|]. split; [discriminate|].
  intros reason [= <-]. eexists. split; [reflexivity|]. now left.
Qed.

(** ** The files of a call *)

(** A property of the calls of a log that the listeners keep is kept by
    the whole run. *)
Lemma event_loop_log_invariant (P : Host.effect -> Prop)
    (l : Interpreter.listeners) (fireAt : Z) (events : ChildProcess.script)
    (x : Interpreter.execution) :
  (forall now ev y,
     Forall P (Interpreter.log y) ->
     Forall P (Interpreter.log (Interpreter.dispatch l now ev y))) ->
  (forall y,
     Forall P (Interpreter.log y) ->
     Forall P (Interpreter.log (Interpreter.expire l fireAt y))) ->
  Forall P (Interpreter.log x) ->
  Forall P (Interpreter.log (Interpreter.event_loop l fireAt events x)).
Proof.
  intros Hdispatch Hexpire. revert x.
  induction events as [|[now ev] rest IH]; intros x Hx;
    cbn [Interpreter.event_loop].
  - destruct (Interpreter.timer_armed x); [now apply Hexpire|exact Hx].
  - destruct (Interpreter.timer_armed x && (fireAt <=? now));
      [now apply Hexpire|]. apply IH. now apply Hdispatch.
Qed.

Lemma direct_log_invariant (P : Host.effect -> Prop) (filePath : string)
    (startTime fireAt : Z) (events : ChildProcess.script)
    (x : Interpreter.execution) :
  P Host.clearTimeout -> P Host.kill -> P (Host.unlink filePath) ->
  Forall P (Interpreter.log x) ->
  Forall P
    (Interpreter.log
       (Interpreter.event_loop
          (Interpreter.direct_listeners filePath startTime) fireAt events x)).
Proof.
  intros Hclear Hkill Hunlink.
  assert (Hclose : forall now code y,
    Forall P (Interpreter.log y) ->
    Forall P
      (Interpreter.log
         (Interpreter.direct_on_close filePath startTime now code y))).
  { intros now code y Hy.
    cbn [Interpreter.direct_on_close Interpreter.calling Interpreter.settle
         Interpreter.release Interpreter.log].
    unfold Interpreter.cleanupTempFile.
    repeat (apply Forall_app; split); auto. }
  apply event_loop_log_invariant.
  - intros now ev y Hy. destruct ev as [chunk|chunk|code|message];
      cbn [Interpreter.dispatch Interpreter.direct_listeners
           Interpreter.on_stdout Interpreter.on_stderr Interpreter.on_close
           Interpreter.on_error].
    + exact Hy.
    + exact Hy.
    + now apply Hclose.
    + cbn [Interpreter.direct_on_error Interpreter.settle Interpreter.release
           Interpreter.log].
      apply Forall_app; split; auto.
  - intros y Hy. unfold Interpreter.expire.
    cbn [Interpreter.direct_listeners Interpreter.on_close
         Interpreter.on_timer].
    apply Hclose.
    cbn [Interpreter.direct_on_timer Interpreter.calling Interpreter.fired
         Interpreter.log].
    apply Forall_app; split; auto.
Qed.

Lemma streaming_log_invariant (P : Host.effect -> Prop)
    (hp : gmap loc Heap.object) (this : Interpreter.PythonInterpreter)
    (w : Interpreter.world) (filePath : string)
    (startTime fireAt : Z) (events : ChildProcess.script)
    (x : Interpreter.execution) :
  P Host.clearTimeout -> P Host.kill -> P (Host.unlink filePath) ->
  (forall e, P (Host.emit e)) -> (forall message, P (Host.uncaught message)) ->
  Forall P (Interpreter.log x) ->
  Forall P
    (Interpreter.log
       (Interpreter.event_loop
          (Interpreter.streaming_listeners hp this w filePath startTime)
          fireAt events x)).
Proof.
  intros Hclear Hkill Hunlink Hemit Huncaught.
  assert (Hclose : forall now code y,
    Forall P (Interpreter.log y) ->
    Forall P
      (Interpreter.log
         (Interpreter.streaming_on_close w filePath startTime now code y))).
  { intros now code y Hy. unfold Interpreter.streaming_on_close.
    cbn [Interpreter.calling Interpreter.settle Interpreter.release
         Interpreter.log].
    unfold Interpreter.cleanupTempFile.
    destruct (Interpreter.random_gt_03 w);
      repeat (apply Forall_app; split); auto. }
  apply event_loop_log_invariant.
  - intros now ev y Hy. destruct ev as [chunk|chunk|code|message];
      cbn [Interpreter.dispatch Interpreter.streaming_listeners
           Interpreter.on_stdout Interpreter.on_stderr Interpreter.on_close
           Interpreter.on_error].
    + unfold Interpreter.streaming_on_stdout.
      destruct (_ || _);
        cbn [Interpreter.calling Interpreter.capture Interpreter.log];
        [apply Forall_app; split; auto|exact Hy].
    + unfold Interpreter.streaming_on_stderr.
      cbn [Interpreter.calling Interpreter.capture Interpreter.log].
      apply Forall_app; split; auto.
    + now apply Hclose.
    + unfold Interpreter.streaming_on_error.
      destruct (Interpreter.has_error_listener w);
        cbn [Interpreter.calling Interpreter.settle Interpreter.release
             Interpreter.log];
        repeat (apply Forall_app; split); auto.
  - intros y Hy. unfold Interpreter.expire.
    cbn [Interpreter.streaming_listeners Interpreter.on_close
         Interpreter.on_timer].
    apply Hclose. unfold Interpreter.streaming_on_timer.
    cbn [Interpreter.calling Interpreter.fired Interpreter.log].
    apply Forall_app; split; auto.
Qed.

Lemma lintCode_touches_only (self : Linter.PythonLinter) (w : Linter.world)
    (code : string) (strict : JS.slot bool) (paths : list string) :
  In (Linter.tempFilePath w) paths ->
  Forall (Trace.touches_only paths code)
    (snd (Linter.lintCode self w code strict)).
Proof.
  intros Hin. unfold Linter.lintCode, Linter.cleanupTempFile.
  destruct (Linter.writeFile_fails w); cbn [snd];
    [repeat constructor; exact Hin|].
  destruct (Linter.checkSyntax w); cbn [snd];
    try (repeat constructor; exact Hin).
  destruct (Linter.random_gt_08 w), (Linter.unlink_fails w); cbn;
    repeat constructor; exact Hin.
Qed.

Lemma execute_spawning_touches_only (h : Interpreter.host)
    (hp : gmap loc Heap.object) (this : Interpreter.PythonInterpreter)
    (w : Interpreter.world) (code : string) (options : ExecutionOptions.t)
    (paths : list string) :
  In (Interpreter.tempFilePath w) paths ->
  Forall (Trace.touches_only paths code)
    (snd (Interpreter.execute_spawning h hp this w code options)).
Proof.
  intros Hin. unfold Interpreter.execute_spawning, Interpreter.sanitizeCode.
  assert (Hwrite : forall unsafe : bool,
    Trace.touches_only paths code
      (Host.writeFile (Interpreter.tempFilePath w)
         (if unsafe then code else code))).
  { intros []; split; auto. }
  destruct (Interpreter.writeFile_fails w); cbn [snd].
  - constructor; [apply Hwrite|constructor].
  - constructor; [apply Hwrite|].
    destruct (JS.truthy (JS.get (ExecutionOptions.stream options))).
    + unfold Interpreter.executeWithStreaming.
      destruct (Interpreter.python w) as [message|events];
        [repeat constructor|].
      apply streaming_log_invariant; cbn; auto. repeat constructor.
    + unfold Interpreter.executeDirectly.
      destruct (Interpreter.python w) as [message|events];
        [repeat constructor|].
      apply direct_log_invariant; cbn; auto. repeat constructor.
Qed.

Lemma executeCode_touches_only (h : Interpreter.host)
    (hp : gmap loc Heap.object) (this : Interpreter.PythonInterpreter)
    (w : Interpreter.world) (code : string) (options : ExecutionOptions.t) :
  Forall
    (Trace.touches_only
       [Linter.tempFilePath (Interpreter.lint w); Interpreter.tempFilePath w]
       code)
    (snd (Interpreter.executeCode h hp this w code options)).
Proof.
  unfold Interpreter.executeCode.
  destruct (Interpreter.lints_first hp this options).
  - pose proof (lintCode_touches_only (Interpreter.linter this)
                  (Interpreter.lint w) code
                  (JS.Present
                     (negb (JS.truthy
                              (JS.get (InterpreterConfig.allowUnsafeOperations
                                         (Interpreter.this_config hp this))))))
                  [Linter.tempFilePath (Interpreter.lint w);
                   Interpreter.tempFilePath w]) as Hlint.
    destruct (Linter.lintCode _ _ _ _) as [[|lintResult|message] fx];
      cbn [snd] in *; try (apply Hlint; cbn; auto).
    destruct (negb (PythonLintResult.isValid lintResult));
      [apply Hlint; cbn; auto|].
    pose proof (execute_spawning_touches_only h hp this w code options
                  [Linter.tempFilePath (Interpreter.lint w);
                   Interpreter.tempFilePath w]) as Hrun.
    destruct (Interpreter.execute_spawning h hp this w code options)
      as [p fx'].
    cbn [snd] in *. apply Forall_app. split.
    + apply Hlint. cbn. auto.
    + apply Hrun. cbn. auto.
  - apply execute_spawning_touches_only. cbn. auto.
Qed.

(** X22: the snippet reaches the file system as it is: whatever the policy
    and the options, every file that [executeCode] or [executeUnsafe]
    writes holds exactly the snippet, and the only files they write or
    delete are the temporary file of the linter and the script file. The
    runs themselves, in either mode, write no file at all, and delete none
    but the script file they were given. *)
Theorem snippet_written_verbatim (h : Interpreter.host)
    (hp : gmap loc Heap.object) (this : Interpreter.PythonInterpreter)
    (w : Interpreter.world) (code : string) (options : ExecutionOptions.t)
    (context : UnsafeExecutionContext.t) :
  let files :=
    [Linter.tempFilePath (Interpreter.lint w); Interpreter.tempFilePath w] in
  Forall (Trace.touches_only files code)
    (snd (Interpreter.executeCode h hp this w code options))
  /\ Forall (Trace.touches_only files code)
       (snd (fst (Interpreter.executeUnsafe h hp this w code context)))
  /\ (forall filePath startTime,
        Forall (Trace.writes_nothing filePath)
          (Interpreter.log
             (Interpreter.executeDirectly h hp this w filePath options
                startTime))
        /\ Forall (Trace.writes_nothing filePath)
             (Interpreter.log
                (Interpreter.executeWithStreaming hp this w filePath options
                   startTime))).
Proof.
  intros files. split; [apply executeCode_touches_only|].
  split.
  - unfold Interpreter.executeUnsafe. cbv zeta.
    destruct (Interpreter.executeCode h _ this w code _) as [p fx] eqn:Hrun.
    cbn [fst snd].
    pose proof (executeCode_touches_only h
                  (Interpreter.assign_flags hp this (Some false) (Some true))
                  this w code (Interpreter.unsafeOptions hp this context))
      as Hfiles.
    rewrite Hrun in Hfiles. exact Hfiles.
  - intros filePath startTime. split.
    + unfold Interpreter.executeDirectly.
      destruct (Interpreter.python w) as [message|events];
        [repeat constructor|].
      apply direct_log_invariant; cbn; auto. repeat constructor.
    + unfold Interpreter.executeWithStreaming.
      destruct (Interpreter.python w) as [message|events];
        [repeat constructor|].
      apply streaming_log_invariant; cbn; auto. repeat constructor.
Qed.

(** X23: a failed spawn as Node reports it, ['error'] and then ['close'],
    both before the timer fires. In collecting mode the promise keeps the
    failed result of ['error'] (exit code 1, the message appended to
    stderr): the result built on ['close'] comes too late; the script file
    is deleted once, on ['close'], and nothing is killed. In streaming mode,
    when someone listens to ['error'], the promise is rejected with the
    message, and still ['complete'] is emitted afterwards, with the result
    built on ['close'], and the script file is deleted when the draw
    says so. *)
Theorem spawn_failure_error_then_close (h : Interpreter.host)
    (hp : gmap loc Heap.object) (this : Interpreter.PythonInterpreter)
    (w : Interpreter.world) (filePath : string)
    (options : ExecutionOptions.t) (startTime : Z)
    (chunks : ChildProcess.script) (failed closed : Z) (message : string)
    (code : option Z) :
  let events :=
    chunks ++ [(failed, ChildProcess.error message);
               (closed, ChildProcess.close code)] in
  Interpreter.python w = ChildProcess.child events ->
  Trace.all_data chunks = true ->
  Observe.before_timer
    (Interpreter.now_spawn w
     + Interpreter.timer_delay
         (Interpreter.setTimeout_argument
            (Interpreter.this_config hp this) options))
    events = true ->
  let direct :=
    Interpreter.executeDirectly h hp this w filePath options startTime in
  let streaming :=
    Interpreter.executeWithStreaming hp this w filePath options startTime in
  let closing :=
    PythonExecutionResult.mk (JS.strict_eq_zero code)
      (Trace.stdout_text chunks) (Trace.stderr_text chunks)
      (JS.or_zero code) (closed - startTime) in
  (Interpreter.promise direct
   = Host.resolved
       (PythonExecutionResult.mk false (Trace.stdout_text chunks)
          (Trace.stderr_text chunks +:+ message) 1 (failed - startTime))
   /\ List.filter Trace.is_unlink (Interpreter.log direct)
      = [Host.unlink filePath]
   /\ Observe.kills (Interpreter.log direct) = 0%nat
   /\ Interpreter.tracked direct = false)
  /\ (Interpreter.has_error_listener w = true ->
      Interpreter.promise streaming = Host.rejected message
      /\ Interpreter.tracked streaming = false
      /\ exists before,
           Interpreter.log streaming
           = before
             ++ [Host.clearTimeout; Host.emit (Host.error message);
                 Host.clearTimeout; Host.emit (Host.complete closing)]
             ++ (if Interpreter.random_gt_03 w
                 then [Host.unlink filePath] else [])
           /\ List.filter Trace.is_unlink before = []
           /\ Observe.kills before = 0%nat).
Proof.
  intros events Hchild Hdata Hbefore direct streaming closing.
  subst direct streaming events.
  unfold Interpreter.executeDirectly, Interpreter.executeWithStreaming.
  rewrite Hchild. split.
  - assert (Hdirect : forall x0,
      fold_left
        (fun y ev =>
           Interpreter.dispatch
             (Interpreter.direct_listeners filePath startTime)
             (fst ev) (snd ev) y)
        (chunks ++ [(failed, ChildProcess.error message);
                    (closed, ChildProcess.close code)]) x0
      = Interpreter.direct_on_close filePath startTime closed code
          (Interpreter.direct_on_error startTime failed message
             (Interpreter.capture
                (Interpreter.stdout x0 +:+ Trace.stdout_text chunks)
                (Interpreter.stderr x0 +:+ Trace.stderr_text chunks)
                (Interpreter.outputLineCount x0) x0))).
    { intros x0. rewrite fold_left_app.
      rewrite (direct_chunks filePath startTime chunks x0 Hdata).
      reflexivity. }
    rewrite event_loop_all_before;
      [|exact Hbefore|rewrite Hdirect; reflexivity].
    rewrite Hdirect.
    split; [reflexivity|]. split; [reflexivity|]. split; reflexivity.
  - intros Hheard.
    set (x0 := Interpreter.mkExecution "" "" 0 true true Host.pending _).
    set (l := Interpreter.streaming_listeners hp this w filePath startTime).
    destruct (streaming_chunks hp this w filePath startTime chunks x0 Hdata)
      as (Hout & Herr & _ & _ & Hpromise & emitted & Hlog & Hemitted).
    cbv zeta in Hout, Herr, Hpromise, Hlog.
    fold l in Hout, Herr, Hpromise, Hlog.
    assert (Hquiet : List.filter Trace.is_unlink emitted = []
                     /\ Observe.kills emitted = 0%nat).
    { clear Hlog. unfold Observe.kills.
      induction Hemitted as [|e emitted [o ->] _ IH]; [split; reflexivity|].
      exact IH. }
    assert (Hstate :
      fold_left (fun y ev => Interpreter.dispatch l (fst ev) (snd ev) y)
        (chunks ++ [(failed, ChildProcess.error message);
                    (closed, ChildProcess.close code)]) x0
      = Interpreter.streaming_on_close w filePath startTime closed code
          (Interpreter.streaming_on_error w failed message
             (fold_left
                (fun y ev => Interpreter.dispatch l (fst ev) (snd ev) y)
                chunks x0))).
    { rewrite fold_left_app. reflexivity. }
    set (y := fold_left _ chunks x0) in *.
    rewrite event_loop_all_before; [|exact Hbefore|].
    2:{ rewrite Hstate. unfold Interpreter.streaming_on_close.
        destruct (Interpreter.random_gt_03 w); reflexivity. }
    rewrite Hstate.
    unfold Interpreter.streaming_on_close, Interpreter.streaming_on_error.
    rewrite Hheard.
    cbn [Interpreter.promise Interpreter.settle Interpreter.calling
         Interpreter.release Interpreter.tracked Interpreter.log
         Interpreter.stdout Interpreter.stderr].
    rewrite Hpromise, Hout, Herr, Hlog.
    split; [reflexivity|]. split; [reflexivity|].
    exists (Interpreter.log x0 ++ emitted). split.
    + unfold Interpreter.cleanupTempFile. rewrite <- !app_assoc.
      destruct (Interpreter.random_gt_03 w); reflexivity.
    + destruct Hquiet as [Hunlink Hkills].
      rewrite List.filter_app, Hunlink, kills_app, Hkills.
      split; reflexivity.
Qed.

Lemma spawn_failure_error_then_close_witness :
  let made := Interpreter.new Sample.host Sample.heap InterpreterConfig.empty in
  let direct :=
    Interpreter.executeDirectly Sample.host (snd made) (fst made)
      (Sample.world Sample.failed_spawn) "/tmp/python_exec_5_b.py"
      ExecutionOptions.empty 0 in
  let streaming :=
    Interpreter.executeWithStreaming (snd made) (fst made)
      (Sample.world Sample.failed_spawn) "/tmp/python_exec_5_b.py"
      ExecutionOptions.empty 0 in
  Interpreter.promise direct
  = Host.resolved
      (PythonExecutionResult.mk false "" "spawn invalid_python_path ENOENT"
         1 11)
  /\ List.filter Trace.is_unlink (Interpreter.log direct)
     = [Host.unlink "/tmp/python_exec_5_b.py"]
  /\ Interpreter.promise streaming
     = Host.rejected "spawn invalid_python_path ENOENT".
Proof.
  intros made direct streaming.
  assert (H := spawn_failure_error_then_close Sample.host (snd made)
                 (fst made) (Sample.world Sample.failed_spawn)
                 "/tmp/python_exec_5_b.py" ExecutionOptions.empty 0 [] 11 12
                 "spawn invalid_python_path ENOENT" (Some (-2))
                 eq_refl eq_refl eq_refl).
  cbv zeta in H. destruct H as ((Hpromise & Hunlink & _) & Hstreaming).
  destruct (Hstreaming eq_refl) as (Hrejected & _).
  split; [exact Hpromise|]. split; [exact Hunlink | exact Hrejected].
Defined.
